(** * aws-apigw-ws-emulator: the gateway of [src/server.ts], embedded and verified

  The development follows the source file section by section:
  JavaScript run-time notions the code relies on (plain objects and their
  prototype chain, strings, [Date]), the configuration and event types of
  [types.ts], route selection, event building, backend dispatch, the
  management API, the session/timer state machine driven by the
  WebSocket and HTTP callbacks, and the two listeners on the requests as
  Node delivers them.

  Strings are byte strings (UTF-8); times are [Z] milliseconds since the
  epoch, as [Date.prototype.getTime] returns them. *)

From Stdlib Require Import ZArith Lia Ascii String List Bool.
From stdpp Require Import gmap strings list.

Set Warnings "-register-all".

Open Scope string_scope.
Open Scope Z_scope.

(* ====================================================================== *)
(** ** JavaScript strings *)
(* ====================================================================== *)

Module JsString.

(** [s.startsWith(p)] together with the remainder of [s]. *)
Fixpoint strip_prefix (p s : string) : option string :=
  match p, s with
  | EmptyString, _ => Some s
  | String a p', String b s' =>
      if Ascii.eqb a b then strip_prefix p' s' else None
  | String _ _, EmptyString => None
  end.

(** [s.split(sep)] for a one-character separator. *)
Fixpoint split (sep : ascii) (s : string) : list string :=
  match s with
  | EmptyString => [EmptyString]
  | String c s' =>
      if Ascii.eqb c sep then EmptyString :: split sep s'
      else match split sep s' with
           | h :: t => String c h :: t
           | [] => [String c EmptyString]
           end
  end.

(** Line terminators of the regular-expression grammar: LF, CR and the
    UTF-8 encodings of U+2028 and U+2029.  The pattern [.] does not match
    them. *)
Fixpoint has_line_terminator (s : string) : bool :=
  match s with
  | EmptyString => false
  | String c s' =>
      if Ascii.eqb c "010"%char || Ascii.eqb c "013"%char then true
      else match strip_prefix (String "226" (String "128" (String "168" EmptyString))) s,
                 strip_prefix (String "226" (String "128" (String "169" EmptyString))) s with
           | None, None => has_line_terminator s'
           | _, _ => true
           end
  end.

(** [s.replace(pat, rep)] with a string pattern: the first occurrence only. *)
Fixpoint replace (pat rep s : string) : string :=
  match strip_prefix pat s with
  | Some rest => rep ++ rest
  | None => match s with
            | EmptyString => EmptyString
            | String c s' => String c (replace pat rep s')
            end
  end.

Definition is_digit (c : ascii) : bool :=
  ((48 <=? Z.of_N (N_of_ascii c)) && (Z.of_N (N_of_ascii c) <=? 57))%Z.

Definition digit_val (c : ascii) : Z := Z.of_N (N_of_ascii c) - 48.

Definition digit_char (d : Z) : ascii := ascii_of_N (Z.to_N (48 + d)).

(** [c.toLowerCase()] on ASCII letters. *)
Definition lower_char (c : ascii) : ascii :=
  let n := N_of_ascii c in
  if ((65 <=? n) && (n <=? 90))%N then ascii_of_N (n + 32) else c.

Fixpoint toLowerCase (s : string) : string :=
  match s with
  | EmptyString => EmptyString
  | String c s' => String (lower_char c) (toLowerCase s')
  end.

End JsString.

(* ====================================================================== *)
(** ** Plain objects and the prototype chain *)
(* ====================================================================== *)

Module JsObject.

(** The string-keyed members every plain object inherits from
    [Object.prototype].  All of them are functions except the accessor
    [__proto__], which yields the prototype object itself. *)
Definition Object_prototype_members : list string :=
  [ "constructor"; "hasOwnProperty"; "isPrototypeOf"; "propertyIsEnumerable";
    "toLocaleString"; "toString"; "valueOf";
    "__defineGetter__"; "__defineSetter__"; "__lookupGetter__";
    "__lookupSetter__"; "__proto__" ].

(** The string-keyed members of [Array.prototype] (ECMAScript 2023). *)
Definition Array_prototype_members : list string :=
  [ "length"; "constructor"; "at"; "concat"; "copyWithin"; "fill"; "find";
    "findIndex"; "findLast"; "findLastIndex"; "lastIndexOf"; "pop"; "push";
    "reverse"; "shift"; "unshift"; "slice"; "sort"; "splice"; "includes";
    "indexOf"; "join"; "keys"; "entries"; "values"; "forEach"; "filter";
    "flat"; "flatMap"; "map"; "every"; "some"; "reduce"; "reduceRight";
    "toLocaleString"; "toString"; "toReversed"; "toSorted"; "toSpliced";
    "with" ].

Definition inherits_from_Object (k : string) : bool :=
  bool_decide (k ∈ Object_prototype_members).

Definition inherits_from_Array (k : string) : bool :=
  bool_decide (k ∈ Array_prototype_members).

(** [obj[k] = v] on a plain object when [v] is a primitive: the inherited
    [__proto__] setter ignores primitives, so that key never becomes an own
    property this way. *)
Definition set_primitive {V} (k : string) (v : V) (obj : gmap string V)
  : gmap string V :=
  if bool_decide (k = "__proto__") then obj else <[k := v]> obj.

(** The result of reading [obj[k]] on a plain object whose own properties
    are [obj]. *)
Inductive property (V : Type) : Type :=
| Own (v : V)
| Inherited
| Undefined.
Arguments Own {V} v.
Arguments Inherited {V}.
Arguments Undefined {V}.

Definition get {V} (obj : gmap string V) (k : string) : property V :=
  match obj !! k with
  | Some v => Own v
  | None => if inherits_from_Object k then Inherited else Undefined
  end.

(** Truthiness of [obj[k]] when the own values are objects: own values and
    inherited members are truthy, [undefined] is falsy. *)
Definition truthy {V} (p : property V) : bool :=
  match p with
  | Own _ | Inherited => true
  | Undefined => false
  end.

End JsObject.

(* ====================================================================== *)
(** ** JSON values *)
(* ====================================================================== *)

(** What [JSON.parse] returns.  An object keeps its members in textual
  order; a repeated name is resolved to its last occurrence, as the parser
  does.  Numbers are never inspected by the gateway. *)
Inductive json : Type :=
| JNull
| JBool (b : bool)
| JNum (n : Z)
| JStr (s : string)
| JArr (items : list json)
| JObj (members : list (string * json)).

Module Json.

Fixpoint member (k : string) (ms : list (string * json)) : option json :=
  match ms with
  | [] => None
  | (k', v) :: rest =>
      match member k rest with
      | Some w => Some w
      | None => if bool_decide (k' = k) then Some v else None
      end
  end.

(** A canonical array index: decimal digits without a leading zero. *)
Fixpoint digits_value (acc : N) (s : string) : option N :=
  match s with
  | EmptyString => Some acc
  | String c s' =>
      if JsString.is_digit c
      then digits_value (10 * acc + (N_of_ascii c - 48))%N s'
      else None
  end.

Definition array_index (k : string) : option nat :=
  match k with
  | EmptyString => None
  | String "0" EmptyString => Some 0%nat
  | String "0" _ => None
  | _ => N.to_nat <$> digits_value 0%N k
  end.

End Json.

(** A value met while walking a parsed message: a JSON value, a built-in
    function inherited from a prototype ([typeof] is ['function']), or one of
    the two prototype objects, reachable through [__proto__]. *)
Inductive jsval : Type :=
| VJson (j : json)
| VFunction
| VObjectPrototype
| VArrayPrototype.

Module JsValue.

(** [value && typeof value === 'object'].  [null], [false], [0] and the
    empty string are falsy; the remaining primitives and functions are not
    of type ['object']; arrays are. *)
Definition is_object (v : jsval) : bool :=
  match v with
  | VJson (JObj _) | VJson (JArr _) | VObjectPrototype | VArrayPrototype => true
  | VJson JNull | VJson (JBool _) | VJson (JNum _) | VJson (JStr _)
  | VFunction => false
  end.

(** A member inherited from [Object.prototype]. *)
Definition Object_prototype_get (k : string) : option jsval :=
  if bool_decide (k = "__proto__") then Some (VJson JNull)
  else if JsObject.inherits_from_Object k then Some VFunction
  else None.

(** A member of [Array.prototype], own or inherited. *)
Definition Array_prototype_get (k : string) : option jsval :=
  if bool_decide (k = "length") then Some (VJson (JNum 0))
  else if bool_decide (k = "__proto__") then Some VObjectPrototype
  else if JsObject.inherits_from_Array k || JsObject.inherits_from_Object k
       then Some VFunction
  else None.

(** [k in v] and [v[k]] at once, for a [v] that passed [is_object]:
    [Some w] when the member exists, with its value. *)
Definition get (v : jsval) (k : string) : option jsval :=
  match v with
  | VJson (JObj ms) =>
      match Json.member k ms with
      | Some j => Some (VJson j)
      | None => if bool_decide (k = "__proto__") then Some VObjectPrototype
                else Object_prototype_get k
      end
  | VJson (JArr items) =>
      match Json.array_index k ≫= λ i, items !! i with
      | Some j => Some (VJson j)
      | None => if bool_decide (k = "length")
                then Some (VJson (JNum (Z.of_nat (length items))))
                else if bool_decide (k = "__proto__") then Some VArrayPrototype
                else Array_prototype_get k
      end
  | VObjectPrototype => Object_prototype_get k
  | VArrayPrototype => Array_prototype_get k
  | _ => None
  end.

End JsValue.

(* ====================================================================== *)
(** ** Gateway configuration ([types.ts]) *)
(* ====================================================================== *)

Inductive IntegrationMode : Type := lambda_proxy | http.

Record RouteIntegration : Type := { uri : string }.

Record GatewayConfig : Type := {
  port : Z;
  stage : string;
  apiId : string;
  domainName : string;
  integrationMode : IntegrationMode;
  routeSelectionExpression : option string;
  routes : gmap string RouteIntegration;
  idleTimeout : Z;
  hardTimeout : Z;
  verbose : bool
}.

Definition DEFAULT_CONFIG : GatewayConfig := {|
  port := 3001;
  stage := "local";
  apiId := "local";
  domainName := "";
  integrationMode := lambda_proxy;
  routeSelectionExpression := None;
  routes :=
    <["$connect" := {| uri := "http://localhost:8080/ws/connect" |}]>
    (<["$disconnect" := {| uri := "http://localhost:8080/ws/disconnect" |}]>
    (<["$default" := {| uri := "http://localhost:8080/ws/default" |}]> ∅));
  idleTimeout := 600;
  hardTimeout := 7200;
  verbose := false
|}.

Definition with_routeSelectionExpression (e : string) (c : GatewayConfig)
  : GatewayConfig :=
  {| port := port c; stage := stage c; apiId := apiId c;
     domainName := domainName c; integrationMode := integrationMode c;
     routeSelectionExpression := Some e; routes := routes c;
     idleTimeout := idleTimeout c; hardTimeout := hardTimeout c;
     verbose := verbose c |}.

Definition with_integrationMode (m : IntegrationMode) (c : GatewayConfig)
  : GatewayConfig :=
  {| port := port c; stage := stage c; apiId := apiId c;
     domainName := domainName c; integrationMode := m;
     routeSelectionExpression := routeSelectionExpression c;
     routes := routes c;
     idleTimeout := idleTimeout c; hardTimeout := hardTimeout c;
     verbose := verbose c |}.

Definition with_routes (r : gmap string RouteIntegration) (c : GatewayConfig)
  : GatewayConfig :=
  {| port := port c; stage := stage c; apiId := apiId c;
     domainName := domainName c; integrationMode := integrationMode c;
     routeSelectionExpression := routeSelectionExpression c;
     routes := r;
     idleTimeout := idleTimeout c; hardTimeout := hardTimeout c;
     verbose := verbose c |}.

(* ====================================================================== *)
(** ** Route selection *)
(* ====================================================================== *)

Section RouteSelection.

(** [JSON.parse]: [None] when it throws a [SyntaxError]. *)
Variable JSON_parse : string -> option json.

(** [expr.match(/^\$request\.body\.(.+)$/)], returning the captured group. *)
Definition match_request_body (expr : string) : option string :=
  match JsString.strip_prefix "$request.body." expr with
  | Some rest =>
      if bool_decide (rest = "") || JsString.has_line_terminator rest
      then None else Some rest
  | None => None
  end.

(** The [for (const key of path)] loop: [None] is the early
    [return '$default'], [Some v] the value left in [value] after the last
    key. *)
Fixpoint walk (path : list string) (value : jsval) : option jsval :=
  match path with
  | [] => Some value
  | key :: rest =>
      if JsValue.is_object value then
        match JsValue.get value key with
        | Some v => walk rest v
        | None => None
        end
      else None
  end.

Definition selectRoute (config : GatewayConfig) (message : string) : string :=
  match routeSelectionExpression config with
  | None => "$default"
  | Some expr =>
      if bool_decide (expr = "") then "$default"
      else
        match JSON_parse message with
        | None => "$default"
        | Some parsed =>
            match match_request_body expr with
            | Some group =>
                match walk (JsString.split "." group) (VJson parsed) with
                | None => "$default"
                | Some (VJson (JStr value)) =>
                    if JsObject.truthy (JsObject.get (routes config) value)
                    then value else "$default"
                | Some _ => "$default"
                end
            | None => "$default"
            end
        end
  end.

End RouteSelection.

(* ====================================================================== *)
(** ** Dates: the UTC getters of [Date.prototype] *)
(* ====================================================================== *)

Module JsDate.

Definition msPerSecond : Z := 1000.
Definition msPerMinute : Z := 60000.
Definition msPerHour : Z := 3600000.
Definition msPerDay : Z := 86400000.

Definition Day (t : Z) : Z := t / msPerDay.

Definition DayFromYear (y : Z) : Z :=
  365 * (y - 1970) + (y - 1969) / 4 - (y - 1901) / 100 + (y - 1601) / 400.

Definition InLeapYear (y : Z) : bool :=
  ((y mod 4 =? 0) && negb (y mod 100 =? 0)) || (y mod 400 =? 0).

(** The year containing day number [d]: an estimate from the mean length of
    the Gregorian year, corrected by at most one.  [YearFromDay_spec] below
    shows it is the largest [y] with [DayFromYear y <= d], which is how the
    language definition introduces [YearFromTime]. *)
Definition YearFromDay (d : Z) : Z :=
  let y0 := 1970 + (400 * d) / 146097 in
  if DayFromYear (y0 + 1) <=? d then y0 + 1
  else if d <? DayFromYear y0 then y0 - 1
  else y0.

Definition YearFromTime (t : Z) : Z := YearFromDay (Day t).

Definition DayWithinYear (t : Z) : Z := Day t - DayFromYear (YearFromTime t).

Definition leap_days (t : Z) : Z :=
  if InLeapYear (YearFromTime t) then 1 else 0.

Definition MonthFromTime (t : Z) : Z :=
  let d := DayWithinYear t in
  let l := leap_days t in
  if d <? 31 then 0
  else if d <? 59 + l then 1
  else if d <? 90 + l then 2
  else if d <? 120 + l then 3
  else if d <? 151 + l then 4
  else if d <? 181 + l then 5
  else if d <? 212 + l then 6
  else if d <? 243 + l then 7
  else if d <? 273 + l then 8
  else if d <? 304 + l then 9
  else if d <? 334 + l then 10
  else 11.

Definition DateFromTime (t : Z) : Z :=
  let d := DayWithinYear t in
  let l := leap_days t in
  match MonthFromTime t with
  | 0 => d + 1
  | 1 => d - 30
  | 2 => d - 58 - l
  | 3 => d - 89 - l
  | 4 => d - 119 - l
  | 5 => d - 150 - l
  | 6 => d - 180 - l
  | 7 => d - 211 - l
  | 8 => d - 242 - l
  | 9 => d - 272 - l
  | 10 => d - 303 - l
  | _ => d - 333 - l
  end.

Definition getUTCFullYear (t : Z) : Z := YearFromTime t.
Definition getUTCMonth (t : Z) : Z := MonthFromTime t.
Definition getUTCDate (t : Z) : Z := DateFromTime t.
Definition getUTCHours (t : Z) : Z := (t / msPerHour) mod 24.
Definition getUTCMinutes (t : Z) : Z := (t / msPerMinute) mod 60.
Definition getUTCSeconds (t : Z) : Z := (t / msPerSecond) mod 60.

(** Days before month [m] (0-based) in a year with [l] leap days. *)
Definition days_before_month (m l : Z) : Z :=
  match m with
  | 0 => 0
  | 1 => 31
  | 2 => 59 + l
  | 3 => 90 + l
  | 4 => 120 + l
  | 5 => 151 + l
  | 6 => 181 + l
  | 7 => 212 + l
  | 8 => 243 + l
  | 9 => 273 + l
  | 10 => 304 + l
  | _ => 334 + l
  end.

(** [Date.UTC(year, month, date, hours, minutes, seconds)] for a month in
    [0, 11] and a year written out in full: [MakeDate (MakeDay ...)
    (MakeTime ...)]. *)
Definition UTC (year month date hours minutes seconds : Z) : Z :=
  let l := if InLeapYear year then 1 else 0 in
  (DayFromYear year + days_before_month month l + date - 1) * msPerDay
  + hours * msPerHour + minutes * msPerMinute + seconds * msPerSecond.

End JsDate.

(* ====================================================================== *)
(** ** Numbers to strings *)
(* ====================================================================== *)

Module JsNumber.

Fixpoint digits (fuel : nat) (n : Z) (acc : string) : string :=
  let acc' := String (JsString.digit_char (n mod 10)) acc in
  match fuel with
  | O => acc'
  | S fuel' => if n <? 10 then acc' else digits fuel' (n / 10) acc'
  end.

(** [n.toString()] for an integer [n] of absolute value below 10^21; from
    there on JavaScript writes the number with an exponent. *)
Definition toString (n : Z) : string :=
  if n <? 0 then String "-" (digits (Z.to_nat (Z.log2 (- n))) (- n) "")
  else digits (Z.to_nat (Z.log2 n)) n "".

(** [s.padStart(2, '0')]. *)
Definition padStart2 (s : string) : string :=
  match s with
  | EmptyString => "00"
  | String c EmptyString => String "0" s
  | _ => s
  end.

End JsNumber.

(* ====================================================================== *)
(** ** Sessions and AWS events ([types.ts]) *)
(* ====================================================================== *)

(** A live WebSocket session.  [conn_ws] names the socket object in the
    socket store of the gateway state. *)
Record Connection : Type := {
  conn_id : string;
  conn_ws : nat;
  conn_connectedAt : Z;
  conn_lastActivityAt : Z;
  conn_queryParams : gmap string string;
  conn_headers : gmap string string;
  conn_sourceIp : string;
  conn_userAgent : string
}.

Inductive EventType : Type := CONNECT | DISCONNECT | MESSAGE.

Record DisconnectOptions : Type := {
  disconnectStatusCode : Z;
  disconnectReason : string
}.

Record AWSIdentity : Type := {
  id_sourceIp : string;
  id_userAgent : string
}.

Record AWSRequestContext : Type := {
  ctx_routeKey : string;
  ctx_eventType : EventType;
  ctx_extendedRequestId : string;
  ctx_requestTime : string;
  ctx_messageDirection : string;
  ctx_stage : string;
  ctx_connectedAt : Z;
  ctx_requestTimeEpoch : Z;
  ctx_identity : AWSIdentity;
  ctx_requestId : string;
  ctx_domainName : string;
  ctx_connectionId : string;
  ctx_apiId : string;
  ctx_messageId : option string;
  ctx_disconnectStatusCode : option Z;
  ctx_disconnectReason : option string
}.

(** [None] in [ev_queryStringParameters] and [ev_body] is the JSON literal
    [null]. *)
Record AWSWebSocketEvent : Type := {
  ev_requestContext : AWSRequestContext;
  ev_headers : gmap string string;
  ev_multiValueHeaders : gmap string (list string);
  ev_queryStringParameters : option (gmap string string);
  ev_body : option string;
  ev_isBase64Encoded : bool
}.

(* ====================================================================== *)
(** ** AWS event building *)
(* ====================================================================== *)

Definition months : list string :=
  [ "Jan"; "Feb"; "Mar"; "Apr"; "May"; "Jun";
    "Jul"; "Aug"; "Sep"; "Oct"; "Nov"; "Dec" ].

Definition pad (n : Z) : string :=
  JsNumber.padStart2 (JsNumber.toString n).

Definition formatRequestTime (date : Z) : string :=
  (pad (JsDate.getUTCDate date) ++ "/"
   ++ nth (Z.to_nat (JsDate.getUTCMonth date)) months "undefined" ++ "/"
   ++ JsNumber.toString (JsDate.getUTCFullYear date) ++ ":"
   ++ pad (JsDate.getUTCHours date) ++ ":"
   ++ pad (JsDate.getUTCMinutes date) ++ ":"
   ++ pad (JsDate.getUTCSeconds date) ++ " +0000")%string.

Definition getEventType (routeKey : string) : EventType :=
  if bool_decide (routeKey = "$connect") then CONNECT
  else if bool_decide (routeKey = "$disconnect") then DISCONNECT
  else MESSAGE.

Definition EventType_eqb (a b : EventType) : bool :=
  match a, b with
  | CONNECT, CONNECT | DISCONNECT, DISCONNECT | MESSAGE, MESSAGE => true
  | _, _ => false
  end.

Section EventBuilding.

Variable config : GatewayConfig.

(** The clock reading [new Date()] and the two random identifiers the
    generators would return are inputs: [now], [requestId] and [messageId].
    The [options] the dispatcher passes are [DisconnectOptions], which carry
    no [messageId], so a MESSAGE context always takes the generated one. *)
Definition buildRequestContext (connection : Connection) (routeKey : string)
    (eventType : EventType) (options : option DisconnectOptions)
    (now : Z) (requestId messageId : string) : AWSRequestContext :=
  {| ctx_routeKey := routeKey;
     ctx_eventType := eventType;
     ctx_extendedRequestId := requestId;
     ctx_requestTime := formatRequestTime now;
     ctx_messageDirection := "IN";
     ctx_stage := stage config;
     ctx_connectedAt := conn_connectedAt connection;
     ctx_requestTimeEpoch := now;
     ctx_identity := {| id_sourceIp := conn_sourceIp connection;
                        id_userAgent := conn_userAgent connection |};
     ctx_requestId := requestId;
     ctx_domainName := domainName config;
     ctx_connectionId := conn_id connection;
     ctx_apiId := apiId config;
     ctx_messageId :=
       if EventType_eqb eventType MESSAGE then Some messageId else None;
     ctx_disconnectStatusCode :=
       if EventType_eqb eventType DISCONNECT
       then disconnectStatusCode <$> options else None;
     ctx_disconnectReason :=
       if EventType_eqb eventType DISCONNECT
       then disconnectReason <$> options else None |}.

(** [result[key] = [value]]: the value is an array, so on the key
    [__proto__] the assignment replaces the prototype of [result] and adds
    no own property. *)
Definition set_array (key : string) (value : list string)
    (result : gmap string (list string)) : gmap string (list string) :=
  if bool_decide (key = "__proto__") then result else <[key := value]> result.

Definition buildMultiValueHeaders (headers : gmap string string)
  : gmap string (list string) :=
  map_fold (λ key value result, set_array key [value] result) ∅ headers.

Definition buildLambdaEvent (connection : Connection) (routeKey : string)
    (eventType : EventType) (body : option string)
    (options : option DisconnectOptions)
    (now : Z) (requestId messageId : string) : AWSWebSocketEvent :=
  {| ev_requestContext :=
       buildRequestContext connection routeKey eventType options
                           now requestId messageId;
     ev_headers := conn_headers connection;
     ev_multiValueHeaders := buildMultiValueHeaders (conn_headers connection);
     ev_queryStringParameters :=
       if (0 <? Z.of_nat (size (conn_queryParams connection)))
       then Some (conn_queryParams connection) else None;
     ev_body := body;
     ev_isBase64Encoded := false |}.

End EventBuilding.

(* ====================================================================== *)
(** ** Backend communication *)
(* ====================================================================== *)

(** The second argument of [fetch].  [fetch_body] is the event that
    [JSON.stringify] serialises. *)
Record FetchInit : Type := {
  fetch_method : string;
  fetch_headers : list (string * string);
  fetch_body : AWSWebSocketEvent
}.

(** What [callBackend] does before it suspends on [await]: it either
    returns [false] at once for want of an integration, or calls [fetch].
    The URL is [integration.uri]; it is [None] ([undefined]) when the
    integration found is an inherited member of the route table rather than
    a configured route. *)
Inductive Dispatch : Type :=
| NotSent
| Fetch (url : option string) (init : FetchInit).

(** How the [fetch] promise settles. *)
Inductive FetchOutcome : Type :=
| Responded (status : Z)
| Rejected.

Definition response_ok (status : Z) : bool :=
  (200 <=? status) && (status <=? 299).

Section Backend.

Variable config : GatewayConfig.

(** [this.config.routes[routeKey] || this.config.routes['$default']] *)
Definition integration_for (routeKey : string)
  : JsObject.property RouteIntegration :=
  if JsObject.truthy (JsObject.get (routes config) routeKey)
  then JsObject.get (routes config) routeKey
  else JsObject.get (routes config) "$default".

Definition callBackend (routeKey : string) (connection : Connection)
    (body : option string) (disconnectOptions : option DisconnectOptions)
    (now : Z) (requestId messageId : string) : Dispatch :=
  let eventType := getEventType routeKey in
  let integration := integration_for routeKey in
  if negb (JsObject.truthy integration) then NotSent
  else
    let event := buildLambdaEvent config connection routeKey eventType body
                                  disconnectOptions now requestId messageId in
    Fetch (match integration with
           | JsObject.Own i => Some (uri i)
           | _ => None
           end)
          {| fetch_method := "POST";
             fetch_headers := [("Content-Type", "application/json")];
             fetch_body := event |}.

(** The boolean the [callBackend] promise resolves to. *)
Definition callBackend_result (d : Dispatch) (outcome : FetchOutcome) : bool :=
  match d with
  | NotSent => false
  | Fetch None _ => false
  | Fetch (Some _) _ =>
      match outcome with
      | Responded status => response_ok status
      | Rejected => false
      end
  end.

End Backend.

(* ====================================================================== *)
(** ** [decodeURIComponent] *)
(* ====================================================================== *)

Module JsURI.

Definition hex_val (c : ascii) : option Z :=
  let n := Z.of_N (N_of_ascii c) in
  if (48 <=? n) && (n <=? 57) then Some (n - 48)
  else if (65 <=? n) && (n <=? 70) then Some (n - 55)
  else if (97 <=? n) && (n <=? 102) then Some (n - 87)
  else None.

(** One escape [%XX] at the head of [s]: the octet and the rest. *)
Definition escape (s : string) : option (Z * string) :=
  match s with
  | String "%" (String h (String l rest)) =>
      match hex_val h, hex_val l with
      | Some a, Some b => Some (16 * a + b, rest)
      | _, _ => None
      end
  | _ => None
  end.

(** [n] further escapes, each a continuation octet [10xxxxxx]. *)
Fixpoint continuation (n : nat) (s : string) : option (list Z * string) :=
  match n with
  | O => Some ([], s)
  | S n' =>
      match escape s with
      | Some (b, rest) =>
          if (128 <=? b) && (b <=? 191) then
            match continuation n' rest with
            | Some (bs, rest') => Some (b :: bs, rest')
            | None => None
            end
          else None
      | None => None
      end
  end.

(** Whether a lead octet and its continuation octets encode a code point:
    no overlong form, no surrogate, nothing above U+10FFFF. *)
Definition well_formed (lead : Z) (tail : list Z) : bool :=
  match tail with
  | [_] => (194 <=? lead) && (lead <=? 223)
  | [b; _] =>
      if lead =? 224 then 160 <=? b
      else if lead =? 237 then b <=? 159
      else (225 <=? lead) && (lead <=? 239)
  | [b; _; _] =>
      if lead =? 240 then 144 <=? b
      else if lead =? 244 then b <=? 143
      else (241 <=? lead) && (lead <=? 243)
  | _ => false
  end.

Definition octets_to_string (bs : list Z) : string :=
  fold_right (λ b acc, String (ascii_of_N (Z.to_N b)) acc) EmptyString bs.

(** [None] stands for the [URIError] the function throws. *)
Fixpoint decode (fuel : nat) (s : string) : option string :=
  match fuel with
  | O => Some EmptyString
  | S fuel' =>
      match s with
      | EmptyString => Some EmptyString
      | String "%" _ =>
          match escape s with
          | None => None
          | Some (b, rest) =>
              if b <? 128 then
                String (ascii_of_N (Z.to_N b)) <$> decode fuel' rest
              else
                let n := if b <? 192 then 1%nat
                         else if b <? 224 then 2%nat
                         else if b <? 240 then 3%nat
                         else if b <? 248 then 4%nat
                         else 5%nat in
                if bool_decide (n = 1%nat) || bool_decide (n = 5%nat) then None
                else
                  match continuation (n - 1) rest with
                  | None => None
                  | Some (bs, rest') =>
                      if well_formed b bs
                      then String.append (octets_to_string (b :: bs))
                             <$> decode fuel' rest'
                      else None
                  end
          end
      | String c rest => String c <$> decode fuel' rest
      end
  end.

Definition decodeURIComponent (s : string) : option string :=
  decode (String.length s) s.

End JsURI.

(* ====================================================================== *)
(** ** The gateway state *)
(* ====================================================================== *)

Inductive ReadyState : Type := CONNECTING | OPEN | CLOSING | CLOSED.

(** A [WebSocket] object of the [ws] library, as far as the gateway
    observes it: its state, the data frames written to it and the close
    frame sent, if any. *)
Record Socket : Type := {
  readyState : ReadyState;
  sent : list string;
  closeFrame : option (Z * string)
}.

Inductive TimerKind : Type := Idle | Hard.

(** A pending [setTimeout]: which of the two callbacks it runs, the
    [connectionId] the callback closes over and the delay asked for, in
    milliseconds.  [timer_session] is ghost: the session whose handler
    scheduled the timer. *)
Record Timer : Type := {
  timer_kind : TimerKind;
  timer_connectionId : string;
  timer_delay : Z;
  timer_session : nat
}.

Inductive ResponseBody : Type :=
| NoBody
| HealthBody (connections : nat)
| InfoBody (connectionId : string) (connectedAt lastActiveAt : Z)
| MessageBody (message : string) (connectionId : option string).

Record HttpResponse : Type := {
  res_status : Z;
  res_contentType : option string;
  res_body : ResponseBody
}.

(** What the gateway does to the outside world, in order.  [CallBackend]
    records a call of [callBackend] by a handler of [session], with its
    arguments and what the call did. *)
Inductive Effect : Type :=
| CallBackend (session : nat) (routeKey : string) (body : option string)
              (disconnectOptions : option DisconnectOptions) (d : Dispatch)
| SetTimeout (h : nat) (t : Timer)
| ClearTimeout (h : nat)
| WsSend (session : nat) (data : string)
| WsClose (session : nat) (code : Z) (reason : string)
| Respond (r : HttpResponse)
| Uncaught (error : string).

(** [connections] and [timeoutTimers] are the two [Map]s of the class.
    [objects] holds the [Connection] objects by reference (the handlers of a
    socket keep their object whether or not it is still in [connections]),
    [sockets] the sockets under the same references, [timers] the timers
    pending in the event loop, [connecting] the [$connect] calls whose
    promise has not settled. *)
Record Gateway : Type := {
  connections : gmap string nat;
  timeoutTimers : gmap string nat;
  objects : gmap nat Connection;
  sockets : gmap nat Socket;
  timers : gmap nat Timer;
  connecting : gmap nat Dispatch;
  next_ref : nat;
  next_timer : nat;
  trace : list Effect
}.

Definition initial : Gateway := {|
  connections := ∅; timeoutTimers := ∅; objects := ∅; sockets := ∅;
  timers := ∅; connecting := ∅; next_ref := 0; next_timer := 0; trace := []
|}.

Definition set_connections (f : gmap string nat -> gmap string nat)
    (g : Gateway) : Gateway :=
  {| connections := f (connections g); timeoutTimers := timeoutTimers g;
     objects := objects g; sockets := sockets g; timers := timers g;
     connecting := connecting g; next_ref := next_ref g;
     next_timer := next_timer g; trace := trace g |}.

Definition set_timeoutTimers (f : gmap string nat -> gmap string nat)
    (g : Gateway) : Gateway :=
  {| connections := connections g; timeoutTimers := f (timeoutTimers g);
     objects := objects g; sockets := sockets g; timers := timers g;
     connecting := connecting g; next_ref := next_ref g;
     next_timer := next_timer g; trace := trace g |}.

Definition set_objects (f : gmap nat Connection -> gmap nat Connection)
    (g : Gateway) : Gateway :=
  {| connections := connections g; timeoutTimers := timeoutTimers g;
     objects := f (objects g); sockets := sockets g; timers := timers g;
     connecting := connecting g; next_ref := next_ref g;
     next_timer := next_timer g; trace := trace g |}.

Definition set_sockets (f : gmap nat Socket -> gmap nat Socket)
    (g : Gateway) : Gateway :=
  {| connections := connections g; timeoutTimers := timeoutTimers g;
     objects := objects g; sockets := f (sockets g); timers := timers g;
     connecting := connecting g; next_ref := next_ref g;
     next_timer := next_timer g; trace := trace g |}.

Definition set_timers (f : gmap nat Timer -> gmap nat Timer)
    (g : Gateway) : Gateway :=
  {| connections := connections g; timeoutTimers := timeoutTimers g;
     objects := objects g; sockets := sockets g; timers := f (timers g);
     connecting := connecting g; next_ref := next_ref g;
     next_timer := next_timer g; trace := trace g |}.

Definition set_connecting (f : gmap nat Dispatch -> gmap nat Dispatch)
    (g : Gateway) : Gateway :=
  {| connections := connections g; timeoutTimers := timeoutTimers g;
     objects := objects g; sockets := sockets g; timers := timers g;
     connecting := f (connecting g); next_ref := next_ref g;
     next_timer := next_timer g; trace := trace g |}.

Definition emit (e : Effect) (g : Gateway) : Gateway :=
  {| connections := connections g; timeoutTimers := timeoutTimers g;
     objects := objects g; sockets := sockets g; timers := timers g;
     connecting := connecting g; next_ref := next_ref g;
     next_timer := next_timer g; trace := trace g ++ [e] |}.

(* ====================================================================== *)
(** ** Run-time primitives: timers and sockets *)
(* ====================================================================== *)

Definition setTimeout (t : Timer) (g : Gateway) : nat * Gateway :=
  let h := next_timer g in
  (h, emit (SetTimeout h t)
        {| connections := connections g; timeoutTimers := timeoutTimers g;
           objects := objects g; sockets := sockets g;
           timers := <[h := t]> (timers g);
           connecting := connecting g; next_ref := next_ref g;
           next_timer := S h; trace := trace g |}).

Definition clearTimeout (h : nat) (g : Gateway) : Gateway :=
  emit (ClearTimeout h) (set_timers (delete h) g).

(** [ws.close(code, reason)]: an open socket sends the close frame and
    becomes CLOSING; in any other state the call changes nothing. *)
Definition ws_close (r : nat) (code : Z) (reason : string) (g : Gateway)
  : Gateway :=
  emit (WsClose r code reason)
    match sockets g !! r with
    | Some s =>
        match readyState s with
        | OPEN =>
            set_sockets
              (insert r {| readyState := CLOSING; sent := sent s;
                           closeFrame := Some (code, reason) |}) g
        | _ => g
        end
    | None => g
    end.

(** [ws.send(data)] *)
Definition ws_send (r : nat) (data : string) (g : Gateway) : Gateway :=
  emit (WsSend r data)
    match sockets g !! r with
    | Some s =>
        match readyState s with
        | OPEN =>
            set_sockets
              (insert r {| readyState := OPEN; sent := sent s ++ [data];
                           closeFrame := closeFrame s |}) g
        | _ => g
        end
    | None => g
    end.

Definition is_open (g : Gateway) (r : nat) : bool :=
  match sockets g !! r with
  | Some s => match readyState s with OPEN => true | _ => false end
  | None => false
  end.

(* ====================================================================== *)
(** ** Timeout management *)
(* ====================================================================== *)

Definition idleKey (connectionId : string) : string :=
  (connectionId ++ ":idle")%string.

Definition hardKey (connectionId : string) : string :=
  (connectionId ++ ":hard")%string.

Section Timeouts.

Variable config : GatewayConfig.

(** [session] is ghost: the session whose handler makes the call. *)
Definition resetIdleTimeout (session : nat) (connectionId : string)
    (g : Gateway) : Gateway :=
  let g1 := match timeoutTimers g !! idleKey connectionId with
            | Some existingTimer => clearTimeout existingTimer g
            | None => g
            end in
  let '(idleTimer, g2) :=
    setTimeout {| timer_kind := Idle; timer_connectionId := connectionId;
                  timer_delay := idleTimeout config * 1000;
                  timer_session := session |} g1 in
  set_timeoutTimers (insert (idleKey connectionId) idleTimer) g2.

Definition setupTimeouts (session : nat) (connectionId : string)
    (g : Gateway) : Gateway :=
  let g1 := resetIdleTimeout session connectionId g in
  let '(hardTimer, g2) :=
    setTimeout {| timer_kind := Hard; timer_connectionId := connectionId;
                  timer_delay := hardTimeout config * 1000;
                  timer_session := session |} g1 in
  set_timeoutTimers (insert (hardKey connectionId) hardTimer) g2.

Definition clearTimeouts (connectionId : string) (g : Gateway) : Gateway :=
  let idleTimer := timeoutTimers g !! idleKey connectionId in
  let hardTimer := timeoutTimers g !! hardKey connectionId in
  let g1 := match idleTimer with Some h => clearTimeout h g | None => g end in
  let g2 := match hardTimer with Some h => clearTimeout h g1 | None => g1 end in
  set_timeoutTimers (delete (hardKey connectionId))
    (set_timeoutTimers (delete (idleKey connectionId)) g2).

(** The callback of a timer when the event loop runs it.  A timer that is
    no longer pending does not run. *)
Definition timer_fired (h : nat) (g : Gateway) : Gateway :=
  match timers g !! h with
  | None => g
  | Some t =>
      let g1 := set_timers (delete h) g in
      match connections g1 !! timer_connectionId t with
      | Some connection =>
          ws_close connection 1001
            match timer_kind t with
            | Idle => "Idle timeout"
            | Hard => "Hard timeout"
            end g1
      | None => g1
      end
  end.

End Timeouts.

(* ====================================================================== *)
(** ** WebSocket connection handling *)
(* ====================================================================== *)

(** A value of [req.headers]. *)
Inductive HeaderValue : Type :=
| HStr (s : string)
| HArr (first : string) (rest : list string)
| HUndefined.

(** The upgrade request, after Node and the URL parser have taken it apart:
    the pairs [url.searchParams] iterates over, the entries of
    [req.headers], and [req.socket.remoteAddress].  The parsing itself, which
    can throw, is in [Listener.handleConnection] below. *)
Record UpgradeRequest : Type := {
  req_searchParams : list (string * string);
  req_headers : list (string * HeaderValue);
  req_remoteAddress : option string
}.

Definition parseQueryParams (ps : list (string * string)) : gmap string string :=
  fold_left (λ queryParams '(key, value),
               JsObject.set_primitive key value queryParams) ps ∅.

Definition parseHeaders (hs : list (string * HeaderValue)) : gmap string string :=
  fold_left (λ headers '(key, value),
               match value with
               | HStr s =>
                   JsObject.set_primitive (JsString.toLowerCase key) s headers
               | HArr first _ =>
                   JsObject.set_primitive (JsString.toLowerCase key) first headers
               | HUndefined => headers
               end) hs ∅.

Fixpoint header (name : string) (hs : list (string * HeaderValue))
  : option string :=
  match hs with
  | [] => None
  | (k, v) :: rest =>
      if bool_decide (k = name) then
        match v with
        | HStr s => Some s
        | HArr first _ => Some first
        | HUndefined => None
        end
      else header name rest
  end.

(** [x || fallback] for a string [x] that may be [undefined]. *)
Definition or_else (x : option string) (fallback : string) : string :=
  match x with
  | Some s => if bool_decide (s = "") then fallback else s
  | None => fallback
  end.

(** The object literal [connection] of [handleConnection]. *)
Definition newConnection (req : UpgradeRequest) (connectionId : string)
    (ws : nat) (connectedAt lastActivityAt : Z) : Connection :=
  {| conn_id := connectionId;
     conn_ws := ws;
     conn_connectedAt := connectedAt;
     conn_lastActivityAt := lastActivityAt;
     conn_queryParams := parseQueryParams (req_searchParams req);
     conn_headers := parseHeaders (req_headers req);
     conn_sourceIp :=
       JsString.replace "::ffff:" "" (or_else (req_remoteAddress req) "127.0.0.1");
     conn_userAgent := or_else (header "user-agent" (req_headers req)) "" |}.

Definition touch (lastActivityAt : Z) (c : Connection) : Connection :=
  {| conn_id := conn_id c; conn_ws := conn_ws c;
     conn_connectedAt := conn_connectedAt c;
     conn_lastActivityAt := lastActivityAt;
     conn_queryParams := conn_queryParams c; conn_headers := conn_headers c;
     conn_sourceIp := conn_sourceIp c; conn_userAgent := conn_userAgent c |}.

Section GatewayHandlers.

Variable JSON_parse : string -> option json.
Variable config : GatewayConfig.

(** [handleConnection], up to the registration of the socket handlers.
    [connectionId], [requestId] and [messageId] are what the random
    generators return; [connectedAt], [lastActivityAt] and [now] the three
    clock readings. *)
Definition handleConnection (req : UpgradeRequest) (connectionId : string)
    (connectedAt lastActivityAt now : Z) (requestId messageId : string)
    (g : Gateway) : Gateway :=
  let r := next_ref g in
  let connection := newConnection req connectionId r connectedAt lastActivityAt in
  let g0 :=
    {| connections := <[connectionId := r]> (connections g);
       timeoutTimers := timeoutTimers g;
       objects := <[r := connection]> (objects g);
       sockets := <[r := {| readyState := OPEN; sent := [];
                            closeFrame := None |}]> (sockets g);
       timers := timers g; connecting := connecting g;
       next_ref := S r; next_timer := next_timer g; trace := trace g |} in
  let g1 := setupTimeouts config r connectionId g0 in
  let d := callBackend config "$connect" connection None None
                       now requestId messageId in
  set_connecting (insert r d) (emit (CallBackend r "$connect" None None d) g1).

(** The [then] callback of the [$connect] call, once its [fetch] settled. *)
Definition connect_settled (r : nat) (outcome : FetchOutcome) (g : Gateway)
  : Gateway :=
  match connecting g !! r with
  | None => g
  | Some d =>
      let g1 := set_connecting (delete r) g in
      if callBackend_result d outcome then g1
      else ws_close r 1011 "Backend connect failed" g1
  end.

(** [ws.on('message', ...)] of session [r]. *)
Definition on_message (r : nat) (message : string) (activityAt now : Z)
    (requestId messageId : string) (g : Gateway) : Gateway :=
  match objects g !! r, sockets g !! r with
  | Some connection, Some s =>
      match readyState s with
      | CLOSED => g
      | _ =>
          let connection' := touch activityAt connection in
          let g1 := set_objects (insert r connection') g in
          let g2 := resetIdleTimeout config r (conn_id connection) g1 in
          let routeKey := selectRoute JSON_parse config message in
          let d := callBackend config routeKey connection' (Some message) None
                               now requestId messageId in
          emit (CallBackend r routeKey (Some message) None d) g2
      end
  | _, _ => g
  end.

(** [ws.on('close', ...)] of session [r]; the library emits the event once,
    with the socket CLOSED. *)
Definition on_close (r : nat) (code : Z) (reason : string) (now : Z)
    (requestId messageId : string) (g : Gateway) : Gateway :=
  match objects g !! r, sockets g !! r with
  | Some connection, Some s =>
      match readyState s with
      | CLOSED => g
      | _ =>
          let g0 := set_sockets
                      (insert r {| readyState := CLOSED; sent := sent s;
                                   closeFrame := closeFrame s |}) g in
          let options := {| disconnectStatusCode := code;
                            disconnectReason := reason |} in
          let d := callBackend config "$disconnect" connection None
                               (Some options) now requestId messageId in
          let g1 := emit (CallBackend r "$disconnect" None (Some options) d)
                         g0 in
          let g2 := clearTimeouts (conn_id connection) g1 in
          set_connections (delete (conn_id connection)) g2
      end
  | _, _ => g
  end.

(* ---------------------------------------------------------------------- *)
(** *** HTTP request handling (management API) *)
(* ---------------------------------------------------------------------- *)

(** A handler either completes, having written a response, or throws. *)
Inductive Completion : Type :=
| Normal (r : HttpResponse)
| Throw (error : string).

Definition json_response (status : Z) (body : ResponseBody) : HttpResponse :=
  {| res_status := status; res_contentType := Some "application/json";
     res_body := body |}.

Definition empty_response (status : Z) : HttpResponse :=
  {| res_status := status; res_contentType := None; res_body := NoBody |}.

Definition Gone (connectionId : string) : HttpResponse :=
  json_response 410 (MessageBody "Gone" (Some connectionId)).

(** [this.connections.get(connectionId)], with the object it refers to. *)
Definition connections_get (g : Gateway) (connectionId : string)
  : option (nat * Connection) :=
  match connections g !! connectionId with
  | Some r => match objects g !! r with
              | Some c => Some (r, c)
              | None => None
              end
  | None => None
  end.

(** The ['end'] callback of a POST: [connection] is what the lookup at the
    start of the request returned. *)
Definition post_end (connection : option (nat * Connection))
    (connectionId body : string) (now : Z) (g : Gateway)
  : HttpResponse * Gateway :=
  match connection with
  | Some (r, _) =>
      if is_open g r then
        let g1 := ws_send r body g in
        let g2 := set_objects (alter (touch now) r) g1 in
        (empty_response 200, g2)
      else (Gone connectionId, g)
  | None => (Gone connectionId, g)
  end.

(** [body] is the value of the variable [body] when the ['end'] event of a
    POST arrives, taken to arrive in the turn of the request; how the
    chunks of the request make it up is [Listener.received_body] below. *)
Definition handleManagementApi (method connectionId body : string) (now : Z)
    (g : Gateway) : HttpResponse * Gateway :=
  let connection := connections_get g connectionId in
  if bool_decide (method = "GET") then
    match connection with
    | Some (_, c) =>
        (json_response 200
           (InfoBody connectionId (conn_connectedAt c) (conn_lastActivityAt c)),
         g)
    | None => (Gone connectionId, g)
    end
  else if bool_decide (method = "DELETE") then
    match connection with
    | Some (r, _) =>
        if is_open g r
        then (empty_response 204, ws_close r 1000 "Closed by management API" g)
        else (Gone connectionId, g)
    | None => (Gone connectionId, g)
    end
  else if bool_decide (method = "POST") then
    post_end connection connectionId body now g
  else
    (json_response 405 (MessageBody "Method Not Allowed" None), g).

(** [url.pathname.match(/^\/@connections\/(.+)$/)] *)
Definition match_connections_path (pathname : string) : option string :=
  match JsString.strip_prefix "/@connections/" pathname with
  | Some rest =>
      if bool_decide (rest = "") || JsString.has_line_terminator rest
      then None else Some rest
  | None => None
  end.

(** [handleHttpRequest] from its second statement on: [method] is
    [req.method || 'GET'] and [pathname] the [url.pathname] the URL parser
    extracted from [req.url].  The first statement, [new URL], which can
    throw, is in [Listener.handleHttpRequest] below. *)
Definition handleHttpRequest (method pathname body : string) (now : Z)
    (g : Gateway) : Completion * Gateway :=
  if bool_decide (method = "GET") && bool_decide (pathname = "/health") then
    (Normal (json_response 200 (HealthBody (size (connections g)))), g)
  else
    match match_connections_path pathname with
    | Some group =>
        match JsURI.decodeURIComponent group with
        | None => (Throw "URIError", g)
        | Some connectionId =>
            let '(res, g') :=
              handleManagementApi method connectionId body now g in
            (Normal res, g')
        end
    | None => (Normal (json_response 404 (MessageBody "Not Found" None)), g)
    end.

(* ---------------------------------------------------------------------- *)
(** *** Server lifecycle *)
(* ---------------------------------------------------------------------- *)

(** [stop], up to the closing of the two listeners.  The order in which the
    two maps are iterated is that of [map_fold]. *)
Definition stop (g : Gateway) : Gateway :=
  let g1 := map_fold (λ _ connection acc,
                        ws_close connection 1001 "Server shutting down" acc)
                     g (connections g) in
  let g2 := set_connections (λ _, ∅) g1 in
  let g3 := map_fold (λ _ timer acc, clearTimeout timer acc)
                     g2 (timeoutTimers g2) in
  set_timeoutTimers (λ _, ∅) g3.

(* ---------------------------------------------------------------------- *)
(** *** The event loop *)
(* ---------------------------------------------------------------------- *)

(** What the run time delivers to the gateway, one callback at a time. *)
Inductive Event : Type :=
| Upgrade (req : UpgradeRequest) (connectionId : string)
          (connectedAt lastActivityAt now : Z) (requestId messageId : string)
| ConnectSettled (r : nat) (outcome : FetchOutcome)
| Message (r : nat) (message : string) (activityAt now : Z)
          (requestId messageId : string)
| Close (r : nat) (code : Z) (reason : string) (now : Z)
        (requestId messageId : string)
| TimerFired (h : nat)
| Request (method pathname body : string) (now : Z)
| Stop.

Definition step (g : Gateway) (e : Event) : Gateway :=
  match e with
  | Upgrade req connectionId connectedAt lastActivityAt now requestId messageId =>
      handleConnection req connectionId connectedAt lastActivityAt now
                       requestId messageId g
  | ConnectSettled r outcome => connect_settled r outcome g
  | Message r message activityAt now requestId messageId =>
      on_message r message activityAt now requestId messageId g
  | Close r code reason now requestId messageId =>
      on_close r code reason now requestId messageId g
  | TimerFired h => timer_fired h g
  | Request method pathname body now =>
      match handleHttpRequest method pathname body now g with
      | (Normal res, g') => emit (Respond res) g'
      | (Throw error, g') => emit (Uncaught error) g'
      end
  | Stop => stop g
  end.

Definition run (events : list Event) : Gateway :=
  fold_left step events initial.

End GatewayHandlers.

(* ====================================================================== *)
(** ** The two listeners, on the requests as Node delivers them *)
(* ====================================================================== *)

(** What the gateway reads of a [URL] object. *)
Record URL : Type := {
  url_pathname : string;
  url_searchParams : list (string * string)
}.

(** What the gateway reads of an [http.IncomingMessage]. *)
Record IncomingMessage : Type := {
  msg_url : option string;
  msg_method : option string;
  msg_headers : list (string * HeaderValue);
  msg_remoteAddress : option string
}.

(** What the run time delivers, before any of it is parsed.  The chunks of
    a request body are the [Buffer]s of its ['data'] events. *)
Inductive Delivery : Type :=
| OnConnection (req : IncomingMessage) (connectionId : string)
               (connectedAt lastActivityAt now : Z)
               (requestId messageId : string)
| OnSettled (r : nat) (outcome : FetchOutcome)
| OnMessage (r : nat) (message : string) (activityAt now : Z)
            (requestId messageId : string)
| OnClose (r : nat) (code : Z) (reason : string) (now : Z)
          (requestId messageId : string)
| OnTimeout (h : nat)
| OnRequest (req : IncomingMessage) (chunks : list string) (now : Z)
| OnStop.

Module Listener.

Section Listeners.

(** [URL_parse input port] is [new URL(input, `http://localhost:${port}`)];
    [None] stands for the [TypeError] the constructor throws for an input
    it cannot parse. *)
Variable URL_parse : string -> Z -> option URL.

(** [Buffer_toString chunk] is the string that [body += chunk] appends: the
    chunk decoded as UTF-8 on its own, with U+FFFD for what is malformed in
    it. *)
Variable Buffer_toString : string -> string.

Variable JSON_parse : string -> option json.
Variable config : GatewayConfig.

(** [new URL(req.url || '/', `http://localhost:${this.config.port}`)] *)
Definition request_url (req : IncomingMessage) : option URL :=
  URL_parse (or_else (msg_url req) "/") (port config).

(** The value of [body] when the ['end'] event of the request arrives. *)
Definition received_body (chunks : list string) : string :=
  fold_left (λ body chunk, (body ++ Buffer_toString chunk)%string) chunks "".

(** [handleHttpRequest], as [http.createServer] calls it. *)
Definition handleHttpRequest (req : IncomingMessage) (chunks : list string)
    (now : Z) (g : Gateway) : Completion * Gateway :=
  match request_url req with
  | None => (Throw "TypeError", g)
  | Some url =>
      handleHttpRequest (or_else (msg_method req) "GET") (url_pathname url)
                        (received_body chunks) now g
  end.

(** The upgrade request as [handleConnection] reads it. *)
Definition upgrade_request (req : IncomingMessage) (url : URL)
  : UpgradeRequest :=
  {| req_searchParams := url_searchParams url;
     req_headers := msg_headers req;
     req_remoteAddress := msg_remoteAddress req |}.

(** What a delivery hands to the handlers of the gateway; [None] when the
    URL parser throws. *)
Definition parsed (d : Delivery) : option Event :=
  match d with
  | OnConnection req connectionId connectedAt lastActivityAt now
                 requestId messageId =>
      match request_url req with
      | Some url =>
          Some (Upgrade (upgrade_request req url) connectionId connectedAt
                        lastActivityAt now requestId messageId)
      | None => None
      end
  | OnSettled r outcome => Some (ConnectSettled r outcome)
  | OnMessage r message activityAt now requestId messageId =>
      Some (Message r message activityAt now requestId messageId)
  | OnClose r code reason now requestId messageId =>
      Some (Close r code reason now requestId messageId)
  | OnTimeout h => Some (TimerFired h)
  | OnRequest req chunks now =>
      match request_url req with
      | Some url =>
          Some (Request (or_else (msg_method req) "GET") (url_pathname url)
                        (received_body chunks) now)
      | None => None
      end
  | OnStop => Some Stop
  end.

(** [handleConnection], as the ['connection'] event of the WebSocket server
    calls it: [new URL] is its first statement, and nothing of the handler
    has run when it throws. *)
Definition handleConnection (req : IncomingMessage) (connectionId : string)
    (connectedAt lastActivityAt now : Z) (requestId messageId : string)
    (g : Gateway) : Gateway :=
  match request_url req with
  | Some url =>
      handleConnection config (upgrade_request req url) connectionId
                       connectedAt lastActivityAt now requestId messageId g
  | None => emit (Uncaught "TypeError") g
  end.

Definition step (g : Gateway) (d : Delivery) : Gateway :=
  match parsed d with
  | Some e => step JSON_parse config g e
  | None => emit (Uncaught "TypeError") g
  end.

Definition run (deliveries : list Delivery) : Gateway :=
  fold_left step deliveries initial.

End Listeners.

End Listener.

(* ====================================================================== *)
(** ** Regular expressions and the decoding of [requestTime] *)
(* ====================================================================== *)

Module Regex.

Inductive regex : Type :=
| Eps
| Chr (c : ascii)
| Digit
| Seq (r1 r2 : regex)
| Alt (r1 r2 : regex).

(** The remainders of [s] after each way of matching [r] at its head. *)
Fixpoint run (r : regex) (s : string) : list string :=
  match r with
  | Eps => [s]
  | Chr c =>
      match s with
      | String d s' => if Ascii.eqb c d then [s'] else []
      | EmptyString => []
      end
  | Digit =>
      match s with
      | String d s' => if JsString.is_digit d then [s'] else []
      | EmptyString => []
      end
  | Seq r1 r2 => flat_map (run r2) (run r1 s)
  | Alt r1 r2 => run r1 s ++ run r2 s
  end.

(** [/^r$/.test(s)] *)
Definition test (r : regex) (s : string) : bool :=
  existsb (λ rest, String.eqb rest "") (run r s).

Fixpoint lit (s : string) : regex :=
  match s with
  | EmptyString => Eps
  | String c s' => Seq (Chr c) (lit s')
  end.

Definition alt (rs : list regex) : regex :=
  match rs with
  | [] => Eps
  | r :: rs' => fold_left Alt rs' r
  end.

End Regex.

(** [^\d{2}/(Jan|Feb|...|Dec)/\d{4}:\d{2}:\d{2}:\d{2} \+0000$] *)
Definition requestTime_regex : Regex.regex :=
  let D := Regex.Digit in
  let S := Regex.Seq in
  let slash := Regex.Chr "/" in
  let colon := Regex.Chr ":" in
  S D (S D (S slash (S (Regex.alt (map Regex.lit months)) (S slash
  (S D (S D (S D (S D (S colon (S D (S D (S colon (S D (S D (S colon
  (S D (S D (Regex.lit " +0000")))))))))))))))))).

Fixpoint parse_digits (acc : Z) (s : string) : option Z :=
  match s with
  | EmptyString => Some acc
  | String c s' =>
      if JsString.is_digit c
      then parse_digits (10 * acc + JsString.digit_val c) s'
      else None
  end.

Fixpoint month_index (i : Z) (names : list string) (s : string) : option Z :=
  match names with
  | [] => None
  | n :: rest => if String.eqb n s then Some i else month_index (i + 1) rest s
  end.

(** Reading a [requestTime] as the UTC moment it writes down: the fields are
    taken from their fixed columns and handed to [Date.UTC]. *)
Definition decodeRequestTime (s : string) : option Z :=
  match parse_digits 0 (substring 0 2 s),
        month_index 0 months (substring 3 3 s),
        parse_digits 0 (substring 7 4 s),
        parse_digits 0 (substring 12 2 s),
        parse_digits 0 (substring 15 2 s),
        parse_digits 0 (substring 18 2 s) with
  | Some d, Some m, Some y, Some h, Some mi, Some se =>
      Some (JsDate.UTC y m d h mi se)
  | _, _, _, _, _, _ => None
  end.

(* ====================================================================== *)
(** ** Identifier generation *)
(* ====================================================================== *)

(** [s.charAt(pos)] for an integer [pos]: the empty string when [pos] is
    not an index of [s]. *)
Definition charAt (s : string) (pos : Z) : string :=
  if pos <? 0 then ""
  else match String.get (Z.to_nat pos) s with
       | Some c => String c ""
       | None => ""
       end.

(** [n.toString(radix)] for an integer [n] and a radix from 2 to 36. *)
Definition radix_digit (d : Z) : ascii :=
  match String.get (Z.to_nat d) "0123456789abcdefghijklmnopqrstuvwxyz" with
  | Some c => c
  | None => "0"%char
  end.

Fixpoint radix_digits (radix : Z) (fuel : nat) (n : Z) (acc : string) : string :=
  let acc' := String (radix_digit (n mod radix)) acc in
  match fuel with
  | O => acc'
  | S fuel' => if n <? radix then acc' else radix_digits radix fuel' (n / radix) acc'
  end.

Definition toString_radix (radix n : Z) : string :=
  if n <? 0 then String "-" (radix_digits radix (Z.to_nat (Z.log2 (- n))) (- n) "")
  else radix_digits radix (Z.to_nat (Z.log2 n)) n "".

Definition chars : string :=
  "ABCDEFGHIJKLMNOPQRSTUVWXYZabcdefghijklmnopqrstuvwxyz0123456789".

(** The [for] loop of [generateConnectionId] from iteration [i] on, with
    [n] iterations to go.  [draw i] is the value of
    [Math.floor(Math.random() * chars.length)] in iteration [i]. *)
Fixpoint generate_loop (draw : nat -> Z) (i n : nat) (result : string) : string :=
  match n with
  | O => result
  | S n' => generate_loop draw (S i) n' (result ++ charAt chars (draw i))%string
  end.

Definition generateConnectionId (draw : nat -> Z) : string :=
  (generate_loop draw 0 12 "" ++ "=")%string.

Definition generateMessageId (draw : nat -> Z) : string :=
  generateConnectionId draw.

(** The callback of [generateRequestId] on the matched character [c], where
    [r] is the value of [(Math.random() * 16) | 0]. *)
Definition requestId_digit (c : ascii) (r : Z) : string :=
  let v := if Ascii.eqb c "x" then r else Z.lor (Z.land r 3) 8 in
  toString_radix 16 v.

(** [template.replace(/[xy]/g, callback)]: the matches are replaced from
    left to right, the [k]-th by the result of the [k]-th call. *)
Fixpoint replace_xy (draw : nat -> Z) (k : nat) (template : string) : string :=
  match template with
  | EmptyString => EmptyString
  | String c rest =>
      if Ascii.eqb c "x" || Ascii.eqb c "y"
      then (requestId_digit c (draw k) ++ replace_xy draw (S k) rest)%string
      else String c (replace_xy draw k rest)
  end.

Definition generateRequestId (draw : nat -> Z) : string :=
  replace_xy draw 0 "xxxxxxxx-xxxx-4xxx-yxxx-xxxxxxxxxxxx".

(* ====================================================================== *)
(** ** The constructor and the connection count *)
(* ====================================================================== *)

(** A [Partial<GatewayConfig>]: each key is absent ([None]) or present with
    a value of its type. *)
Record PartialGatewayConfig : Type := {
  p_port : option Z;
  p_stage : option string;
  p_apiId : option string;
  p_domainName : option string;
  p_integrationMode : option IntegrationMode;
  p_routeSelectionExpression : option string;
  p_routes : option (gmap string RouteIntegration);
  p_idleTimeout : option Z;
  p_hardTimeout : option Z;
  p_verbose : option bool
}.

(** [{ ...defaults, ...config }] *)
Definition spread (defaults : GatewayConfig) (config : PartialGatewayConfig)
  : GatewayConfig :=
  {| port := default (port defaults) (p_port config);
     stage := default (stage defaults) (p_stage config);
     apiId := default (apiId defaults) (p_apiId config);
     domainName := default (domainName defaults) (p_domainName config);
     integrationMode :=
       default (integrationMode defaults) (p_integrationMode config);
     routeSelectionExpression :=
       match p_routeSelectionExpression config with
       | Some e => Some e
       | None => routeSelectionExpression defaults
       end;
     routes := default (routes defaults) (p_routes config);
     idleTimeout := default (idleTimeout defaults) (p_idleTimeout config);
     hardTimeout := default (hardTimeout defaults) (p_hardTimeout config);
     verbose := default (verbose defaults) (p_verbose config) |}.

Definition with_domainName (d : string) (c : GatewayConfig) : GatewayConfig :=
  {| port := port c; stage := stage c; apiId := apiId c;
     domainName := d; integrationMode := integrationMode c;
     routeSelectionExpression := routeSelectionExpression c;
     routes := routes c;
     idleTimeout := idleTimeout c; hardTimeout := hardTimeout c;
     verbose := verbose c |}.

(** The [config] field the constructor of [AWSWebSocketGateway] leaves. *)
Definition new_config (config : PartialGatewayConfig) : GatewayConfig :=
  let c := spread DEFAULT_CONFIG config in
  if bool_decide (domainName c = "")
  then with_domainName ("localhost:" ++ JsNumber.toString (port c)) c
  else c.

(** [getConnectionCount] *)
Definition getConnectionCount (g : Gateway) : nat := size (connections g).

(* ====================================================================== *)
(** * Vocabulary of the properties *)
(* ====================================================================== *)

Ltac div_lia := Z.div_mod_to_equations; lia.

(* ---------------------------------------------------------------------- *)
(** ** Digits and the layout of a [requestTime] *)
(* ---------------------------------------------------------------------- *)

Definition two_digits (n : Z) : string :=
  String (JsString.digit_char (n / 10))
    (String (JsString.digit_char (n mod 10)) "").

Definition four_digits (n : Z) : string :=
  String (JsString.digit_char (n / 1000))
    (String (JsString.digit_char (n / 100 mod 10))
       (String (JsString.digit_char (n / 10 mod 10))
          (String (JsString.digit_char (n mod 10)) ""))).

(** The layout of a [requestTime], character by character. *)
Definition layout (d1 d2 : ascii) (month : string)
    (y1 y2 y3 y4 h1 h2 m1 m2 s1 s2 : ascii) : string :=
  String d1 (String d2 (String "/" (String.append month (String "/"
  (String y1 (String y2 (String y3 (String y4 (String ":"
  (String h1 (String h2 (String ":" (String m1 (String m2 (String ":"
  (String s1 (String s2 " +0000"))))))))))))))))).

(* ---------------------------------------------------------------------- *)
(** ** Dispatches *)
(* ---------------------------------------------------------------------- *)

(** The request [callBackend] makes through an integration with URL [url]. *)
Definition post_of (config : GatewayConfig) (url : string) (routeKey : string)
    (connection : Connection) (body : option string)
    (options : option DisconnectOptions) (now : Z)
    (requestId messageId : string) : Dispatch :=
  Fetch (Some url)
    {| fetch_method := "POST";
       fetch_headers := [("Content-Type", "application/json")];
       fetch_body := buildLambdaEvent config connection routeKey
                       (getEventType routeKey) body options
                       now requestId messageId |}.

(** A call of [callBackend] in the trace. *)
Definition backend_call (e : Effect) : option (nat * string * Dispatch) :=
  match e with
  | CallBackend r routeKey _ _ d => Some (r, routeKey, d)
  | _ => None
  end.

(** The [$disconnect] call the close handler of session [r] makes: the only
    call that passes disconnect options. *)
Definition is_lifecycle_disconnect (r : nat) (e : Effect) : bool :=
  match e with
  | CallBackend r' routeKey _ (Some _) _ =>
      Nat.eqb r r' && String.eqb routeKey "$disconnect"
  | _ => false
  end.

Definition lifecycle_disconnects (r : nat) (tr : list Effect) : list Effect :=
  List.filter (is_lifecycle_disconnect r) tr.


(** The event of a POST the gateway made, with the session it was made
    for. *)
Definition posted_event (e : Effect) : option (nat * AWSWebSocketEvent) :=
  match e with
  | CallBackend r _ _ _ (Fetch (Some _) init) => Some (r, fetch_body init)
  | _ => None
  end.

(* ---------------------------------------------------------------------- *)
(** ** Sessions and timers *)
(* ---------------------------------------------------------------------- *)

(** The close event of session [r] has been handled. *)
Definition closed (g : Gateway) (r : nat) : bool :=
  match sockets g !! r with
  | Some s => match readyState s with CLOSED => true | _ => false end
  | None => false
  end.

(** The identity of session [r]. *)
Definition session_connectionId (g : Gateway) (r : nat) : string :=
  match objects g !! r with
  | Some c => conn_id c
  | None => ""
  end.

Definition idle_timer (config : GatewayConfig) (session : nat)
    (connectionId : string) : Timer :=
  {| timer_kind := Idle; timer_connectionId := connectionId;
     timer_delay := idleTimeout config * 1000; timer_session := session |}.

Definition hard_timer (config : GatewayConfig) (session : nat)
    (connectionId : string) : Timer :=
  {| timer_kind := Hard; timer_connectionId := connectionId;
     timer_delay := hardTimeout config * 1000; timer_session := session |}.

(** The hard timer a [setTimeout] in the trace scheduled. *)
Definition hard_timer_scheduled (e : Effect) : option Timer :=
  match e with
  | SetTimeout _ t =>
      match timer_kind t with Hard => Some t | Idle => None end
  | _ => None
  end.

(** The key of [timeoutTimers] a timer is registered under. *)
Definition timer_key (t : Timer) : string :=
  match timer_kind t with
  | Idle => idleKey (timer_connectionId t)
  | Hard => hardKey (timer_connectionId t)
  end.

Definition open_socket : Socket :=
  {| readyState := OPEN; sent := []; closeFrame := None |}.

Definition close_socket (s : Socket) : Socket :=
  {| readyState := CLOSED; sent := sent s; closeFrame := closeFrame s |}.

(** The state [handleConnection] hands to [setupTimeouts]. *)
Definition admitted (req : UpgradeRequest) (connectionId : string)
    (connectedAt lastActivityAt : Z) (g : Gateway) : Gateway :=
  {| connections := <[connectionId := next_ref g]> (connections g);
     timeoutTimers := timeoutTimers g;
     objects := <[next_ref g := newConnection req connectionId (next_ref g)
                                              connectedAt lastActivityAt]>
                  (objects g);
     sockets := <[next_ref g := open_socket]> (sockets g);
     timers := timers g; connecting := connecting g;
     next_ref := S (next_ref g); next_timer := next_timer g;
     trace := trace g |}.

(** The call the close handler of session [r] records. *)
Definition disconnect_call (config : GatewayConfig) (r : nat) (c : Connection)
    (code : Z) (reason : string) (now : Z) (requestId messageId : string)
  : Effect :=
  let options := {| disconnectStatusCode := code; disconnectReason := reason |} in
  CallBackend r "$disconnect" None (Some options)
    (callBackend config "$disconnect" c None (Some options)
                 now requestId messageId).

(** Whether the run time can deliver a message or close event of session
    [r]: the session exists and its close event has not been delivered. *)
Definition deliverable (g : Gateway) (r : nat) : option (Connection * Socket) :=
  match objects g !! r, sockets g !! r with
  | Some c, Some s =>
      match readyState s with
      | CLOSED => None
      | _ => Some (c, s)
      end
  | _, _ => None
  end.

(* ---------------------------------------------------------------------- *)
(** ** Kinds of steps *)
(* ---------------------------------------------------------------------- *)

Definition quiet_effect (e : Effect) : bool :=
  match e with
  | WsSend _ _ | WsClose _ _ _ | Respond _ | Uncaught _ => true
  | _ => false
  end.

(** [quiet g g']: from [g] to [g'] no session or timer was created, no
    socket reached CLOSED, no timer table entry changed, and the gateway
    only wrote to sockets and HTTP responses. *)
Record quiet (g g' : Gateway) : Prop := {
  quiet_connections : connections g' = connections g;
  quiet_timeoutTimers : timeoutTimers g' = timeoutTimers g;
  quiet_timers : forall h t, timers g' !! h = Some t -> timers g !! h = Some t;
  quiet_next_ref : next_ref g' = next_ref g;
  quiet_next_timer : next_timer g' = next_timer g;
  quiet_objects : forall r, conn_id <$> objects g' !! r = conn_id <$> objects g !! r;
  quiet_closed : forall r, closed g' r = closed g r;
  quiet_sockets : forall r, is_Some (sockets g' !! r) <-> is_Some (sockets g !! r);
  quiet_trace : exists suffix,
      trace g' = (trace g ++ suffix)%list /\ forallb quiet_effect suffix = true
}.

Definition calm_effect (e : Effect) : bool :=
  match e with
  | CallBackend _ _ _ (Some _) _ => false
  | SetTimeout _ t => match timer_kind t with Idle => true | Hard => false end
  | _ => true
  end.

(** [calm g g']: from [g] to [g'] no session was created, no socket reached
    CLOSED, no session joined the live set, and the gateway neither
    dispatched a close-time [$disconnect] nor scheduled a hard timer. *)
Record calm (g g' : Gateway) : Prop := {
  calm_connections : forall id r,
      connections g' !! id = Some r -> connections g !! id = Some r;
  calm_next_ref : next_ref g' = next_ref g;
  calm_objects : forall r, conn_id <$> objects g' !! r = conn_id <$> objects g !! r;
  calm_closed : forall r, closed g' r = closed g r;
  calm_sockets : forall r, is_Some (sockets g' !! r) <-> is_Some (sockets g !! r);
  calm_trace : exists suffix,
      trace g' = (trace g ++ suffix)%list /\ forallb calm_effect suffix = true
}.

(* ---------------------------------------------------------------------- *)
(** ** The two disciplines every reachable state obeys *)
(* ---------------------------------------------------------------------- *)

(** The timer discipline.  Pending timers have handles and sessions that
    were allocated; a timer closes over the identity of its session; a
    pending idle timer is the one registered under its key; a session has at
    most one pending hard timer; the table has no other keys than the two of
    a session, and a registered pending timer sits under its own key. *)
Record timers_ok (g : Gateway) : Prop := {
  ok_fresh : forall h t, timers g !! h = Some t -> (h < next_timer g)%nat;
  ok_owner : forall h t, timers g !! h = Some t ->
      (timer_session t < next_ref g)%nat
      /\ session_connectionId g (timer_session t) = timer_connectionId t;
  ok_idle : forall h t, timers g !! h = Some t -> timer_kind t = Idle ->
      timeoutTimers g !! idleKey (timer_connectionId t) = Some h;
  ok_hard : forall h1 h2 t1 t2,
      timers g !! h1 = Some t1 -> timers g !! h2 = Some t2 ->
      timer_kind t1 = Hard -> timer_kind t2 = Hard ->
      timer_session t1 = timer_session t2 -> h1 = h2;
  ok_keys : forall k h, timeoutTimers g !! k = Some h ->
      (h < next_timer g)%nat /\ exists id, k = idleKey id \/ k = hardKey id;
  ok_registered : forall k h t,
      timeoutTimers g !! k = Some h -> timers g !! h = Some t ->
      k = timer_key t
}.

(** The session discipline.  Sessions are numbered in the order of their
    creation; a session of the live set has its own identity as key and a
    socket whose close event has not been handled; a session has had one
    close-time [$disconnect] call if its close event has been handled and
    none otherwise; the hard timers scheduled so far are one per session. *)
Record sessions_ok (config : GatewayConfig) (g : Gateway) : Prop := {
  so_objects : forall r, is_Some (objects g !! r) <-> (r < next_ref g)%nat;
  so_sockets : forall r, is_Some (sockets g !! r) <-> (r < next_ref g)%nat;
  so_live : forall id r, connections g !! id = Some r ->
      (r < next_ref g)%nat
      /\ session_connectionId g r = id /\ closed g r = false;
  so_disconnects : forall r,
      length (lifecycle_disconnects r (trace g))
      = if closed g r then 1%nat else 0%nat;
  so_hard_log :
      omap hard_timer_scheduled (trace g)
      = map (λ r, hard_timer config r (session_connectionId g r))
            (seq 0 (next_ref g))
}.

(* ---------------------------------------------------------------------- *)
(** ** Sample inputs *)
(* ---------------------------------------------------------------------- *)

Definition sample_request : UpgradeRequest :=
  {| req_searchParams := [("token", "abc")];
     req_headers := [("host", HStr "localhost:3001"); ("user-agent", HStr "ws")];
     req_remoteAddress := Some "::ffff:127.0.0.1" |}.

Definition sample_id : string := "AbCdEfGh1234=".

Definition sample_connection : Connection :=
  newConnection sample_request sample_id 0 1000 1000.

(** A parser for runs in which no frame is JSON. *)
Definition no_json (message : string) : option json := None.

(** A session just admitted, its [$connect] call still pending. *)
Definition connected : Gateway :=
  run no_json DEFAULT_CONFIG
      [Upgrade sample_request sample_id 1000 1000 1001 "r1" "m1"].



(** The same session, accepted, after a management DELETE. *)
Definition deleted : Gateway :=
  step no_json DEFAULT_CONFIG
       (step no_json DEFAULT_CONFIG connected (ConnectSettled 0 (Responded 200)))
       (Request "DELETE" "/@connections/AbCdEfGh1234=" "" 1500).

(** A route table with the [$default] integration only. *)
Definition only_default : GatewayConfig :=
  with_routes (<["$default" := {| uri := "http://localhost:8080/ws/default" |}]> ∅)
              DEFAULT_CONFIG.

(** The default configuration with routing on the [action] member. *)
Definition by_action : GatewayConfig :=
  with_routeSelectionExpression "$request.body.action" DEFAULT_CONFIG.

(** A parser that knows one frame, [frame], whose text is the JSON object
    with the single member [action]. *)
Definition parses_action (frame action : string) (message : string)
  : option json :=
  if String.eqb message frame
  then Some (JObj [("action", JStr action)]) else None.

Definition dq : string := String (ascii_of_nat 34) "".

(** The frame text of [{ action: a }] as [JSON.stringify] writes it, for an
    [a] that needs no escaping. *)
Definition action_frame (a : string) : string :=
  ("{" ++ dq ++ "action" ++ dq ++ ":" ++ dq ++ a ++ dq ++ "}")%string.

(* ---------------------------------------------------------------------- *)
(** ** Shapes of identifiers *)
(* ---------------------------------------------------------------------- *)

Fixpoint all_chars (p : ascii -> bool) (s : string) : bool :=
  match s with
  | EmptyString => true
  | String c s' => p c && all_chars p s'
  end.

Definition char_between (lo hi c : ascii) : bool :=
  ((N_of_ascii lo <=? N_of_ascii c) && (N_of_ascii c <=? N_of_ascii hi))%N.

(** [[A-Za-z0-9]] *)
Definition is_alnum (c : ascii) : bool :=
  char_between "A" "Z" c || char_between "a" "z" c || char_between "0" "9" c.

(** [[0-9a-f]] *)
Definition is_hex (c : ascii) : bool :=
  char_between "0" "9" c || char_between "a" "f" c.

(** A string [s] fits the pattern [t] when it has the characters of [t],
    with a hexadecimal digit for every [x] and one of [8], [9], [a], [b]
    for every [y]. *)
Fixpoint fits (t s : string) : bool :=
  match t, s with
  | EmptyString, EmptyString => true
  | String tc t', String sc s' =>
      (if Ascii.eqb tc "x" then is_hex sc
       else if Ascii.eqb tc "y"
            then Ascii.eqb sc "8" || Ascii.eqb sc "9"
                 || Ascii.eqb sc "a" || Ascii.eqb sc "b"
            else Ascii.eqb tc sc)
      && fits t' s'
  | _, _ => false
  end.

(** Characters that stand for themselves in a URL path and end no line. *)
Definition plain_char (c : ascii) : bool :=
  negb (Ascii.eqb c "%") && negb (Ascii.eqb c "010") && negb (Ascii.eqb c "013")
  && negb (Ascii.eqb c "226").

(** A source of draws for the generators: the same value at every call. *)
Definition always (z : Z) (i : nat) : Z := z.

(* ---------------------------------------------------------------------- *)
(** ** Steps that call no backend *)
(* ---------------------------------------------------------------------- *)

(** [mute g g']: from [g] to [g'] the gateway made no call of [callBackend],
    and every session kept what it captured at admission; only the time of
    its last activity may have changed. *)
Record mute (g g' : Gateway) : Prop := {
  mute_objects : forall r c, objects g !! r = Some c ->
      exists c', objects g' !! r = Some c' /\ touch 0 c' = touch 0 c;
  mute_trace : exists suffix,
      trace g' = (trace g ++ suffix)%list
      /\ Forall (λ e, backend_call e = None) suffix
}.

(** A call in the trace is the call [callBackend] makes for the session of
    the calling handler. *)
Definition dispatch_ok (config : GatewayConfig) (g : Gateway) (e : Effect)
  : Prop :=
  match e with
  | CallBackend r routeKey body options d =>
      exists c c0 now requestId messageId,
        objects g !! r = Some c
        /\ touch 0 c0 = touch 0 c
        /\ d = callBackend config routeKey c0 body options now requestId messageId
  | _ => True
  end.

(* ---------------------------------------------------------------------- *)
(** ** Runs in which no identity is generated twice *)
(* ---------------------------------------------------------------------- *)

(** The identity an upgrade admits a session under. *)
Definition upgrade_id (e : Event) : option string :=
  match e with
  | Upgrade _ connectionId _ _ _ _ _ => Some connectionId
  | _ => None
  end.

(** The identities of the sessions created so far, in the order of their
    creation. *)
Definition session_ids (g : Gateway) : list string :=
  map (session_connectionId g) (seq 0 (next_ref g)).

(** Every pending timer is registered under its own key, and the close
    event of its session has not been handled. *)
Record registered (g : Gateway) : Prop := {
  reg_key : forall h t, timers g !! h = Some t ->
      timeoutTimers g !! timer_key t = Some h;
  reg_open : forall h t, timers g !! h = Some t ->
      closed g (timer_session t) = false
}.

(** The reason a timer closes its session with. *)
Definition timeout_reason (t : Timer) : string :=
  match timer_kind t with
  | Idle => "Idle timeout"
  | Hard => "Hard timeout"
  end.

(** Two sessions admitted under different identities. *)
Definition two_sessions : list Event :=
  [Upgrade sample_request "AAAAAAAAAAAA=" 1000 1000 1001 "r1" "m1";
   Upgrade sample_request "BBBBBBBBBBBB=" 2000 2000 2001 "r2" "m2"].

(* ---------------------------------------------------------------------- *)
(** ** Sockets after a close or a push *)
(* ---------------------------------------------------------------------- *)

(** A socket after [ws.close(code, reason)]. *)
Definition closing (code : Z) (reason : string) (s : Socket) : Socket :=
  match readyState s with
  | OPEN => {| readyState := CLOSING; sent := sent s;
               closeFrame := Some (code, reason) |}
  | _ => s
  end.

(** An open socket after [ws.send(data)]. *)
Definition pushed (data : string) (s : Socket) : Socket :=
  {| readyState := OPEN; sent := sent s ++ [data]; closeFrame := closeFrame s |}.

(** Whether the [$connect] POST of a session is accepted: an integration
    is configured for [$connect] or [$default], and the backend answered
    with a status from 200 to 299. *)
Definition accepted (config : GatewayConfig) (outcome : FetchOutcome) : bool :=
  match outcome with
  | Responded status =>
      bool_decide (200 <= status <= 299)
      && bool_decide (is_Some (routes config !! "$connect")
                      \/ is_Some (routes config !! "$default"))
  | Rejected => false
  end.

(* ---------------------------------------------------------------------- *)
(** ** What a session captures from its upgrade request *)
(* ---------------------------------------------------------------------- *)

(** The value of the last pair with key [k]. *)
Fixpoint last_of (k : string) (ps : list (string * string)) : option string :=
  match ps with
  | [] => None
  | (k', v) :: rest =>
      match last_of k rest with
      | Some w => Some w
      | None => if bool_decide (k' = k) then Some v else None
      end
  end.

(** The entries of [req.headers] that have a value, with the key in lower
    case and the first value of an array. *)
Definition header_pairs (hs : list (string * HeaderValue))
  : list (string * string) :=
  omap (λ '(key, value),
          match value with
          | HStr s => Some (JsString.toLowerCase key, s)
          | HArr first _ => Some (JsString.toLowerCase key, first)
          | HUndefined => None
          end) hs.

(* ---------------------------------------------------------------------- *)
(** ** What the gateway does to the outside world *)
(* ---------------------------------------------------------------------- *)

(** The close frames the gateway sends. *)
Definition close_frames : list (Z * string) :=
  [ (1000, "Closed by management API");
    (1001, "Idle timeout"); (1001, "Hard timeout");
    (1001, "Server shutting down");
    (1011, "Backend connect failed") ].

(** The three calls of [callBackend] in the source: at admission, on a
    frame, and on the close event. *)
Definition call_site (JSON_parse : string -> option json)
    (config : GatewayConfig) (routeKey : string) (body : option string)
    (options : option DisconnectOptions) : Prop :=
  (routeKey = "$connect" /\ body = None /\ options = None)
  \/ (exists message, body = Some message /\ options = None
        /\ routeKey = selectRoute JSON_parse config message)
  \/ (routeKey = "$disconnect" /\ body = None /\ is_Some options).

Definition allowed (JSON_parse : string -> option json)
    (config : GatewayConfig) (e : Effect) : Prop :=
  match e with
  | CallBackend _ routeKey body options _ =>
      call_site JSON_parse config routeKey body options
  | SetTimeout _ t =>
      timer_delay t = match timer_kind t with
                      | Idle => idleTimeout config * 1000
                      | Hard => hardTimeout config * 1000
                      end
  | WsClose _ code reason => (code, reason) ∈ close_frames
  | Respond res => res_status res ∈ [200; 204; 404; 405; 410]
  | Uncaught error => error ∈ ["TypeError"; "URIError"]
  | ClearTimeout _ | WsSend _ _ => True
  end.

(** [extends P g g']: from [g] to [g'] the trace grew by effects that
    satisfy [P]. *)
Definition extends (P : Effect -> Prop) (g g' : Gateway) : Prop :=
  exists suffix, trace g' = (trace g ++ suffix)%list /\ Forall P suffix.

(* ---------------------------------------------------------------------- *)
(** ** Open sessions and their timers *)
(* ---------------------------------------------------------------------- *)

(** The timer of kind [k] of session [r] with identity [id]. *)
Definition session_timer (config : GatewayConfig) (k : TimerKind) (r : nat)
    (id : string) : Timer :=
  match k with
  | Idle => idle_timer config r id
  | Hard => hard_timer config r id
  end.

(** Every session of the live set whose socket is open has its idle timer
    and its hard timer pending. *)
Definition covered (config : GatewayConfig) (g : Gateway) : Prop :=
  forall k id r,
    connections g !! id = Some r -> is_open g r = true ->
    exists h, timers g !! h = Some (session_timer config k r id).

(** [dims g g']: from [g] to [g'] no socket opened, and the live set and
    the pending timers stayed as they were. *)
Record dims (g g' : Gateway) : Prop := {
  dims_open : forall r, is_open g' r = true -> is_open g r = true;
  dims_connections : connections g' = connections g;
  dims_timers : timers g' = timers g
}.

(* ---------------------------------------------------------------------- *)
(** ** Percent-encoding, as the clients of the management API apply it *)
(* ---------------------------------------------------------------------- *)

(** The characters [encodeURIComponent] leaves as they are. *)
Definition unreserved (c : ascii) : bool :=
  is_alnum c
  || existsb (Ascii.eqb c) ["-"; "_"; "."; "!"; "~"; "*"; "'"; "("; ")"]%char.

Definition hex_upper (d : Z) : ascii :=
  match String.get (Z.to_nat d) "0123456789ABCDEF" with
  | Some c => c
  | None => "0"%char
  end.

(** [encodeURIComponent] on the UTF-8 octets of a string. *)
Fixpoint encodeURIComponent (s : string) : string :=
  match s with
  | EmptyString => EmptyString
  | String c s' =>
      if unreserved c then String c (encodeURIComponent s')
      else let n := Z.of_N (N_of_ascii c) in
           String "%" (String (hex_upper (n / 16)) (String (hex_upper (n mod 16))
             (encodeURIComponent s')))
  end.

Definition is_ascii (c : ascii) : bool := (N_of_ascii c <? 128)%N.

(* ---------------------------------------------------------------------- *)
(** ** Sample requests *)
(* ---------------------------------------------------------------------- *)

(** A URL parser for request targets that are paths it leaves as they
    are. *)
Definition path_as_is (input : string) (port : Z) : option URL :=
  Some {| url_pathname := input; url_searchParams := [] |}.

(** The decoding of chunks that are well-formed UTF-8. *)
Definition well_formed_chunk (chunk : string) : string := chunk.

(** A management request for [target]. *)
Definition sample_message (method target : string) : IncomingMessage :=
  {| msg_url := Some target; msg_method := Some method;
     msg_headers := [("host", HStr "localhost:3001")];
     msg_remoteAddress := Some "127.0.0.1" |}.

(** A partial configuration that gives the port only. *)
Definition port_only (p : Z) : PartialGatewayConfig :=
  {| p_port := Some p; p_stage := None; p_apiId := None;
     p_domainName := None; p_integrationMode := None;
     p_routeSelectionExpression := None; p_routes := None;
     p_idleTimeout := None; p_hardTimeout := None; p_verbose := None |}.

(* ---------------------------------------------------------------------- *)
(** ** DISCONNECT events *)
(* ---------------------------------------------------------------------- *)



(* ====================================================================== *)
(** * Properties *)
(* ====================================================================== *)

(* ---------------------------------------------------------------------- *)
(** ** The calendar *)
(* ---------------------------------------------------------------------- *)

Module DateFacts.
Import JsDate.

Lemma YearFromDay_spec d :
  DayFromYear (YearFromDay d) <= d < DayFromYear (YearFromDay d + 1).
Proof.
  unfold YearFromDay; cbv zeta.
  destruct (Z.leb_spec (DayFromYear (1970 + 400 * d / 146097 + 1)) d);
    [| destruct (Z.ltb_spec d (DayFromYear (1970 + 400 * d / 146097)))];
    unfold DayFromYear in *; div_lia.
Qed.

Lemma DayFromYear_succ y :
  DayFromYear (y + 1) = DayFromYear y + 365 + (if InLeapYear y then 1 else 0).
Proof.
  unfold DayFromYear, InLeapYear.
  destruct (Z.eqb_spec (y mod 4) 0), (Z.eqb_spec (y mod 100) 0),
    (Z.eqb_spec (y mod 400) 0); cbn [andb orb negb]; div_lia.
Qed.

Lemma DayFromYear_mono y y' : y <= y' -> DayFromYear y <= DayFromYear y'.
Proof. unfold DayFromYear. intros. div_lia. Qed.

(** [YearFromTime t] is the largest year that starts no later than [t]. *)
Lemma YearFromTime_largest t y :
  DayFromYear y <= Day t -> y <= YearFromTime t.
Proof.
  intros Hy. unfold YearFromTime.
  destruct (YearFromDay_spec (Day t)) as [_ Hlt].
  destruct (Z.le_gt_cases y (YearFromDay (Day t))) as [|Hgt]; [done|].
  assert (DayFromYear (YearFromDay (Day t) + 1) <= DayFromYear y)
    by (apply DayFromYear_mono; lia).
  lia.
Qed.

Lemma DayWithinYear_range t :
  0 <= DayWithinYear t < 365 + leap_days t.
Proof.
  unfold DayWithinYear, leap_days, YearFromTime.
  pose proof (YearFromDay_spec (Day t)) as H.
  rewrite DayFromYear_succ in H. lia.
Qed.

Lemma MonthFromTime_range t : 0 <= MonthFromTime t <= 11.
Proof.
  unfold MonthFromTime; cbv zeta.
  repeat match goal with |- context [?a <? ?b] => destruct (Z.ltb_spec a b) end; lia.
Qed.

Lemma leap_days_range t : 0 <= leap_days t <= 1.
Proof. unfold leap_days. destruct InLeapYear; lia. Qed.

Lemma DateFromTime_range t : 1 <= DateFromTime t <= 31.
Proof.
  pose proof (DayWithinYear_range t). pose proof (leap_days_range t).
  unfold DateFromTime, MonthFromTime; cbv zeta.
  repeat match goal with |- context [?a <? ?b] => destruct (Z.ltb_spec a b) end; lia.
Qed.

Lemma DateFromTime_days t :
  days_before_month (MonthFromTime t) (leap_days t) + DateFromTime t - 1
  = DayWithinYear t.
Proof.
  unfold DateFromTime; cbv zeta.
  pose proof (MonthFromTime_range t) as Hm. revert Hm.
  generalize (MonthFromTime t) as m. intros m Hm.
  assert (m = 0 \/ m = 1 \/ m = 2 \/ m = 3 \/ m = 4 \/ m = 5 \/ m = 6
          \/ m = 7 \/ m = 8 \/ m = 9 \/ m = 10 \/ m = 11) as Hcases by lia.
  repeat (destruct Hcases as [-> | Hcases]); [..| subst m];
    cbn [days_before_month]; lia.
Qed.

Lemma UTC_of_getters t :
  UTC (getUTCFullYear t) (getUTCMonth t) (getUTCDate t)
      (getUTCHours t) (getUTCMinutes t) (getUTCSeconds t)
  = 1000 * (t / 1000).
Proof.
  unfold UTC, getUTCFullYear, getUTCMonth, getUTCDate.
  pose proof (DateFromTime_days t) as H. unfold leap_days in H.
  replace (DayFromYear (YearFromTime t)
           + days_before_month (MonthFromTime t)
               (if InLeapYear (YearFromTime t) then 1 else 0)
           + DateFromTime t - 1) with (Day t)
    by (unfold DayWithinYear in H; lia).
  unfold Day, getUTCHours, getUTCMinutes, getUTCSeconds,
    msPerDay, msPerHour, msPerMinute, msPerSecond.
  div_lia.
Qed.

End DateFacts.

(* ---------------------------------------------------------------------- *)
(** ** Decimal digits and the layout of [requestTime] *)
(* ---------------------------------------------------------------------- *)

Module DigitFacts.
Import JsString JsNumber.

Lemma range_check (f : Z -> bool) (lo len : Z) :
  forallb f (seqZ lo len) = true ->
  forall n, lo <= n < lo + len -> f n = true.
Proof.
  intros Hall n Hn. rewrite forallb_forall in Hall.
  apply Hall, list_elem_of_In, elem_of_seqZ. lia.
Qed.

Lemma pad_two_digits n : 0 <= n < 100 -> pad n = two_digits n.
Proof.
  intros Hn. apply String.eqb_eq.
  apply (range_check (fun k => String.eqb (pad k) (two_digits k)) 0 100);
    [vm_compute; reflexivity | lia].
Qed.

Lemma toString_four_digits y :
  1000 <= y <= 9999 -> toString y = four_digits y.
Proof.
  intros Hy. apply String.eqb_eq.
  apply (range_check (fun k => String.eqb (toString k) (four_digits k)) 1000 9000);
    [vm_compute; reflexivity | lia].
Qed.

Lemma digit_char_spec d :
  0 <= d <= 9 ->
  is_digit (digit_char d) = true /\ digit_val (digit_char d) = d.
Proof.
  intros Hd.
  assert (is_digit (digit_char d) && (digit_val (digit_char d) =? d) = true) as H.
  { apply (range_check
             (fun k => is_digit (digit_char k) && (digit_val (digit_char k) =? k))
             0 10); [vm_compute; reflexivity | lia]. }
  apply andb_true_iff in H as [? ?%Z.eqb_eq]. done.
Qed.

End DigitFacts.

Module RequestTimeFacts.
Import JsString JsNumber DigitFacts.

Lemma run_Seq_step r1 r2 s s1 :
  Regex.run r1 s = [s1] -> Regex.run (Regex.Seq r1 r2) s = Regex.run r2 s1.
Proof. intros H. cbn [Regex.run]. rewrite H. cbn. apply app_nil_r. Qed.

Lemma run_Digit c s :
  is_digit c = true -> Regex.run Regex.Digit (String c s) = [s].
Proof. intros H. cbn. by rewrite H. Qed.

Lemma run_Chr c s : Regex.run (Regex.Chr c) (String c s) = [s].
Proof. cbn. by rewrite Ascii.eqb_refl. Qed.

Lemma run_month (i : nat) rest :
  (i < 12)%nat ->
  Regex.run (Regex.alt (map Regex.lit months))
            (String.append (nth i months "undefined") rest) = [rest].
Proof.
  intros Hi.
  do 12 (destruct i as [|i]; [reflexivity|]). lia.
Qed.

Lemma layout_test d1 d2 (i : nat) y1 y2 y3 y4 h1 h2 m1 m2 s1 s2 :
  (i < 12)%nat ->
  is_digit d1 = true -> is_digit d2 = true ->
  is_digit y1 = true -> is_digit y2 = true ->
  is_digit y3 = true -> is_digit y4 = true ->
  is_digit h1 = true -> is_digit h2 = true ->
  is_digit m1 = true -> is_digit m2 = true ->
  is_digit s1 = true -> is_digit s2 = true ->
  Regex.test requestTime_regex
    (layout d1 d2 (nth i months "undefined") y1 y2 y3 y4 h1 h2 m1 m2 s1 s2)
  = true.
Proof.
  intros Hi Hd1 Hd2 Hy1 Hy2 Hy3 Hy4 Hh1 Hh2 Hm1 Hm2 Hs1 Hs2.
  unfold Regex.test, requestTime_regex, layout; cbv zeta.
  repeat first [ erewrite run_Seq_step by (apply run_Digit; assumption)
               | erewrite run_Seq_step by apply run_Chr
               | erewrite run_Seq_step by (apply run_month; assumption) ].
  reflexivity.
Qed.

Lemma parse_two a b :
  is_digit a = true -> is_digit b = true ->
  parse_digits 0 (String a (String b "")) = Some (10 * digit_val a + digit_val b).
Proof. intros Ha Hb. cbn [parse_digits]. rewrite Ha, Hb. f_equal. Qed.

Lemma parse_four a b c d :
  is_digit a = true -> is_digit b = true ->
  is_digit c = true -> is_digit d = true ->
  parse_digits 0 (String a (String b (String c (String d ""))))
  = Some (1000 * digit_val a + 100 * digit_val b + 10 * digit_val c + digit_val d).
Proof.
  intros Ha Hb Hc Hd. cbn [parse_digits]. rewrite Ha, Hb, Hc, Hd. f_equal. lia.
Qed.

Lemma layout_decode d1 d2 (i : nat) y1 y2 y3 y4 h1 h2 m1 m2 s1 s2 :
  (i < 12)%nat ->
  is_digit d1 = true -> is_digit d2 = true ->
  is_digit y1 = true -> is_digit y2 = true ->
  is_digit y3 = true -> is_digit y4 = true ->
  is_digit h1 = true -> is_digit h2 = true ->
  is_digit m1 = true -> is_digit m2 = true ->
  is_digit s1 = true -> is_digit s2 = true ->
  decodeRequestTime
    (layout d1 d2 (nth i months "undefined") y1 y2 y3 y4 h1 h2 m1 m2 s1 s2)
  = Some (JsDate.UTC
            (1000 * digit_val y1 + 100 * digit_val y2
             + 10 * digit_val y3 + digit_val y4)
            (Z.of_nat i)
            (10 * digit_val d1 + digit_val d2)
            (10 * digit_val h1 + digit_val h2)
            (10 * digit_val m1 + digit_val m2)
            (10 * digit_val s1 + digit_val s2)).
Proof.
  intros Hi Hd1 Hd2 Hy1 Hy2 Hy3 Hy4 Hh1 Hh2 Hm1 Hm2 Hs1 Hs2.
  unfold decodeRequestTime.
  do 12 (destruct i as [|i]; [
    cbv [layout nth months String.append];
    cbn [substring month_index String.eqb Ascii.eqb Bool.eqb];
    rewrite !parse_two, parse_four by assumption; reflexivity |]).
  lia.
Qed.

End RequestTimeFacts.

Module TimeFacts.
Import JsString JsNumber JsDate DateFacts DigitFacts RequestTimeFacts.

Lemma getUTCHours_range t : 0 <= getUTCHours t < 24.
Proof. unfold getUTCHours. apply Z.mod_pos_bound. lia. Qed.

Lemma getUTCMinutes_range t : 0 <= getUTCMinutes t < 60.
Proof. unfold getUTCMinutes. apply Z.mod_pos_bound. lia. Qed.

Lemma getUTCSeconds_range t : 0 <= getUTCSeconds t < 60.
Proof. unfold getUTCSeconds. apply Z.mod_pos_bound. lia. Qed.

(** With a four-digit year the formatted time has the fixed layout. *)
Lemma formatRequestTime_layout t :
  1000 <= getUTCFullYear t <= 9999 ->
  formatRequestTime t =
  layout (digit_char (getUTCDate t / 10)) (digit_char (getUTCDate t mod 10))
         (nth (Z.to_nat (getUTCMonth t)) months "undefined")
         (digit_char (getUTCFullYear t / 1000))
         (digit_char (getUTCFullYear t / 100 mod 10))
         (digit_char (getUTCFullYear t / 10 mod 10))
         (digit_char (getUTCFullYear t mod 10))
         (digit_char (getUTCHours t / 10)) (digit_char (getUTCHours t mod 10))
         (digit_char (getUTCMinutes t / 10)) (digit_char (getUTCMinutes t mod 10))
         (digit_char (getUTCSeconds t / 10)) (digit_char (getUTCSeconds t mod 10)).
Proof.
  intros Hy. unfold formatRequestTime.
  pose proof (DateFromTime_range t). pose proof (getUTCHours_range t).
  pose proof (getUTCMinutes_range t). pose proof (getUTCSeconds_range t).
  rewrite !pad_two_digits by (unfold getUTCDate; lia).
  rewrite toString_four_digits by exact Hy.
  reflexivity.
Qed.

Lemma digits_of_small n :
  0 <= n < 100 ->
  is_digit (digit_char (n / 10)) = true
  /\ is_digit (digit_char (n mod 10)) = true
  /\ 10 * digit_val (digit_char (n / 10)) + digit_val (digit_char (n mod 10)) = n.
Proof.
  intros Hn.
  destruct (digit_char_spec (n / 10)) as [? E1]; [div_lia|].
  destruct (digit_char_spec (n mod 10)) as [? E2]; [div_lia|].
  rewrite E1, E2. repeat split; try done. div_lia.
Qed.

Lemma digits_of_year y :
  1000 <= y <= 9999 ->
  is_digit (digit_char (y / 1000)) = true
  /\ is_digit (digit_char (y / 100 mod 10)) = true
  /\ is_digit (digit_char (y / 10 mod 10)) = true
  /\ is_digit (digit_char (y mod 10)) = true
  /\ 1000 * digit_val (digit_char (y / 1000))
     + 100 * digit_val (digit_char (y / 100 mod 10))
     + 10 * digit_val (digit_char (y / 10 mod 10))
     + digit_val (digit_char (y mod 10)) = y.
Proof.
  intros Hy.
  destruct (digit_char_spec (y / 1000)) as [? E1]; [div_lia|].
  destruct (digit_char_spec (y / 100 mod 10)) as [? E2]; [div_lia|].
  destruct (digit_char_spec (y / 10 mod 10)) as [? E3]; [div_lia|].
  destruct (digit_char_spec (y mod 10)) as [? E4]; [div_lia|].
  rewrite E1, E2, E3, E4. repeat split; try done. div_lia.
Qed.

(** The format and its decoding, for a clock reading in a four-digit year. *)
Lemma formatRequestTime_spec t :
  1000 <= getUTCFullYear t <= 9999 ->
  Regex.test requestTime_regex (formatRequestTime t) = true
  /\ decodeRequestTime (formatRequestTime t) = Some (1000 * (t / 1000)).
Proof.
  intros Hy. rewrite formatRequestTime_layout by exact Hy.
  pose proof (MonthFromTime_range t) as Hm.
  assert (Z.to_nat (getUTCMonth t) < 12)%nat as Hi
    by (unfold getUTCMonth; lia).
  destruct (digits_of_small (getUTCDate t)) as (? & ? & Ed);
    [pose proof (DateFromTime_range t); unfold getUTCDate; lia|].
  destruct (digits_of_small (getUTCHours t)) as (? & ? & Eh);
    [pose proof (getUTCHours_range t); lia|].
  destruct (digits_of_small (getUTCMinutes t)) as (? & ? & Em);
    [pose proof (getUTCMinutes_range t); lia|].
  destruct (digits_of_small (getUTCSeconds t)) as (? & ? & Es);
    [pose proof (getUTCSeconds_range t); lia|].
  destruct (digits_of_year (getUTCFullYear t) Hy) as (? & ? & ? & ? & Ey).
  split.
  - by apply layout_test.
  - rewrite layout_decode by assumption.
    rewrite Ed, Eh, Em, Es, Ey, Z2Nat.id by (unfold getUTCMonth; lia).
    by rewrite UTC_of_getters.
Qed.

End TimeFacts.

(* ---------------------------------------------------------------------- *)
(** ** Route selection *)
(* ---------------------------------------------------------------------- *)

Section RouteFacts.

Variable JSON_parse : string -> option json.
Variable config : GatewayConfig.

Lemma selectRoute_unconfigured message :
  routeSelectionExpression config = None ->
  selectRoute JSON_parse config message = "$default".
Proof. intros H. unfold selectRoute. by rewrite H. Qed.

Lemma selectRoute_not_json message :
  JSON_parse message = None ->
  selectRoute JSON_parse config message = "$default".
Proof.
  intros H. unfold selectRoute. rewrite H.
  destruct (routeSelectionExpression config); [case_bool_decide|]; done.
Qed.


(** When the path leads to a string that is a configured route, that route
    is selected. *)
Lemma selectRoute_configured message expr group parsed route :
  routeSelectionExpression config = Some expr ->
  match_request_body expr = Some group ->
  JSON_parse message = Some parsed ->
  walk (JsString.split "." group) (VJson parsed) = Some (VJson (JStr route)) ->
  is_Some (routes config !! route) ->
  selectRoute JSON_parse config message = route.
Proof.
  intros He Hg Hp Hw [i Hi]. unfold selectRoute.
  rewrite He, Hp, Hg, Hw. case_bool_decide as Hempty.
  - subst expr. discriminate Hg.
  - unfold JsObject.get. by rewrite Hi.
Qed.

(** A string that is neither a configured route nor a member inherited from
    [Object.prototype] falls back to [$default]. *)
Lemma selectRoute_unknown message expr group parsed value :
  routeSelectionExpression config = Some expr ->
  match_request_body expr = Some group ->
  JSON_parse message = Some parsed ->
  walk (JsString.split "." group) (VJson parsed) = Some (VJson (JStr value)) ->
  routes config !! value = None ->
  value ∉ JsObject.Object_prototype_members ->
  selectRoute JSON_parse config message = "$default".
Proof.
  intros He Hg Hp Hw Hr Hn. unfold selectRoute.
  rewrite He, Hp, Hg, Hw. case_bool_decide; [done|].
  unfold JsObject.get, JsObject.inherits_from_Object. rewrite Hr.
  by case_bool_decide.
Qed.

End RouteFacts.

(* ---------------------------------------------------------------------- *)
(** ** Event building *)
(* ---------------------------------------------------------------------- *)

Lemma buildMultiValueHeaders_lookup (headers : gmap string string) (k : string) :
  buildMultiValueHeaders headers !! k =
  if bool_decide (k = "__proto__") then None
  else (λ v, [v]) <$> headers !! k.
Proof.
  unfold buildMultiValueHeaders.
  apply (map_fold_weak_ind
    (λ (r : gmap string (list string)) (m : gmap string string),
       r !! k = if bool_decide (k = "__proto__") then None
                else (λ v, [v]) <$> m !! k)).
  - rewrite !lookup_empty. by case_bool_decide.
  - intros i x m r Hi IH. unfold set_array.
    destruct (decide (i = "__proto__")) as [->|Hproto].
    + rewrite bool_decide_eq_true_2 by done. rewrite IH.
      case_bool_decide as Hk; [done|]. by rewrite lookup_insert_ne.
    + rewrite (bool_decide_eq_false_2 _ Hproto).
      destruct (decide (i = k)) as [->|Hne].
      * rewrite !lookup_insert_eq. by rewrite (bool_decide_eq_false_2 _ Hproto).
      * by rewrite !lookup_insert_ne.
Qed.

Lemma parseHeaders_no_proto hs : parseHeaders hs !! "__proto__" = None.
Proof.
  unfold parseHeaders.
  assert (forall acc : gmap string string,
             acc !! "__proto__" = None ->
             fold_left
               (λ headers '(key, value),
                  match value with
                  | HStr s =>
                      JsObject.set_primitive (JsString.toLowerCase key) s headers
                  | HArr first _ =>
                      JsObject.set_primitive (JsString.toLowerCase key) first headers
                  | HUndefined => headers
                  end) hs acc !! "__proto__" = None) as H.
  { induction hs as [|[k v] hs IH]; intros acc Hacc; [done|].
    cbn [fold_left]. apply IH.
    destruct v; try done; unfold JsObject.set_primitive;
      case_bool_decide; try done; by rewrite lookup_insert_ne. }
  apply H, lookup_empty.
Qed.

(** For the headers captured by [handleConnection] the multi-value headers
    have the same keys, each with the one-element array of the header. *)
Lemma multiValueHeaders_of_parsed hs k :
  buildMultiValueHeaders (parseHeaders hs) !! k
  = (λ v, [v]) <$> parseHeaders hs !! k.
Proof.
  rewrite buildMultiValueHeaders_lookup. case_bool_decide as Hk; [|done].
  subst k. by rewrite parseHeaders_no_proto.
Qed.

Lemma queryStringParameters_null config connection routeKey eventType body
    options now requestId messageId :
  ev_queryStringParameters
    (buildLambdaEvent config connection routeKey eventType body options
                      now requestId messageId)
  = if bool_decide (conn_queryParams connection = ∅) then None
    else Some (conn_queryParams connection).
Proof.
  cbn. case_bool_decide as He.
  - by rewrite He, map_size_empty.
  - apply map_size_non_empty_iff in He.
    destruct (Z.ltb_spec 0 (Z.of_nat (size (conn_queryParams connection))));
      [done | lia].
Qed.

(* ---------------------------------------------------------------------- *)
(** ** Backend communication *)
(* ---------------------------------------------------------------------- *)

(** Route resolution for a key that no object inherits: the entry of the
    key itself, else the entry of [$default], else nothing is sent. *)
Lemma callBackend_resolution config routeKey connection body options now
    requestId messageId :
  routeKey ∉ JsObject.Object_prototype_members ->
  callBackend config routeKey connection body options now requestId messageId
  = match routes config !! routeKey with
    | Some i => post_of config (uri i) routeKey connection body options
                        now requestId messageId
    | None =>
        match routes config !! "$default" with
        | Some i => post_of config (uri i) routeKey connection body options
                            now requestId messageId
        | None => NotSent
        end
    end.
Proof.
  intros Hk. unfold callBackend, integration_for, JsObject.get,
    JsObject.inherits_from_Object.
  destruct (routes config !! routeKey) as [i|]; [done|].
  rewrite (bool_decide_eq_false_2 _ Hk). cbn [JsObject.truthy].
  destruct (routes config !! "$default") as [i|]; [done|].
  by vm_compute.
Qed.

Lemma callBackend_mode_irrelevant m config routeKey connection body options
    now requestId messageId :
  callBackend (with_integrationMode m config) routeKey connection body options
              now requestId messageId
  = callBackend config routeKey connection body options now requestId messageId.
Proof. reflexivity. Qed.

(* ---------------------------------------------------------------------- *)
(** ** Keys of the timer table and state changes of the timeout functions *)
(* ---------------------------------------------------------------------- *)

Module KeyFacts.

Lemma append_cons (c : ascii) (a b : string) :
  (String c a ++ b)%string = String c (a ++ b)%string.
Proof. reflexivity. Qed.

Lemma append_nil (b : string) : ("" ++ b)%string = b.
Proof. reflexivity. Qed.

Lemma length_append (a b : string) :
  String.length (a ++ b) = (String.length a + String.length b)%nat.
Proof.
  induction a as [|c a IH]; [done|].
  rewrite append_cons. cbn [String.length]. by rewrite IH.
Qed.

Lemma append_suffix_inj (a b s s' : string) :
  String.length s = String.length s' ->
  (a ++ s = b ++ s')%string -> a = b /\ s = s'.
Proof.
  revert b. induction a as [|c a IH]; intros [|d b] Hlen Heq;
    rewrite ?append_cons, ?append_nil in Heq.
  - done.
  - apply (f_equal String.length) in Heq. cbn [String.length] in Heq.
    rewrite length_append in Heq. lia.
  - apply (f_equal String.length) in Heq. cbn [String.length] in Heq.
    rewrite length_append in Heq. lia.
  - injection Heq as -> Heq. destruct (IH b Hlen Heq) as [-> ->]. done.
Qed.

Lemma idleKey_inj a b : idleKey a = idleKey b -> a = b.
Proof. intros H. by apply append_suffix_inj in H as [? _]. Qed.

Lemma hardKey_inj a b : hardKey a = hardKey b -> a = b.
Proof. intros H. by apply append_suffix_inj in H as [? _]. Qed.

Lemma idleKey_hardKey a b : idleKey a <> hardKey b.
Proof. intros H. by apply append_suffix_inj in H as [_ ?]. Qed.

End KeyFacts.

(* ---------------------------------------------------------------------- *)
(** ** How the timeout functions change the state *)
(* ---------------------------------------------------------------------- *)

Section TimeoutFacts.

Variable config : GatewayConfig.

Lemma resetIdleTimeout_timers r id g :
  timers (resetIdleTimeout config r id g)
  = <[next_timer g := idle_timer config r id]>
      (match timeoutTimers g !! idleKey id with
       | Some h => delete h (timers g)
       | None => timers g
       end).
Proof.
  unfold resetIdleTimeout, setTimeout, clearTimeout, idle_timer.
  by destruct (timeoutTimers g !! idleKey id).
Qed.

Lemma resetIdleTimeout_timeoutTimers r id g :
  timeoutTimers (resetIdleTimeout config r id g)
  = <[idleKey id := next_timer g]> (timeoutTimers g).
Proof.
  unfold resetIdleTimeout, setTimeout, clearTimeout, idle_timer.
  by destruct (timeoutTimers g !! idleKey id).
Qed.

Lemma resetIdleTimeout_trace r id g :
  trace (resetIdleTimeout config r id g)
  = (trace g
     ++ match timeoutTimers g !! idleKey id with
        | Some h => [ClearTimeout h]
        | None => []
        end
     ++ [SetTimeout (next_timer g) (idle_timer config r id)])%list.
Proof.
  unfold resetIdleTimeout, setTimeout, clearTimeout, idle_timer.
  destruct (timeoutTimers g !! idleKey id); cbn; [|done].
  by rewrite <- app_assoc.
Qed.

Lemma resetIdleTimeout_frame r id g :
  connections (resetIdleTimeout config r id g) = connections g
  /\ objects (resetIdleTimeout config r id g) = objects g
  /\ sockets (resetIdleTimeout config r id g) = sockets g
  /\ connecting (resetIdleTimeout config r id g) = connecting g
  /\ next_ref (resetIdleTimeout config r id g) = next_ref g
  /\ next_timer (resetIdleTimeout config r id g) = S (next_timer g).
Proof.
  unfold resetIdleTimeout, setTimeout, clearTimeout.
  destruct (timeoutTimers g !! idleKey id); done.
Qed.

Lemma setupTimeouts_timers r id g :
  timers (setupTimeouts config r id g)
  = <[S (next_timer g) := hard_timer config r id]>
      (timers (resetIdleTimeout config r id g)).
Proof.
  unfold setupTimeouts, setTimeout, hard_timer. cbn -[resetIdleTimeout].
  by destruct (resetIdleTimeout_frame r id g) as (_ & _ & _ & _ & _ & ->).
Qed.

Lemma setupTimeouts_timeoutTimers r id g :
  timeoutTimers (setupTimeouts config r id g)
  = <[hardKey id := S (next_timer g)]>
      (<[idleKey id := next_timer g]> (timeoutTimers g)).
Proof.
  unfold setupTimeouts, setTimeout. cbn -[resetIdleTimeout].
  destruct (resetIdleTimeout_frame r id g) as (_ & _ & _ & _ & _ & ->).
  by rewrite resetIdleTimeout_timeoutTimers.
Qed.

Lemma setupTimeouts_trace r id g :
  trace (setupTimeouts config r id g)
  = (trace (resetIdleTimeout config r id g)
     ++ [SetTimeout (S (next_timer g)) (hard_timer config r id)])%list.
Proof.
  unfold setupTimeouts, setTimeout, hard_timer. cbn -[resetIdleTimeout].
  by destruct (resetIdleTimeout_frame r id g) as (_ & _ & _ & _ & _ & ->).
Qed.

Lemma setupTimeouts_frame r id g :
  connections (setupTimeouts config r id g) = connections g
  /\ objects (setupTimeouts config r id g) = objects g
  /\ sockets (setupTimeouts config r id g) = sockets g
  /\ connecting (setupTimeouts config r id g) = connecting g
  /\ next_ref (setupTimeouts config r id g) = next_ref g
  /\ next_timer (setupTimeouts config r id g) = S (S (next_timer g)).
Proof.
  unfold setupTimeouts, setTimeout. cbn -[resetIdleTimeout].
  destruct (resetIdleTimeout_frame r id g) as (-> & -> & -> & -> & -> & ->).
  done.
Qed.

End TimeoutFacts.

(* ---------------------------------------------------------------------- *)
(** ** Quiet steps *)
(* ---------------------------------------------------------------------- *)

Lemma quiet_refl g : quiet g g.
Proof.
  split; try done. exists []. by rewrite app_nil_r.
Qed.

Lemma quiet_trans g1 g2 g3 : quiet g1 g2 -> quiet g2 g3 -> quiet g1 g3.
Proof.
  intros H1 H2. split.
  - by rewrite (quiet_connections _ _ H2), (quiet_connections _ _ H1).
  - by rewrite (quiet_timeoutTimers _ _ H2), (quiet_timeoutTimers _ _ H1).
  - intros h t Ht. by apply (quiet_timers _ _ H1), (quiet_timers _ _ H2).
  - by rewrite (quiet_next_ref _ _ H2), (quiet_next_ref _ _ H1).
  - by rewrite (quiet_next_timer _ _ H2), (quiet_next_timer _ _ H1).
  - intros r. by rewrite (quiet_objects _ _ H2), (quiet_objects _ _ H1).
  - intros r. by rewrite (quiet_closed _ _ H2), (quiet_closed _ _ H1).
  - intros r. by rewrite (quiet_sockets _ _ H2), (quiet_sockets _ _ H1).
  - destruct (quiet_trace _ _ H1) as (s1 & E1 & F1).
    destruct (quiet_trace _ _ H2) as (s2 & E2 & F2).
    exists (s1 ++ s2)%list.
    by rewrite E2, E1, <- app_assoc, forallb_app, F1, F2.
Qed.

Lemma quiet_emit e g : quiet_effect e = true -> quiet g (emit e g).
Proof.
  intros He. split; try done. exists [e]. cbn. by rewrite He.
Qed.

Lemma closed_insert g r s s0 :
  sockets g !! r = Some s0 ->
  (match readyState s with CLOSED => true | _ => false end)
  = (match readyState s0 with CLOSED => true | _ => false end) ->
  forall r', closed (set_sockets (insert r s) g) r' = closed g r'.
Proof.
  intros Hs Heq r'. unfold closed. cbn.
  destruct (decide (r = r')) as [->|Hne].
  - by rewrite lookup_insert_eq, Hs.
  - by rewrite lookup_insert_ne.
Qed.

Lemma quiet_set_socket g r s s0 :
  sockets g !! r = Some s0 ->
  (match readyState s with CLOSED => true | _ => false end)
  = (match readyState s0 with CLOSED => true | _ => false end) ->
  quiet g (set_sockets (insert r s) g).
Proof.
  intros Hs Heq. split; try done.
  - by apply closed_insert with s0.
  - intros r'. cbn. destruct (decide (r = r')) as [->|Hne].
    + rewrite lookup_insert_eq, Hs. split; eauto.
    + by rewrite lookup_insert_ne.
  - exists []. by rewrite app_nil_r.
Qed.

Lemma quiet_ws_close r code reason g : quiet g (ws_close r code reason g).
Proof.
  unfold ws_close.
  eapply quiet_trans; [|by apply quiet_emit].
  destruct (sockets g !! r) as [s|] eqn:Hs; [|apply quiet_refl].
  destruct (readyState s) eqn:Hr; try apply quiet_refl.
  apply quiet_set_socket with s; [done|]. by rewrite Hr.
Qed.

Lemma quiet_ws_send r data g : quiet g (ws_send r data g).
Proof.
  unfold ws_send.
  eapply quiet_trans; [|by apply quiet_emit].
  destruct (sockets g !! r) as [s|] eqn:Hs; [|apply quiet_refl].
  destruct (readyState s) eqn:Hr; try apply quiet_refl.
  apply quiet_set_socket with s; [done|]. by rewrite Hr.
Qed.

Lemma quiet_set_connecting f g : quiet g (set_connecting f g).
Proof. split; try done. exists []. by rewrite app_nil_r. Qed.

Lemma quiet_touch now r g : quiet g (set_objects (alter (touch now) r) g).
Proof.
  split; try done.
  - intros r'. cbn. rewrite lookup_alter.
    case_decide; [subst|done]. by destruct (objects g !! r').
  - exists []. by rewrite app_nil_r.
Qed.

Lemma quiet_delete_timer h g : quiet g (set_timers (delete h) g).
Proof.
  split; try done.
  - intros h' t. cbn. rewrite lookup_delete_Some. tauto.
  - exists []. by rewrite app_nil_r.
Qed.

Section QuietHandlers.

Variable JSON_parse : string -> option json.
Variable config : GatewayConfig.

Lemma quiet_connect_settled r outcome g : quiet g (connect_settled r outcome g).
Proof.
  unfold connect_settled. destruct (connecting g !! r); [|apply quiet_refl].
  destruct (callBackend_result _ _).
  - apply quiet_set_connecting.
  - eapply quiet_trans; [apply quiet_set_connecting | apply quiet_ws_close].
Qed.

Lemma quiet_timer_fired h g : quiet g (timer_fired h g).
Proof.
  unfold timer_fired. destruct (timers g !! h); [|apply quiet_refl].
  destruct (connections _ !! _).
  - eapply quiet_trans; [apply quiet_delete_timer | apply quiet_ws_close].
  - apply quiet_delete_timer.
Qed.

Lemma quiet_post_end connection connectionId body now g :
  quiet g (post_end connection connectionId body now g).2.
Proof.
  unfold post_end. destruct connection as [[r c]|]; [|apply quiet_refl].
  destruct (is_open g r); [|apply quiet_refl]. cbn [snd].
  eapply quiet_trans; [apply quiet_ws_send | apply quiet_touch].
Qed.

Lemma quiet_handleManagementApi method connectionId body now g :
  quiet g (handleManagementApi method connectionId body now g).2.
Proof.
  unfold handleManagementApi.
  repeat case_bool_decide.
  - destruct (connections_get g connectionId) as [[r c]|]; apply quiet_refl.
  - destruct (connections_get g connectionId) as [[r c]|]; [|apply quiet_refl].
    destruct (is_open g r); [apply quiet_ws_close | apply quiet_refl].
  - apply quiet_post_end.
  - apply quiet_refl.
Qed.

Lemma quiet_handleHttpRequest method pathname body now g :
  quiet g (handleHttpRequest method pathname body now g).2.
Proof.
  unfold handleHttpRequest.
  destruct (_ && _); [apply quiet_refl|].
  destruct (match_connections_path pathname); [|apply quiet_refl].
  destruct (JsURI.decodeURIComponent _); [|apply quiet_refl].
  pose proof (quiet_handleManagementApi method s0 body now g) as H.
  by destruct (handleManagementApi method s0 body now g).
Qed.

Lemma quiet_request method pathname body now g :
  quiet g (step JSON_parse config g (Request method pathname body now)).
Proof.
  cbn [step].
  pose proof (quiet_handleHttpRequest method pathname body now g) as H.
  destruct (handleHttpRequest method pathname body now g) as [[res|err] g'];
    cbn [snd] in H; (eapply quiet_trans; [exact H | by apply quiet_emit]).
Qed.

(** The first loop of [stop]. *)
Lemma quiet_close_all (m : gmap string nat) g :
  quiet g (map_fold (λ _ connection acc,
                       ws_close connection 1001 "Server shutting down" acc)
                    g m).
Proof.
  apply (map_fold_weak_ind (λ acc _, quiet g acc)).
  - apply quiet_refl.
  - intros i x m' acc _ IH. eapply quiet_trans; [exact IH | apply quiet_ws_close].
Qed.

End QuietHandlers.

(* ---------------------------------------------------------------------- *)
(** ** The timer discipline *)
(* ---------------------------------------------------------------------- *)

Lemma session_connectionId_ext g g' r :
  conn_id <$> objects g' !! r = conn_id <$> objects g !! r ->
  session_connectionId g' r = session_connectionId g r.
Proof.
  unfold session_connectionId.
  destruct (objects g' !! r), (objects g !! r); cbn; congruence.
Qed.

Lemma timers_ok_initial : timers_ok initial.
Proof. split; intros *; cbn; by rewrite ?lookup_empty. Qed.

(** Dropping pending timers and creating sessions keep the discipline. *)
Lemma timers_ok_shrink g g' :
  timers_ok g ->
  (forall h t, timers g' !! h = Some t -> timers g !! h = Some t) ->
  timeoutTimers g' = timeoutTimers g ->
  (next_ref g <= next_ref g')%nat ->
  next_timer g' = next_timer g ->
  (forall r, (r < next_ref g)%nat ->
             session_connectionId g' r = session_connectionId g r) ->
  timers_ok g'.
Proof.
  intros Hok Hsub Htab Hr Ht Hobj. split.
  - intros h t H%Hsub. rewrite Ht. by eapply ok_fresh.
  - intros h t H%Hsub. destruct (ok_owner _ Hok _ _ H) as [Hlt Hid].
    rewrite Hobj by done. split; [lia | done].
  - intros h t H%Hsub. rewrite Htab. by eapply ok_idle.
  - intros h1 h2 t1 t2 H1%Hsub H2%Hsub. by eapply ok_hard.
  - intros k h. rewrite Htab, Ht. by eapply ok_keys.
  - intros k h t. rewrite Htab. intros Hk H%Hsub. by eapply ok_registered.
Qed.

(** The discipline only reads the timers, the timer table, the
    [Connection] objects and the two counters. *)
Lemma timers_ok_ext g g' :
  timers_ok g ->
  timers g' = timers g ->
  timeoutTimers g' = timeoutTimers g ->
  objects g' = objects g ->
  next_ref g' = next_ref g ->
  next_timer g' = next_timer g ->
  timers_ok g'.
Proof.
  intros Hok Ht Htab Ho Hnr Hnt. apply (timers_ok_shrink g); try done.
  - intros h t. by rewrite Ht.
  - lia.
  - intros r _. apply session_connectionId_ext. by rewrite Ho.
Qed.

Lemma timers_ok_quiet g g' : timers_ok g -> quiet g g' -> timers_ok g'.
Proof.
  intros Hok H. apply (timers_ok_shrink g); [done|..].
  - apply (quiet_timers _ _ H).
  - apply (quiet_timeoutTimers _ _ H).
  - rewrite (quiet_next_ref _ _ H). lia.
  - apply (quiet_next_timer _ _ H).
  - intros r _. apply session_connectionId_ext, (quiet_objects _ _ H).
Qed.

Section TimerDiscipline.

Variable config : GatewayConfig.

Lemma timers_ok_clearTimeout h g : timers_ok g -> timers_ok (clearTimeout h g).
Proof.
  intros Hok. eapply timers_ok_shrink; try done.
  intros h' t. cbn. rewrite lookup_delete_Some. tauto.
Qed.

Lemma clearTimeouts_timers id g h t :
  timers (clearTimeouts id g) !! h = Some t ->
  timers g !! h = Some t /\ timeoutTimers g !! idleKey id <> Some h.
Proof.
  unfold clearTimeouts, clearTimeout. cbn.
  destruct (timeoutTimers g !! idleKey id) as [hi|],
           (timeoutTimers g !! hardKey id) as [hh|]; cbn;
    rewrite ?lookup_delete_Some; intros; split; try tauto; try congruence.
  - intros [= ->]. tauto.
  - intros [= ->]. tauto.
Qed.

Lemma clearTimeouts_frame id g :
  timeoutTimers (clearTimeouts id g)
  = delete (hardKey id) (delete (idleKey id) (timeoutTimers g))
  /\ connections (clearTimeouts id g) = connections g
  /\ objects (clearTimeouts id g) = objects g
  /\ sockets (clearTimeouts id g) = sockets g
  /\ next_ref (clearTimeouts id g) = next_ref g
  /\ next_timer (clearTimeouts id g) = next_timer g.
Proof.
  unfold clearTimeouts, clearTimeout.
  by destruct (timeoutTimers g !! idleKey id), (timeoutTimers g !! hardKey id).
Qed.

Lemma timers_ok_clearTimeouts id g : timers_ok g -> timers_ok (clearTimeouts id g).
Proof.
  intros Hok.
  destruct (clearTimeouts_frame id g) as (Htab & _ & Ho & _ & Hnr & Hnt).
  split.
  - intros h t [Ht _]%clearTimeouts_timers. rewrite Hnt. by eapply ok_fresh.
  - intros h t [Ht _]%clearTimeouts_timers. rewrite Hnr.
    rewrite (session_connectionId_ext g) by (by rewrite Ho).
    by eapply ok_owner.
  - intros h t [Ht Hk]%clearTimeouts_timers Hkind. rewrite Htab.
    pose proof (ok_idle _ Hok _ _ Ht Hkind) as Hreg.
    rewrite lookup_delete_ne by apply not_eq_sym, KeyFacts.idleKey_hardKey.
    rewrite lookup_delete_ne; [done|].
    intros Heq%KeyFacts.idleKey_inj. by rewrite <- Heq in Hreg.
  - intros h1 h2 t1 t2 [H1 _]%clearTimeouts_timers [H2 _]%clearTimeouts_timers.
    by eapply ok_hard.
  - intros k h. rewrite Htab, Hnt.
    intros [_ [_ H]%lookup_delete_Some]%lookup_delete_Some.
    by eapply ok_keys.
  - intros k h t. rewrite Htab.
    intros [_ [_ H]%lookup_delete_Some]%lookup_delete_Some
           [Ht _]%clearTimeouts_timers.
    by eapply ok_registered.
Qed.

(** The second loop of [stop] cancels every registered timer. *)
Lemma clear_all_spec (m : gmap string nat) g :
  let g' := map_fold (λ _ timer acc, clearTimeout timer acc) g m in
  (forall h t, timers g' !! h = Some t ->
               timers g !! h = Some t /\ forall k, m !! k <> Some h)
  /\ timeoutTimers g' = timeoutTimers g
  /\ objects g' = objects g
  /\ next_ref g' = next_ref g
  /\ next_timer g' = next_timer g.
Proof.
  cbv zeta.
  apply (map_fold_weak_ind
    (λ acc (m : gmap string nat),
       (forall h t, timers acc !! h = Some t ->
                    timers g !! h = Some t /\ forall k, m !! k <> Some h)
       /\ timeoutTimers acc = timeoutTimers g
       /\ objects acc = objects g
       /\ next_ref acc = next_ref g
       /\ next_timer acc = next_timer g)).
  - repeat split; try done; intros k; by rewrite lookup_empty.
  - intros i x m' acc Hi (IH & ? & ? & ? & ?).
    split; [|done].
    intros h t Ht. cbn in Ht. apply lookup_delete_Some in Ht as [Hne Ht].
    apply IH in Ht as [Ht Hk]. split; [done|]. intros k.
    destruct (decide (i = k)) as [->|Hik].
    + rewrite lookup_insert_eq. congruence.
    + rewrite lookup_insert_ne by done. apply Hk.
Qed.

Lemma timers_ok_clear_all g :
  timers_ok g ->
  timers_ok (set_timeoutTimers (λ _, ∅)
               (map_fold (λ _ timer acc, clearTimeout timer acc)
                         g (timeoutTimers g))).
Proof.
  intros Hok.
  destruct (clear_all_spec (timeoutTimers g) g) as (Hsub & Htab & Ho & Hnr & Hnt).
  split; cbn.
  - intros h t [Ht _]%Hsub. rewrite Hnt. by eapply ok_fresh.
  - intros h t [Ht _]%Hsub. rewrite Hnr.
    rewrite (session_connectionId_ext g) by (cbn; by rewrite Ho).
    by eapply ok_owner.
  - intros h t [Ht Hk]%Hsub Hkind.
    by pose proof (Hk _ (ok_idle _ Hok _ _ Ht Hkind)).
  - intros h1 h2 t1 t2 [H1 _]%Hsub [H2 _]%Hsub. by eapply ok_hard.
  - intros k h. by rewrite lookup_empty.
  - intros k h t. by rewrite lookup_empty.
Qed.

Lemma timers_ok_resetIdleTimeout r id g :
  timers_ok g ->
  (r < next_ref g)%nat -> session_connectionId g r = id ->
  timers_ok (resetIdleTimeout config r id g).
Proof.
  intros Hok Hr Hid.
  destruct (resetIdleTimeout_frame config r id g) as (_ & Ho & _ & _ & Hnr & Hnt).
  assert (forall h t, h <> next_timer g ->
            timers (resetIdleTimeout config r id g) !! h = Some t ->
            timers g !! h = Some t
            /\ timeoutTimers g !! idleKey id <> Some h) as Hold.
  { intros h t Hne. rewrite resetIdleTimeout_timers, lookup_insert_ne by done.
    destruct (timeoutTimers g !! idleKey id) as [h0|] eqn:Hk.
    - rewrite lookup_delete_Some. intros [? ?]. split; congruence.
    - done. }
  assert (forall t, timers (resetIdleTimeout config r id g) !! next_timer g = Some t ->
            t = idle_timer config r id) as Hnew.
  { intros t. rewrite resetIdleTimeout_timers, lookup_insert_eq. congruence. }
  assert (forall r', session_connectionId (resetIdleTimeout config r id g) r'
                     = session_connectionId g r') as Hsid.
  { intros r'. apply session_connectionId_ext. by rewrite Ho. }
  split.
  - intros h t Ht. rewrite Hnt. destruct (decide (h = next_timer g)) as [->|Hne]; [lia|].
    apply Hold in Ht as [Ht _]; [|done]. apply (ok_fresh _ Hok) in Ht. lia.
  - intros h t Ht. rewrite Hnr, Hsid. destruct (decide (h = next_timer g)) as [->|Hne].
    + apply Hnew in Ht as ->. done.
    + apply Hold in Ht as [Ht _]; [|done]. by apply (ok_owner _ Hok) in Ht.
  - intros h t Ht Hkind. rewrite resetIdleTimeout_timeoutTimers.
    destruct (decide (h = next_timer g)) as [->|Hne].
    + apply Hnew in Ht as ->. cbn. by rewrite lookup_insert_eq.
    + apply Hold in Ht as [Ht Hk]; [|done].
      pose proof (ok_idle _ Hok _ _ Ht Hkind) as Hreg.
      rewrite lookup_insert_ne; [done|].
      intros Heq%KeyFacts.idleKey_inj. rewrite <- Heq in Hreg. done.
  - intros h1 h2 t1 t2 H1 H2 K1 K2 Hs.
    destruct (decide (h1 = next_timer g)) as [->|Hne1];
      [apply Hnew in H1 as ->; discriminate K1|].
    destruct (decide (h2 = next_timer g)) as [->|Hne2];
      [apply Hnew in H2 as ->; discriminate K2|].
    apply Hold in H1 as [H1 _]; [|done]. apply Hold in H2 as [H2 _]; [|done].
    by apply (ok_hard _ Hok _ _ _ _ H1 H2).
  - intros k h. rewrite resetIdleTimeout_timeoutTimers, Hnt.
    destruct (decide (k = idleKey id)) as [->|Hne].
    + rewrite lookup_insert_eq. intros [= <-]. split; [lia | eauto].
    + rewrite lookup_insert_ne by done.
      intros [? ?]%(ok_keys _ Hok). split; [lia | done].
  - intros k h t. rewrite resetIdleTimeout_timeoutTimers.
    destruct (decide (k = idleKey id)) as [->|Hne].
    + rewrite lookup_insert_eq. intros [= <-] Ht. by apply Hnew in Ht as ->.
    + rewrite lookup_insert_ne by done. intros Hk Ht.
      destruct (ok_keys _ Hok _ _ Hk) as [Hlt _].
      apply Hold in Ht as [Ht _]; [|lia].
      by apply (ok_registered _ Hok _ _ _ Hk).
Qed.

Lemma timers_ok_setupTimeouts r id g :
  timers_ok g ->
  (r < next_ref g)%nat -> session_connectionId g r = id ->
  (forall h t, timers g !! h = Some t -> timer_session t <> r) ->
  timers_ok (setupTimeouts config r id g).
Proof.
  intros Hok0 Hr Hid Hfresh.
  pose proof (timers_ok_resetIdleTimeout r id g Hok0 Hr Hid) as Hok.
  destruct (resetIdleTimeout_frame config r id g) as (_ & Ho' & _ & _ & Hnr' & Hnt').
  destruct (setupTimeouts_frame config r id g) as (_ & Ho & _ & _ & Hnr & Hnt).
  remember (resetIdleTimeout config r id g) as g1 eqn:Hg1.
  assert (forall h t, h <> S (next_timer g) ->
            timers (setupTimeouts config r id g) !! h = Some t ->
            timers g1 !! h = Some t) as Hold.
  { intros h t Hne. by rewrite setupTimeouts_timers, <- Hg1, lookup_insert_ne. }
  assert (forall t, timers (setupTimeouts config r id g) !! S (next_timer g) = Some t ->
            t = hard_timer config r id) as Hnew.
  { intros t. rewrite setupTimeouts_timers, lookup_insert_eq. congruence. }
  assert (forall r', session_connectionId (setupTimeouts config r id g) r'
                     = session_connectionId g1 r') as Hsid.
  { intros r'. apply session_connectionId_ext. by rewrite Ho, Ho'. }
  assert (forall h t, timers g1 !! h = Some t -> timer_kind t = Hard ->
                      timer_session t <> r) as Hfresh1.
  { intros h t Ht Hk. subst g1. rewrite resetIdleTimeout_timers in Ht.
    destruct (decide (h = next_timer g)) as [->|Hne].
    - rewrite lookup_insert_eq in Ht. by injection Ht as <-.
    - rewrite lookup_insert_ne in Ht by done.
      destruct (timeoutTimers g !! idleKey id).
      + apply lookup_delete_Some in Ht as [_ Ht]. eauto.
      + eauto. }
  split.
  - intros h t Ht. rewrite Hnt.
    destruct (decide (h = S (next_timer g))) as [->|Hne]; [lia|].
    apply Hold in Ht; [|done]. apply (ok_fresh _ Hok) in Ht. lia.
  - intros h t Ht. rewrite Hnr, Hsid, <- Hnr'.
    destruct (decide (h = S (next_timer g))) as [->|Hne].
    + apply Hnew in Ht as ->. cbn. split; [lia|].
      rewrite <- Hid. apply session_connectionId_ext. by rewrite Ho'.
    + apply Hold in Ht; [|done]. by apply (ok_owner _ Hok) in Ht.
  - intros h t Ht Hkind. rewrite setupTimeouts_timeoutTimers.
    destruct (decide (h = S (next_timer g))) as [->|Hne];
      [apply Hnew in Ht as ->; discriminate Hkind|].
    apply Hold in Ht; [|done].
    rewrite lookup_insert_ne by (apply not_eq_sym, KeyFacts.idleKey_hardKey).
    rewrite <- (resetIdleTimeout_timeoutTimers config r id g), <- Hg1.
    by apply (ok_idle _ Hok).
  - intros h1 h2 t1 t2 H1 H2 K1 K2 Hs.
    destruct (decide (h1 = S (next_timer g))) as [->|Hne1];
      destruct (decide (h2 = S (next_timer g))) as [->|Hne2]; [done|..].
    + apply Hnew in H1 as ->. apply Hold in H2; [|done].
      cbn in Hs. by pose proof (Hfresh1 _ _ H2 K2).
    + apply Hnew in H2 as ->. apply Hold in H1; [|done].
      cbn in Hs. by pose proof (Hfresh1 _ _ H1 K1).
    + apply Hold in H1; [|done]. apply Hold in H2; [|done].
      by apply (ok_hard _ Hok _ _ _ _ H1 H2).
  - intros k h. rewrite setupTimeouts_timeoutTimers, Hnt.
    destruct (decide (k = hardKey id)) as [->|Hne].
    + rewrite lookup_insert_eq. intros [= <-]. split; [lia | eauto].
    + rewrite lookup_insert_ne by done.
      rewrite <- (resetIdleTimeout_timeoutTimers config r id g), <- Hg1.
      intros [? ?]%(ok_keys _ Hok). split; [lia | done].
  - intros k h t. rewrite setupTimeouts_timeoutTimers.
    destruct (decide (k = hardKey id)) as [->|Hne].
    + rewrite lookup_insert_eq. intros [= <-] Ht. by apply Hnew in Ht as ->.
    + rewrite lookup_insert_ne by done.
      rewrite <- (resetIdleTimeout_timeoutTimers config r id g), <- Hg1.
      intros Hk Ht. destruct (ok_keys _ Hok _ _ Hk) as [Hlt _].
      apply Hold in Ht; [|lia].
      by apply (ok_registered _ Hok _ _ _ Hk).
Qed.

End TimerDiscipline.

(* ---------------------------------------------------------------------- *)
(** ** Calm steps *)
(* ---------------------------------------------------------------------- *)

Lemma calm_refl g : calm g g.
Proof. split; try done. exists []. by rewrite app_nil_r. Qed.

Lemma calm_trans g1 g2 g3 : calm g1 g2 -> calm g2 g3 -> calm g1 g3.
Proof.
  intros H1 H2. split.
  - intros id r H. by apply (calm_connections _ _ H1), (calm_connections _ _ H2).
  - by rewrite (calm_next_ref _ _ H2), (calm_next_ref _ _ H1).
  - intros r. by rewrite (calm_objects _ _ H2), (calm_objects _ _ H1).
  - intros r. by rewrite (calm_closed _ _ H2), (calm_closed _ _ H1).
  - intros r. by rewrite (calm_sockets _ _ H2), (calm_sockets _ _ H1).
  - destruct (calm_trace _ _ H1) as (s1 & E1 & F1).
    destruct (calm_trace _ _ H2) as (s2 & E2 & F2).
    exists (s1 ++ s2)%list.
    by rewrite E2, E1, <- app_assoc, forallb_app, F1, F2.
Qed.

Lemma quiet_effect_calm e : quiet_effect e = true -> calm_effect e = true.
Proof. by destruct e. Qed.

Lemma quiet_calm g g' : quiet g g' -> calm g g'.
Proof.
  intros H. split.
  - intros id r. by rewrite (quiet_connections _ _ H).
  - apply (quiet_next_ref _ _ H).
  - apply (quiet_objects _ _ H).
  - apply (quiet_closed _ _ H).
  - apply (quiet_sockets _ _ H).
  - destruct (quiet_trace _ _ H) as (s & E & F). exists s. split; [done|].
    apply forallb_forall. intros e He.
    apply quiet_effect_calm. by eapply forallb_forall in F.
Qed.

Lemma calm_emit e g : calm_effect e = true -> calm g (emit e g).
Proof. intros He. split; try done. exists [e]. cbn. by rewrite He. Qed.

Lemma calm_clearTimeout h g : calm g (clearTimeout h g).
Proof. split; try done. by exists [ClearTimeout h]. Qed.

Lemma calm_set_timeoutTimers f g : calm g (set_timeoutTimers f g).
Proof. split; try done. exists []. by rewrite app_nil_r. Qed.

Lemma calm_shrink_connections f g :
  (forall id r, f (connections g) !! id = Some r -> connections g !! id = Some r) ->
  calm g (set_connections f g).
Proof. intros Hf. split; try done. exists []. by rewrite app_nil_r. Qed.

Section CalmHandlers.

Variable JSON_parse : string -> option json.
Variable config : GatewayConfig.

Lemma calm_resetIdleTimeout r id g : calm g (resetIdleTimeout config r id g).
Proof.
  destruct (resetIdleTimeout_frame config r id g) as (Hc & Ho & Hs & _ & Hnr & _).
  split.
  - intros ? ?. by rewrite Hc.
  - done.
  - intros ?. by rewrite Ho.
  - intros r'. unfold closed. by rewrite Hs.
  - intros r'. by rewrite Hs.
  - rewrite resetIdleTimeout_trace. eexists. split; [done|].
    by destruct (timeoutTimers g !! idleKey id).
Qed.

Lemma calm_clearTimeouts id g : calm g (clearTimeouts id g).
Proof.
  unfold clearTimeouts.
  eapply calm_trans; [|apply calm_set_timeoutTimers].
  eapply calm_trans; [|apply calm_set_timeoutTimers].
  destruct (timeoutTimers g !! idleKey id), (timeoutTimers g !! hardKey id);
    repeat first [ apply calm_refl | apply calm_clearTimeout
                 | eapply calm_trans; [apply calm_clearTimeout|] ].
Qed.

Lemma calm_on_message r message activityAt now requestId messageId g :
  calm g (on_message JSON_parse config r message activityAt now
                     requestId messageId g).
Proof.
  unfold on_message.
  destruct (objects g !! r) as [c|] eqn:Hc; [|apply calm_refl].
  destruct (sockets g !! r) as [s|]; [|apply calm_refl].
  assert (calm g (set_objects (insert r (touch activityAt c)) g)) as H1.
  { split; try done.
    - intros r'. cbn. destruct (decide (r = r')) as [->|Hne].
      + by rewrite lookup_insert_eq, Hc.
      + by rewrite lookup_insert_ne.
    - exists []. by rewrite app_nil_r. }
  destruct (readyState s); try apply calm_refl;
    (eapply calm_trans; [|by apply calm_emit]);
    (eapply calm_trans; [exact H1 | apply calm_resetIdleTimeout]).
Qed.

(** The second loop of [stop]. *)
Lemma calm_clear_all (m : gmap string nat) g :
  calm g (map_fold (λ _ timer acc, clearTimeout timer acc) g m).
Proof.
  apply (map_fold_weak_ind (λ acc _, calm g acc)).
  - apply calm_refl.
  - intros i x m' acc _ IH. eapply calm_trans; [exact IH | apply calm_clearTimeout].
Qed.

Lemma calm_stop g : calm g (stop g).
Proof.
  unfold stop.
  eapply calm_trans; [|apply calm_set_timeoutTimers].
  eapply calm_trans; [|apply calm_clear_all].
  eapply calm_trans; [apply quiet_calm, quiet_close_all|].
  apply calm_shrink_connections. intros id r. by rewrite lookup_empty.
Qed.

Lemma calm_step g e :
  match e with Upgrade _ _ _ _ _ _ _ | Close _ _ _ _ _ _ => False | _ => True end ->
  calm g (step JSON_parse config g e).
Proof.
  destruct e; intros He; try done; cbn [step].
  - apply quiet_calm, quiet_connect_settled.
  - apply calm_on_message.
  - apply quiet_calm, quiet_timer_fired.
  - apply quiet_calm, (quiet_request JSON_parse config).
  - apply calm_stop.
Qed.

End CalmHandlers.

(* ---------------------------------------------------------------------- *)
(** ** The session discipline *)
(* ---------------------------------------------------------------------- *)

Section Sessions.

Variable JSON_parse : string -> option json.
Variable config : GatewayConfig.

Lemma sessions_ok_initial : sessions_ok config initial.
Proof.
  split; try done.
  - intros r. cbn. rewrite lookup_empty. split; [by intros [] | lia].
  - intros r. cbn. rewrite lookup_empty. split; [by intros [] | lia].
Qed.

Lemma calm_suffix_disconnects r suffix :
  forallb calm_effect suffix = true ->
  lifecycle_disconnects r suffix = [].
Proof.
  unfold lifecycle_disconnects.
  induction suffix as [|e s IH]; [done|]. cbn [forallb List.filter].
  intros [He Hs]%andb_true_iff. rewrite (IH Hs).
  destruct e as [? ? ? [] ?| | | | | |]; try done.
Qed.

Lemma calm_suffix_hard suffix :
  forallb calm_effect suffix = true ->
  omap hard_timer_scheduled suffix = [].
Proof.
  induction suffix as [|e s IH]; [done|]. cbn [forallb omap list_omap].
  intros [He Hs]%andb_true_iff. fold (omap hard_timer_scheduled s).
  rewrite (IH Hs).
  destruct e as [| ? t | | | | |]; try done. cbn in *.
  by destruct (timer_kind t).
Qed.

Lemma is_Some_fmap_eq {A B} (f : A -> B) (x y : option A) :
  f <$> x = f <$> y -> (is_Some x <-> is_Some y).
Proof. destruct x, y; cbn; intros; split; intros []; by eauto. Qed.

Lemma sessions_ok_calm g g' : sessions_ok config g -> calm g g' -> sessions_ok config g'.
Proof.
  intros Hok Hc.
  assert (forall r, session_connectionId g' r = session_connectionId g r) as Hsid.
  { intros r. apply session_connectionId_ext, (calm_objects _ _ Hc). }
  destruct (calm_trace _ _ Hc) as (suffix & Etr & Fs).
  split.
  - intros r. rewrite (calm_next_ref _ _ Hc), <- (so_objects _ _ Hok).
    apply is_Some_fmap_eq with conn_id, (calm_objects _ _ Hc).
  - intros r. rewrite (calm_next_ref _ _ Hc), <- (so_sockets _ _ Hok).
    apply (calm_sockets _ _ Hc).
  - intros id r H%(calm_connections _ _ Hc).
    rewrite Hsid, (calm_closed _ _ Hc), (calm_next_ref _ _ Hc).
    by apply (so_live _ _ Hok).
  - intros r. rewrite Etr, (calm_closed _ _ Hc).
    unfold lifecycle_disconnects. rewrite List.filter_app.
    fold (lifecycle_disconnects r suffix).
    rewrite (calm_suffix_disconnects r suffix Fs), app_nil_r.
    apply (so_disconnects _ _ Hok).
  - rewrite Etr, omap_app, (calm_suffix_hard suffix Fs), app_nil_r.
    rewrite (calm_next_ref _ _ Hc), (so_hard_log _ _ Hok).
    apply map_ext. intros r. by rewrite Hsid.
Qed.

(* ---------------------------------------------------------------------- *)
(** *** A new session *)
(* ---------------------------------------------------------------------- *)

Lemma handleConnection_unfold req id ca la now rid mid g :
  handleConnection config req id ca la now rid mid g
  = set_connecting
      (insert (next_ref g)
         (callBackend config "$connect"
            (newConnection req id (next_ref g) ca la) None None now rid mid))
      (emit (CallBackend (next_ref g) "$connect" None None
               (callBackend config "$connect"
                  (newConnection req id (next_ref g) ca la) None None
                  now rid mid))
            (setupTimeouts config (next_ref g) id (admitted req id ca la g))).
Proof. reflexivity. Qed.

Lemma session_connectionId_admitted req id ca la g r :
  session_connectionId (admitted req id ca la g) r
  = if decide (r = next_ref g) then id else session_connectionId g r.
Proof.
  unfold session_connectionId. cbn. case_decide as Hr.
  - subst r. by rewrite lookup_insert_eq.
  - by rewrite lookup_insert_ne.
Qed.

Lemma announce_frame f e x :
  connections (set_connecting f (emit e x)) = connections x
  /\ timeoutTimers (set_connecting f (emit e x)) = timeoutTimers x
  /\ objects (set_connecting f (emit e x)) = objects x
  /\ sockets (set_connecting f (emit e x)) = sockets x
  /\ timers (set_connecting f (emit e x)) = timers x
  /\ next_ref (set_connecting f (emit e x)) = next_ref x
  /\ next_timer (set_connecting f (emit e x)) = next_timer x
  /\ trace (set_connecting f (emit e x)) = (trace x ++ [e])%list.
Proof. done. Qed.

Lemma timers_ok_handleConnection req id ca la now rid mid g :
  timers_ok g -> sessions_ok config g ->
  timers_ok (handleConnection config req id ca la now rid mid g).
Proof.
  intros Hok Hso. rewrite handleConnection_unfold.
  assert (timers_ok (admitted req id ca la g)) as Hok0.
  { apply (timers_ok_shrink g); [done|done|done| |done|].
    - cbn [admitted next_ref]. lia.
    - intros r Hr. rewrite session_connectionId_admitted.
      case_decide; [lia | done]. }
  assert (timers_ok (setupTimeouts config (next_ref g) id (admitted req id ca la g)))
    as Hok1.
  { apply timers_ok_setupTimeouts; [done| | |].
    - cbn [admitted next_ref]. lia.
    - rewrite session_connectionId_admitted. by case_decide.
    - intros h t Ht. cbn [admitted timers] in Ht.
      apply (ok_owner _ Hok) in Ht as [? _]. lia. }
  match goal with
  | |- timers_ok (set_connecting ?f (emit ?e ?x)) =>
      destruct (announce_frame f e x) as (_ & Htab & Ho & _ & Ht & Hnr & Hnt & _);
      apply (timers_ok_shrink x); [done| | | | |]
  end.
  - intros h t. by rewrite Ht.
  - done.
  - by rewrite Hnr.
  - done.
  - intros r _. apply session_connectionId_ext. by rewrite Ho.
Qed.

Lemma closed_admitted req id ca la g r :
  sessions_ok config g -> closed (admitted req id ca la g) r = closed g r.
Proof.
  intros Hso. unfold closed. cbn [admitted sockets].
  destruct (decide (r = next_ref g)) as [->|Hne].
  - rewrite lookup_insert_eq. cbn.
    destruct (sockets g !! next_ref g) eqn:Hs; [|done].
    assert (is_Some (sockets g !! next_ref g)) as H%(so_sockets _ _ Hso) by eauto.
    lia.
  - by rewrite lookup_insert_ne.
Qed.

Lemma sessions_ok_handleConnection req id ca la now rid mid g :
  sessions_ok config g ->
  sessions_ok config (handleConnection config req id ca la now rid mid g).
Proof.
  intros Hso. rewrite handleConnection_unfold.
  match goal with
  | |- sessions_ok config (set_connecting ?f (emit ?e ?x)) =>
      destruct (announce_frame f e x) as (Hc' & _ & Ho' & Hs' & _ & Hnr' & _ & Htr');
      remember (set_connecting f (emit e x)) as g' eqn:Hg'
  end.
  destruct (setupTimeouts_frame config (next_ref g) id (admitted req id ca la g))
    as (Hc & Ho & Hs & _ & Hnr & _).
  rewrite Hc in Hc'. rewrite Ho in Ho'. rewrite Hs in Hs'. rewrite Hnr in Hnr'.
  rewrite setupTimeouts_trace, resetIdleTimeout_trace in Htr'.
  cbn [admitted connections objects sockets next_ref trace timeoutTimers] in *.
  clear Hc Ho Hs Hnr Hg'.
  assert (forall r, session_connectionId g' r
                    = if decide (r = next_ref g) then id
                      else session_connectionId g r) as Hsid.
  { intros r. rewrite <- (session_connectionId_admitted req id ca la).
    apply session_connectionId_ext. by rewrite Ho'. }
  assert (forall r, closed g' r = closed g r) as Hcl.
  { intros r. rewrite <- (closed_admitted req id ca la g r Hso).
    unfold closed. by rewrite Hs'. }
  split.
  - intros r. rewrite Ho', Hnr'.
    destruct (decide (r = next_ref g)) as [->|Hne].
    + rewrite lookup_insert_eq. split; [lia | eauto].
    + rewrite lookup_insert_ne by done. rewrite (so_objects _ _ Hso). lia.
  - intros r. rewrite Hs', Hnr'.
    destruct (decide (r = next_ref g)) as [->|Hne].
    + rewrite lookup_insert_eq. split; [lia | eauto].
    + rewrite lookup_insert_ne by done. rewrite (so_sockets _ _ Hso). lia.
  - intros id' r. rewrite Hsid, Hcl, Hc', Hnr'.
    destruct (decide (id = id')) as [->|Hne].
    + rewrite lookup_insert_eq. intros [= <-]. rewrite decide_True by done.
      split; [lia|]. split; [done|].
      unfold closed. destruct (sockets g !! next_ref g) eqn:Hsock; [|done].
      assert (is_Some (sockets g !! next_ref g)) as H%(so_sockets _ _ Hso) by eauto.
      lia.
    + rewrite lookup_insert_ne by done. intros (Hlt & Hid & Hclosed)%(so_live _ _ Hso).
      rewrite decide_False by lia. split; [lia | done].
  - intros r. rewrite Hcl, Htr'.
    unfold lifecycle_disconnects. rewrite !List.filter_app.
    destruct (timeoutTimers g !! idleKey id);
      cbn; rewrite !app_nil_r; apply (so_disconnects _ _ Hso).
  - rewrite Htr', Hnr', !omap_app.
    replace (omap hard_timer_scheduled
               match timeoutTimers g !! idleKey id with
               | Some h => [ClearTimeout h]
               | None => []
               end) with (@nil Timer)
      by (by destruct (timeoutTimers g !! idleKey id)).
    cbn [omap list_omap hard_timer_scheduled idle_timer hard_timer timer_kind app].
    rewrite !app_nil_r.
    rewrite seq_S, map_app, (so_hard_log _ _ Hso). cbn [map]. f_equal.
    + apply map_ext_in. intros r Hr%in_seq.
      rewrite Hsid. rewrite decide_False by lia. done.
    + rewrite Hsid. by rewrite decide_True.
Qed.

End Sessions.

(* ---------------------------------------------------------------------- *)
(** ** Every step keeps the two disciplines *)
(* ---------------------------------------------------------------------- *)

Section Invariant.

Variable JSON_parse : string -> option json.
Variable config : GatewayConfig.

(* ---------------------------------------------------------------------- *)
(** *** The close event *)
(* ---------------------------------------------------------------------- *)

Lemma on_close_unfold r code reason now rid mid g :
  on_close config r code reason now rid mid g
  = match deliverable g r with
    | Some (c, s) =>
        set_connections (delete (conn_id c))
          (clearTimeouts (conn_id c)
             (emit (disconnect_call config r c code reason now rid mid)
                (set_sockets (insert r (close_socket s)) g)))
    | None => g
    end.
Proof.
  unfold on_close, deliverable.
  destruct (objects g !! r), (sockets g !! r) as [s|]; try done.
  by destruct (readyState s).
Qed.

Lemma deliverable_Some g r c s :
  deliverable g r = Some (c, s) ->
  objects g !! r = Some c /\ sockets g !! r = Some s /\ closed g r = false.
Proof.
  unfold deliverable, closed.
  destruct (objects g !! r), (sockets g !! r) as [s'|]; try done.
  destruct (readyState s') eqn:Hr; intros [= <- <-]; by rewrite ?Hr.
Qed.

Lemma timers_ok_on_close r code reason now rid mid g :
  timers_ok g -> timers_ok (on_close config r code reason now rid mid g).
Proof.
  intros Hok. rewrite on_close_unfold.
  destruct (deliverable g r) as [[c s]|]; [|done].
  match goal with
  | |- timers_ok (set_connections _ ?x) => apply (timers_ok_ext x); [|done..]
  end.
  apply timers_ok_clearTimeouts. by apply (timers_ok_ext g).
Qed.

Lemma sessions_ok_on_close r code reason now rid mid g :
  sessions_ok config g ->
  sessions_ok config (on_close config r code reason now rid mid g).
Proof.
  intros Hso. rewrite on_close_unfold.
  destruct (deliverable g r) as [[c s]|] eqn:Hd; [|done].
  apply deliverable_Some in Hd as (Hobj & Hsock & Hopen).
  set (e := disconnect_call config r c code reason now rid mid).
  set (g1 := emit e (set_sockets (insert r (close_socket s)) g)).
  assert (sessions_ok config (set_connections (delete (conn_id c)) g1)) as Hso1.
  { assert (forall r', closed g1 r' = if decide (r' = r) then true else closed g r')
      as Hcl.
    { intros r'. unfold closed. cbn. case_decide as Hr.
      - subst r'. by rewrite lookup_insert_eq.
      - by rewrite lookup_insert_ne. }
    split.
    - apply (so_objects _ _ Hso).
    - intros r'. cbn. rewrite <- (so_sockets _ _ Hso).
      destruct (decide (r = r')) as [->|Hne].
      + rewrite lookup_insert_eq, Hsock. split; eauto.
      + by rewrite lookup_insert_ne.
    - intros id r'. cbn -[closed].
      intros [Hid Hlive]%lookup_delete_Some.
      destruct (so_live _ _ Hso _ _ Hlive) as (Hlt & Hsid & Hclosed).
      split; [done|]. split; [done|].
      change (closed g1 r' = false). rewrite Hcl.
      case_decide as Hr; [|done]. subst r'.
      unfold session_connectionId in Hsid. rewrite Hobj in Hsid. done.
    - intros r'. change (closed (set_connections (delete (conn_id c)) g1) r')
        with (closed g1 r'). rewrite Hcl. cbn.
      unfold lifecycle_disconnects. rewrite List.filter_app. cbn.
      rewrite length_app.
      fold (lifecycle_disconnects r' (trace g)). rewrite (so_disconnects _ _ Hso).
      destruct (decide (r' = r)) as [->|Hne].
      + rewrite Hopen, Nat.eqb_refl. done.
      + rewrite (proj2 (Nat.eqb_neq r' r) Hne). cbn. lia.
    - cbn. rewrite omap_app. cbn. rewrite app_nil_r. apply (so_hard_log _ _ Hso). }
  eapply sessions_ok_calm; [exact Hso1|].
  destruct (clearTimeouts_frame (conn_id c) g1) as (_ & Hc & Ho & Hs & Hnr & _).
  destruct (calm_trace _ _ (calm_clearTimeouts (conn_id c) g1)) as (sfx & E & F).
  split; cbn [set_connections connections objects sockets next_ref trace].
  - intros id r'. by rewrite Hc.
  - done.
  - intros r'. by rewrite Ho.
  - intros r'. unfold closed.
    cbn [set_connections connections objects sockets next_ref trace].
    by rewrite Hs.
  - intros r'. by rewrite Hs.
  - by exists sfx.
Qed.

(* ---------------------------------------------------------------------- *)
(** *** An inbound frame and shutdown *)
(* ---------------------------------------------------------------------- *)

Lemma timers_ok_on_message r message activityAt now rid mid g :
  timers_ok g -> sessions_ok config g ->
  timers_ok (on_message JSON_parse config r message activityAt now rid mid g).
Proof.
  intros Hok Hso. unfold on_message.
  destruct (objects g !! r) as [c|] eqn:Hc; [|done].
  destruct (sockets g !! r) as [s|]; [|done].
  assert (r < next_ref g)%nat as Hr by (apply (so_objects _ _ Hso); eauto).
  assert (timers_ok
            (resetIdleTimeout config r (conn_id c)
               (set_objects (insert r (touch activityAt c)) g))) as H1.
  { apply timers_ok_resetIdleTimeout; [|done|].
    - apply (timers_ok_shrink g); try done.
      intros r' _. apply session_connectionId_ext. cbn.
      destruct (decide (r = r')) as [->|Hne].
      + by rewrite lookup_insert_eq, Hc.
      + by rewrite lookup_insert_ne.
    - unfold session_connectionId. cbn. by rewrite lookup_insert_eq. }
  destruct (readyState s); try done;
    match goal with
    | |- timers_ok (emit _ ?x) => by apply (timers_ok_ext x)
    end.
Qed.

Lemma timers_ok_stop g : timers_ok g -> timers_ok (stop g).
Proof.
  intros Hok. unfold stop.
  set (g1 := map_fold _ g (connections g)).
  assert (timers_ok (set_connections (λ _, ∅) g1)) as H1.
  { apply (timers_ok_ext g1); try done.
    apply (timers_ok_quiet g); [done|]. apply quiet_close_all. }
  apply (timers_ok_clear_all _ H1).
Qed.

(* ---------------------------------------------------------------------- *)
(** *** Every reachable state *)
(* ---------------------------------------------------------------------- *)

Lemma step_preserves g e :
  timers_ok g /\ sessions_ok config g ->
  timers_ok (step JSON_parse config g e)
  /\ sessions_ok config (step JSON_parse config g e).
Proof.
  intros [Hok Hso]. split.
  - destruct e; cbn [step].
    + by apply timers_ok_handleConnection.
    + apply (timers_ok_quiet g); [done | apply quiet_connect_settled].
    + by apply timers_ok_on_message.
    + by apply timers_ok_on_close.
    + apply (timers_ok_quiet g); [done | apply quiet_timer_fired].
    + apply (timers_ok_quiet g); [done | apply (quiet_request JSON_parse config)].
    + by apply timers_ok_stop.
  - destruct e; try (apply (sessions_ok_calm config g); [done|];
                     by apply calm_step).
    + by apply sessions_ok_handleConnection.
    + by apply sessions_ok_on_close.
Qed.

Lemma run_from_preserves events g :
  timers_ok g /\ sessions_ok config g ->
  timers_ok (fold_left (step JSON_parse config) events g)
  /\ sessions_ok config (fold_left (step JSON_parse config) events g).
Proof.
  revert g. induction events as [|e events IH]; intros g Hg; [done|].
  cbn [fold_left]. by apply IH, step_preserves.
Qed.

Lemma run_ok events :
  timers_ok (run JSON_parse config events)
  /\ sessions_ok config (run JSON_parse config events).
Proof.
  apply run_from_preserves. split.
  - apply timers_ok_initial.
  - apply sessions_ok_initial.
Qed.

End Invariant.

(* ---------------------------------------------------------------------- *)
(** ** Where the gateway calls the backend *)
(* ---------------------------------------------------------------------- *)





(* ---------------------------------------------------------------------- *)
(** ** Management requests leave the timers alone *)
(* ---------------------------------------------------------------------- *)

Lemma ws_close_timers r code reason g :
  timers (ws_close r code reason g) = timers g
  /\ timeoutTimers (ws_close r code reason g) = timeoutTimers g.
Proof.
  unfold ws_close. destruct (sockets g !! r) as [s|]; [|done].
  by destruct (readyState s).
Qed.

Lemma ws_send_timers r data g :
  timers (ws_send r data g) = timers g
  /\ timeoutTimers (ws_send r data g) = timeoutTimers g.
Proof.
  unfold ws_send. destruct (sockets g !! r) as [s|]; [|done].
  by destruct (readyState s).
Qed.

Lemma handleManagementApi_timers method connectionId body now g :
  timers (handleManagementApi method connectionId body now g).2 = timers g
  /\ timeoutTimers (handleManagementApi method connectionId body now g).2
     = timeoutTimers g.
Proof.
  unfold handleManagementApi, post_end.
  repeat case_bool_decide;
    destruct (connections_get g connectionId) as [[r c]|]; try done;
    destruct (is_open g r); try done; cbn [snd set_objects timers timeoutTimers].
  - apply ws_close_timers.
  - apply ws_send_timers.
Qed.

Lemma handleHttpRequest_timers method pathname body now g :
  timers (handleHttpRequest method pathname body now g).2 = timers g
  /\ timeoutTimers (handleHttpRequest method pathname body now g).2
     = timeoutTimers g.
Proof.
  unfold handleHttpRequest.
  destruct (_ && _); [done|].
  destruct (match_connections_path pathname); [|done].
  destruct (JsURI.decodeURIComponent _) as [connectionId|]; [|done].
  pose proof (handleManagementApi_timers method connectionId body now g) as H.
  by destruct (handleManagementApi method connectionId body now g).
Qed.

Section Activity.

Variable JSON_parse : string -> option json.
Variable config : GatewayConfig.

Lemma request_timers method pathname body now g :
  timers (step JSON_parse config g (Request method pathname body now)) = timers g
  /\ timeoutTimers (step JSON_parse config g (Request method pathname body now))
     = timeoutTimers g.
Proof.
  cbn [step].
  pose proof (handleHttpRequest_timers method pathname body now g) as H.
  by destruct (handleHttpRequest method pathname body now g) as [[res|err] g'].
Qed.

(** An inbound frame cancels no pending hard timer and leaves the hard
    entries of the table as they are. *)
Lemma on_message_hard r message activityAt now rid mid g :
  timers_ok g ->
  (forall h t, timers g !! h = Some t -> timer_kind t = Hard ->
      timers (on_message JSON_parse config r message activityAt now rid mid g)
        !! h = Some t)
  /\ (forall id,
      timeoutTimers (on_message JSON_parse config r message activityAt now
                                rid mid g) !! hardKey id
      = timeoutTimers g !! hardKey id).
Proof.
  intros Hok. unfold on_message.
  destruct (objects g !! r) as [c|]; [|done].
  destruct (sockets g !! r) as [s|]; [|done].
  set (g1 := set_objects (insert r (touch activityAt c)) g).
  assert ((forall h t, timers g !! h = Some t -> timer_kind t = Hard ->
             timers (resetIdleTimeout config r (conn_id c) g1) !! h = Some t)
          /\ (forall id,
                timeoutTimers (resetIdleTimeout config r (conn_id c) g1)
                  !! hardKey id = timeoutTimers g !! hardKey id)) as H.
  { split.
    - intros h t Ht Hkind. rewrite resetIdleTimeout_timers.
      cbn [g1 set_objects next_timer timeoutTimers timers].
      rewrite lookup_insert_ne
        by (apply (ok_fresh _ Hok) in Ht; lia).
      destruct (timeoutTimers g !! idleKey (conn_id c)) as [h0|] eqn:Hk; [|done].
      rewrite lookup_delete_ne; [done|]. intros <-.
      pose proof (ok_registered _ Hok _ _ _ Hk Ht) as Hkey.
      unfold timer_key in Hkey. rewrite Hkind in Hkey.
      by apply KeyFacts.idleKey_hardKey in Hkey.
    - intros id. rewrite resetIdleTimeout_timeoutTimers.
      by rewrite lookup_insert_ne by apply KeyFacts.idleKey_hardKey. }
  by destruct (readyState s).
Qed.

End Activity.

(* ---------------------------------------------------------------------- *)
(** ** Identifier generation *)
(* ---------------------------------------------------------------------- *)

Module GeneratorFacts.
Import KeyFacts.

Lemma all_chars_app p a b :
  all_chars p (a ++ b) = all_chars p a && all_chars p b.
Proof.
  induction a as [|c a IH]; [done|].
  rewrite append_cons. cbn [all_chars]. by rewrite IH, andb_assoc.
Qed.

Lemma all_chars_impl (p q : ascii -> bool) s :
  (forall c, p c = true -> q c = true) ->
  all_chars p s = true -> all_chars q s = true.
Proof.
  intros Hpq. induction s as [|c s IH]; [done|]. cbn [all_chars].
  intros [Hc Hs]%andb_true_iff. by rewrite (Hpq _ Hc), IH.
Qed.

Lemma append_assoc (a b c : string) : ((a ++ b) ++ c = a ++ (b ++ c))%string.
Proof.
  induction a as [|x a IH]; [by rewrite !append_nil|].
  by rewrite !append_cons, IH.
Qed.

Lemma append_empty_r (a : string) : (a ++ "")%string = a.
Proof. induction a as [|x a IH]; [done|]. by rewrite append_cons, IH. Qed.

Lemma charAt_chars z :
  0 <= z < 62 ->
  exists c, charAt chars z = String c "" /\ is_alnum c = true.
Proof.
  intros Hz.
  assert (match charAt chars z with
          | String c EmptyString => is_alnum c
          | _ => false
          end = true) as H.
  { apply (DigitFacts.range_check
             (fun k => match charAt chars k with
                       | String c EmptyString => is_alnum c
                       | _ => false
                       end) 0 62); [vm_compute; reflexivity | lia]. }
  destruct (charAt chars z) as [|c [|]]; try done. by exists c.
Qed.

Lemma generate_loop_spec draw n : forall i result,
  (forall j, (i <= j < i + n)%nat -> 0 <= draw j < 62) ->
  exists s, generate_loop draw i n result = (result ++ s)%string
            /\ String.length s = n /\ all_chars is_alnum s = true.
Proof.
  induction n as [|n IH]; intros i result Hdraw.
  - exists "". by rewrite append_empty_r.
  - cbn [generate_loop].
    destruct (charAt_chars (draw i)) as (c & -> & Hc); [apply Hdraw; lia|].
    destruct (IH (S i) (result ++ String c "")%string) as (s & -> & Hlen & Hs).
    { intros j Hj. apply Hdraw. lia. }
    exists (String c s). rewrite append_assoc, append_cons, append_nil.
    cbn [String.length all_chars]. by rewrite Hlen, Hc, Hs.
Qed.

Lemma generateConnectionId_spec draw :
  (forall i, (i < 12)%nat -> 0 <= draw i < 62) ->
  exists s, generateConnectionId draw = (s ++ "=")%string
            /\ String.length s = 12%nat /\ all_chars is_alnum s = true.
Proof.
  intros Hdraw. unfold generateConnectionId.
  destruct (generate_loop_spec draw 12 0 "") as (s & -> & Hlen & Hs).
  { intros j Hj. apply Hdraw. lia. }
  exists s. by rewrite append_nil.
Qed.

Lemma substring_app_l (a b : string) :
  substring 0 (String.length a) (a ++ b) = a.
Proof.
  induction a as [|c a IH]; [by destruct b|].
  rewrite append_cons. cbn [String.length substring]. by rewrite IH.
Qed.

Lemma substring_app_r (a b : string) :
  substring (String.length a) (String.length b) (a ++ b) = b.
Proof.
  induction a as [|c a IH].
  - rewrite append_nil. cbn [String.length].
    induction b as [|c b IH]; [done|]. cbn [String.length substring]. by rewrite IH.
  - rewrite append_cons. cbn [String.length substring]. apply IH.
Qed.

Lemma requestId_digit_x r :
  0 <= r < 16 ->
  exists c, requestId_digit "x" r = String c "" /\ is_hex c = true.
Proof.
  intros Hr.
  assert (match requestId_digit "x" r with
          | String c EmptyString => is_hex c
          | _ => false
          end = true) as H.
  { apply (DigitFacts.range_check
             (fun k => match requestId_digit "x" k with
                       | String c EmptyString => is_hex c
                       | _ => false
                       end) 0 16); [vm_compute; reflexivity | lia]. }
  destruct (requestId_digit "x" r) as [|c [|]]; try done. by exists c.
Qed.

Lemma requestId_digit_y r :
  0 <= r < 16 ->
  exists c, requestId_digit "y" r = String c ""
            /\ Ascii.eqb c "8" || Ascii.eqb c "9"
               || Ascii.eqb c "a" || Ascii.eqb c "b" = true.
Proof.
  intros Hr.
  assert (match requestId_digit "y" r with
          | String c EmptyString =>
              Ascii.eqb c "8" || Ascii.eqb c "9" || Ascii.eqb c "a" || Ascii.eqb c "b"
          | _ => false
          end = true) as H.
  { apply (DigitFacts.range_check
             (fun k => match requestId_digit "y" k with
                       | String c EmptyString =>
                           Ascii.eqb c "8" || Ascii.eqb c "9"
                           || Ascii.eqb c "a" || Ascii.eqb c "b"
                       | _ => false
                       end) 0 16); [vm_compute; reflexivity | lia]. }
  destruct (requestId_digit "y" r) as [|c [|]]; try done. by exists c.
Qed.

Lemma replace_xy_fits draw template : forall k,
  (forall j, 0 <= draw j < 16) ->
  fits template (replace_xy draw k template) = true
  /\ String.length (replace_xy draw k template) = String.length template.
Proof.
  induction template as [|c t IH]; intros k Hdraw; [done|].
  cbn [replace_xy fits].
  destruct (Ascii.eqb c "x") eqn:Hx.
  - apply Ascii.eqb_eq in Hx as ->. cbn [orb].
    destruct (requestId_digit_x (draw k)) as (d & -> & Hd); [apply Hdraw|].
    rewrite append_cons, append_nil. cbn [String.length].
    destruct (IH (S k) Hdraw) as [-> ->]. by rewrite Hd.
  - cbn [orb]. destruct (Ascii.eqb c "y") eqn:Hy.
    + apply Ascii.eqb_eq in Hy as ->.
      destruct (requestId_digit_y (draw k)) as (d & -> & Hd); [apply Hdraw|].
      rewrite append_cons, append_nil. cbn [String.length].
      destruct (IH (S k) Hdraw) as [-> ->]. by rewrite Hd.
    + cbn [String.length]. destruct (IH k Hdraw) as [-> ->].
      by rewrite Ascii.eqb_refl.
Qed.

(** Plain strings pass through the path pattern and the decoder as they
    are. *)
Lemma strip_prefix_app p s : JsString.strip_prefix p (p ++ s) = Some s.
Proof.
  induction p as [|c p IH]; [by rewrite append_nil|].
  rewrite append_cons. cbn [JsString.strip_prefix]. by rewrite Ascii.eqb_refl.
Qed.

Lemma plain_no_line_terminator s :
  all_chars plain_char s = true -> JsString.has_line_terminator s = false.
Proof.
  induction s as [|c s IH]; [done|]. cbn [all_chars].
  intros [Hc Hs]%andb_true_iff. unfold plain_char in Hc.
  apply andb_true_iff in Hc as [Hc H226].
  apply andb_true_iff in Hc as [Hc H13].
  apply andb_true_iff in Hc as [_ H10].
  apply negb_true_iff in H226, H13, H10.
  cbn [JsString.has_line_terminator JsString.strip_prefix].
  rewrite H10, H13. cbn [orb].
  rewrite (Ascii.eqb_sym "226" c), H226. by apply IH.
Qed.

Lemma decode_plain s : forall fuel,
  (String.length s <= fuel)%nat ->
  all_chars plain_char s = true ->
  JsURI.decode fuel s = Some s.
Proof.
  induction s as [|c s IH]; intros fuel Hfuel Hs.
  - by destruct fuel.
  - destruct fuel as [|fuel]; [cbn in Hfuel; lia|].
    cbn [all_chars] in Hs. apply andb_true_iff in Hs as [Hc Hs].
    assert (c <> "%"%char) as Hne.
    { intros ->. by vm_compute in Hc. }
    cbn [JsURI.decode].
    rewrite (IH fuel); [|cbn in Hfuel; lia|done].
    destruct c as [[] [] [] [] [] [] [] []]; try done.
Qed.

Lemma decodeURIComponent_plain s :
  all_chars plain_char s = true -> JsURI.decodeURIComponent s = Some s.
Proof. intros Hs. by apply decode_plain. Qed.

Lemma alnum_plain c : is_alnum c = true -> plain_char c = true.
Proof. destruct c as [[] [] [] [] [] [] [] []]; by vm_compute. Qed.

Lemma connections_path_plain s :
  s <> "" -> all_chars plain_char s = true ->
  match_connections_path ("/@connections/" ++ s) = Some s
  /\ JsURI.decodeURIComponent s = Some s.
Proof.
  intros Hne Hs. split; [|by apply decodeURIComponent_plain].
  unfold match_connections_path. rewrite strip_prefix_app.
  rewrite bool_decide_eq_false_2 by done.
  by rewrite plain_no_line_terminator.
Qed.

End GeneratorFacts.

(* ---------------------------------------------------------------------- *)
(** ** Steps that call no backend *)
(* ---------------------------------------------------------------------- *)

Lemma set_connections_frame f x :
  connections (set_connections f x) = f (connections x)
  /\ timeoutTimers (set_connections f x) = timeoutTimers x
  /\ objects (set_connections f x) = objects x
  /\ sockets (set_connections f x) = sockets x
  /\ timers (set_connections f x) = timers x
  /\ next_ref (set_connections f x) = next_ref x
  /\ next_timer (set_connections f x) = next_timer x
  /\ trace (set_connections f x) = trace x.
Proof. done. Qed.

Lemma connecting_announce f e x :
  connecting (set_connecting f (emit e x)) = f (connecting x).
Proof. done. Qed.

Lemma mute_refl g : mute g g.
Proof.
  split; [intros r c H; by exists c|]. exists []. by rewrite app_nil_r.
Qed.

Lemma mute_trans g1 g2 g3 : mute g1 g2 -> mute g2 g3 -> mute g1 g3.
Proof.
  intros H1 H2. split.
  - intros r c Hc.
    destruct (mute_objects _ _ H1 r c Hc) as (c' & Hc' & E1).
    destruct (mute_objects _ _ H2 r c' Hc') as (c'' & Hc'' & E2).
    exists c''. split; [done|]. by rewrite E2.
  - destruct (mute_trace _ _ H1) as (s1 & E1 & F1).
    destruct (mute_trace _ _ H2) as (s2 & E2 & F2).
    exists (s1 ++ s2)%list. rewrite E2, E1, <- app_assoc.
    split; [done|]. by apply Forall_app.
Qed.

(** A step that leaves the session objects and the trace alone. *)
Lemma mute_frame g g' :
  objects g' = objects g -> trace g' = trace g -> mute g g'.
Proof.
  intros Ho Ht. split.
  - intros r c H. exists c. by rewrite Ho.
  - exists []. by rewrite Ht, app_nil_r.
Qed.

Lemma mute_set_connecting f g : mute g (set_connecting f g).
Proof. by apply mute_frame. Qed.

Lemma mute_set_connections f g : mute g (set_connections f g).
Proof. by apply mute_frame. Qed.

Lemma mute_set_sockets f g : mute g (set_sockets f g).
Proof. by apply mute_frame. Qed.

Lemma mute_emit e g : backend_call e = None -> mute g (emit e g).
Proof.
  intros He. split; [intros r c H; by exists c|].
  exists [e]. split; [done|]. by constructor.
Qed.

Lemma mute_ws_close r code reason g : mute g (ws_close r code reason g).
Proof.
  unfold ws_close. eapply mute_trans; [|by apply mute_emit].
  destruct (sockets g !! r) as [s|]; [|apply mute_refl].
  destruct (readyState s); try apply mute_refl. by apply mute_frame.
Qed.

Lemma mute_ws_send r data g : mute g (ws_send r data g).
Proof.
  unfold ws_send. eapply mute_trans; [|by apply mute_emit].
  destruct (sockets g !! r) as [s|]; [|apply mute_refl].
  destruct (readyState s); try apply mute_refl. by apply mute_frame.
Qed.

Lemma mute_clearTimeout h g : mute g (clearTimeout h g).
Proof.
  unfold clearTimeout. eapply mute_trans; [|by apply mute_emit].
  by apply mute_frame.
Qed.

Lemma mute_setTimeout t g : mute g (setTimeout t g).2.
Proof.
  unfold setTimeout. cbn [snd]. eapply mute_trans; [|by apply mute_emit].
  by apply mute_frame.
Qed.

Lemma mute_touch now r g : mute g (set_objects (alter (touch now) r) g).
Proof.
  split; [|exists []; by rewrite app_nil_r].
  intros r' c Hc. cbn. rewrite lookup_alter. case_decide as Hr.
  - subst r'. rewrite Hc. by exists (touch now c).
  - by exists c.
Qed.

Lemma mute_touch_insert now r c g :
  objects g !! r = Some c ->
  mute g (set_objects (insert r (touch now c)) g).
Proof.
  intros Hc. split; [|exists []; by rewrite app_nil_r].
  intros r' c' Hc'. cbn. destruct (decide (r = r')) as [<-|Hne].
  - rewrite lookup_insert_eq. exists (touch now c).
    split; [done|]. assert (c' = c) as -> by congruence. done.
  - rewrite lookup_insert_ne by done. by exists c'.
Qed.

Section MuteHandlers.

Variable JSON_parse : string -> option json.
Variable config : GatewayConfig.

Lemma mute_resetIdleTimeout r id g : mute g (resetIdleTimeout config r id g).
Proof.
  unfold resetIdleTimeout.
  set (g1 := match timeoutTimers g !! idleKey id with
             | Some h => clearTimeout h g
             | None => g
             end).
  assert (mute g g1) as H1.
  { unfold g1. destruct (timeoutTimers g !! idleKey id);
      [apply mute_clearTimeout | apply mute_refl]. }
  eapply mute_trans; [exact H1|].
  match goal with |- context [setTimeout ?t g1] =>
    pose proof (mute_setTimeout t g1) as H2;
    destruct (setTimeout t g1) as [h g2] end.
  cbn [snd] in H2. eapply mute_trans; [exact H2|]. by apply mute_frame.
Qed.

Lemma mute_setupTimeouts r id g : mute g (setupTimeouts config r id g).
Proof.
  unfold setupTimeouts.
  eapply mute_trans; [apply (mute_resetIdleTimeout r id)|].
  match goal with |- context [setTimeout ?t ?g1] =>
    pose proof (mute_setTimeout t g1) as H2;
    destruct (setTimeout t g1) as [h g2] end.
  cbn [snd] in H2. eapply mute_trans; [exact H2|]. by apply mute_frame.
Qed.

Lemma mute_clearTimeouts id g : mute g (clearTimeouts id g).
Proof.
  unfold clearTimeouts.
  set (g1 := match timeoutTimers g !! idleKey id with
             | Some h => clearTimeout h g
             | None => g
             end).
  set (g2 := match timeoutTimers g !! hardKey id with
             | Some h => clearTimeout h g1
             | None => g1
             end).
  assert (mute g g1) as H1.
  { unfold g1. destruct (timeoutTimers g !! idleKey id);
      [apply mute_clearTimeout | apply mute_refl]. }
  assert (mute g1 g2) as H2.
  { unfold g2. destruct (timeoutTimers g !! hardKey id);
      [apply mute_clearTimeout | apply mute_refl]. }
  eapply mute_trans; [exact H1|]. eapply mute_trans; [exact H2|].
  by apply mute_frame.
Qed.

Lemma mute_connect_settled r outcome g : mute g (connect_settled r outcome g).
Proof.
  unfold connect_settled. destruct (connecting g !! r); [|apply mute_refl].
  destruct (callBackend_result _ _).
  - by apply mute_frame.
  - eapply mute_trans; [|apply mute_ws_close]. by apply mute_frame.
Qed.

Lemma mute_timer_fired h g : mute g (timer_fired h g).
Proof.
  unfold timer_fired. destruct (timers g !! h) as [t|]; [|apply mute_refl].
  destruct (connections _ !! _).
  - eapply mute_trans; [|apply mute_ws_close]. by apply mute_frame.
  - by apply mute_frame.
Qed.

Lemma mute_handleManagementApi method connectionId body now g :
  mute g (handleManagementApi method connectionId body now g).2.
Proof.
  unfold handleManagementApi, post_end.
  repeat case_bool_decide; destruct (connections_get g connectionId) as [[r c]|];
    cbn [snd]; try apply mute_refl;
    destruct (is_open g r); cbn [snd]; try apply mute_refl.
  - apply mute_ws_close.
  - eapply mute_trans; [apply mute_ws_send | apply mute_touch].
Qed.

Lemma mute_request method pathname body now g :
  mute g (step JSON_parse config g (Request method pathname body now)).
Proof.
  cbn [step]. unfold handleHttpRequest.
  destruct (_ && _).
  - by apply mute_emit.
  - destruct (match_connections_path pathname) as [group|];
      [|by apply mute_emit].
    destruct (JsURI.decodeURIComponent group) as [id|]; [|by apply mute_emit].
    pose proof (mute_handleManagementApi method id body now g) as H.
    destruct (handleManagementApi method id body now g) as [res g'].
    eapply mute_trans; [exact H|]. by apply mute_emit.
Qed.

Lemma mute_close_all (m : gmap string nat) g :
  mute g (map_fold (λ _ connection acc,
                      ws_close connection 1001 "Server shutting down" acc)
                   g m).
Proof.
  apply (map_fold_weak_ind (λ acc _, mute g acc)); [apply mute_refl|].
  intros i x m' acc _ IH. eapply mute_trans; [exact IH | apply mute_ws_close].
Qed.

Lemma mute_clear_all (m : gmap string nat) g :
  mute g (map_fold (λ _ timer acc, clearTimeout timer acc) g m).
Proof.
  apply (map_fold_weak_ind (λ acc _, mute g acc)); [apply mute_refl|].
  intros i x m' acc _ IH. eapply mute_trans; [exact IH | apply mute_clearTimeout].
Qed.

Lemma mute_stop g : mute g (stop g).
Proof.
  unfold stop.
  set (g1 := map_fold _ g (connections g)).
  set (g2 := set_connections _ g1).
  eapply mute_trans; [apply (mute_close_all (connections g) g)|]. fold g1.
  eapply mute_trans; [by apply (mute_frame g1 g2)|].
  eapply mute_trans; [apply (mute_clear_all (timeoutTimers g2) g2)|].
  by apply mute_frame.
Qed.

(** *** Every call in the trace is a call for its session *)

Lemma dispatch_ok_mute g g' e :
  mute g g' -> dispatch_ok config g e -> dispatch_ok config g' e.
Proof.
  intros Hm. destruct e as [r rk body opts d| | | | | |]; try done.
  intros (c & c0 & now & rid & mid & Hc & E & Hd).
  destruct (mute_objects _ _ Hm r c Hc) as (c' & Hc' & E').
  exists c', c0, now, rid, mid. split; [done|]. split; [congruence|done].
Qed.

Lemma dispatches_mute g g' :
  mute g g' ->
  Forall (dispatch_ok config g) (trace g) ->
  Forall (dispatch_ok config g') (trace g').
Proof.
  intros Hm Hg. destruct (mute_trace _ _ Hm) as (s & -> & Hs).
  apply Forall_app. split.
  - eapply Forall_impl; [exact Hg|]. intros e. by apply dispatch_ok_mute.
  - eapply Forall_impl; [exact Hs|]. intros e He. by destruct e.
Qed.

Lemma dispatches_call g r routeKey body options c now requestId messageId :
  objects g !! r = Some c ->
  Forall (dispatch_ok config g) (trace g) ->
  Forall (dispatch_ok config
            (emit (CallBackend r routeKey body options
                     (callBackend config routeKey c body options
                                  now requestId messageId)) g))
         (trace (emit (CallBackend r routeKey body options
                         (callBackend config routeKey c body options
                                      now requestId messageId)) g)).
Proof.
  intros Hc Hg. cbn [emit trace]. apply Forall_app. split.
  - eapply Forall_impl; [exact Hg|]. intros e. by destruct e.
  - constructor; [|constructor]. by exists c, c, now, requestId, messageId.
Qed.

Lemma mute_admitted req id ca la g :
  sessions_ok config g -> mute g (admitted req id ca la g).
Proof.
  intros Hso. split; [|exists []; by rewrite app_nil_r].
  intros r c Hc. exists c. split; [|done]. cbn.
  rewrite lookup_insert_ne; [done|].
  assert (r < next_ref g)%nat; [|lia].
  apply (so_objects _ _ Hso). eauto.
Qed.

Lemma dispatches_step g e :
  sessions_ok config g ->
  Forall (dispatch_ok config g) (trace g) ->
  Forall (dispatch_ok config (step JSON_parse config g e))
         (trace (step JSON_parse config g e)).
Proof.
  intros Hso Hg.
  destruct e as [req id ca la now rid mid|r outcome|r message at' now rid mid
                |r code reason now rid mid|h|method pathname body now|].
  - cbn [step]. rewrite handleConnection_unfold.
    match goal with
    | |- Forall (dispatch_ok _ (set_connecting _ ?x)) _ =>
        apply (dispatches_mute x); [apply mute_set_connecting|]
    end.
    apply dispatches_call.
    { destruct (setupTimeouts_frame config (next_ref g) id
                  (admitted req id ca la g)) as (_ & -> & _).
      cbn. by rewrite lookup_insert_eq. }
    eapply dispatches_mute; [|exact Hg].
    eapply mute_trans; [by apply mute_admitted | apply mute_setupTimeouts].
  - eapply dispatches_mute; [apply mute_connect_settled | exact Hg].
  - cbn [step]. unfold on_message.
    destruct (objects g !! r) as [c|] eqn:Hc; [|done].
    destruct (sockets g !! r) as [s|]; [|done].
    destruct (readyState s); try done;
      (apply dispatches_call;
       [ destruct (resetIdleTimeout_frame config r (conn_id c)
                     (set_objects (insert r (touch at' c)) g)) as (_ & -> & _);
         cbn; by rewrite lookup_insert_eq
       | eapply dispatches_mute; [|exact Hg];
         eapply mute_trans;
           [by apply mute_touch_insert | apply mute_resetIdleTimeout] ]).
  - cbn [step]. rewrite on_close_unfold.
    destruct (deliverable g r) as [[c s]|] eqn:Hd; [|done].
    apply deliverable_Some in Hd as (Hc & Hs & _).
    match goal with
    | |- Forall (dispatch_ok _ (set_connections _ (clearTimeouts _ ?x))) _ =>
        apply (dispatches_mute x)
    end.
    { eapply mute_trans; [apply mute_clearTimeouts | apply mute_set_connections]. }
    apply dispatches_call; [done|].
    eapply dispatches_mute; [|exact Hg]. apply mute_set_sockets.
  - eapply dispatches_mute; [apply mute_timer_fired | exact Hg].
  - eapply dispatches_mute; [apply mute_request | exact Hg].
  - eapply dispatches_mute; [apply mute_stop | exact Hg].
Qed.

Lemma dispatches_run events :
  Forall (dispatch_ok config (run JSON_parse config events))
         (trace (run JSON_parse config events)).
Proof.
  unfold run.
  assert (forall g, timers_ok g /\ sessions_ok config g ->
            Forall (dispatch_ok config g) (trace g) ->
            Forall (dispatch_ok config
                      (fold_left (step JSON_parse config) events g))
                   (trace (fold_left (step JSON_parse config) events g))) as H.
  { induction events as [|e events IH]; intros g Hok Hg; [done|].
    cbn [fold_left]. apply IH.
    - by apply step_preserves.
    - apply dispatches_step; [apply Hok | done]. }
  apply H; [|constructor].
  split; [apply timers_ok_initial | apply sessions_ok_initial].
Qed.

End MuteHandlers.

(** *** The configuration the constructor leaves *)

Lemma localhost_nonempty s : ("localhost:" ++ s)%string <> "".
Proof. by rewrite KeyFacts.append_cons. Qed.

Lemma new_config_nonempty config : domainName (new_config config) <> "".
Proof.
  unfold new_config. case_bool_decide as Hd; [|done].
  cbn [with_domainName domainName]. apply localhost_nonempty.
Qed.

Lemma dispatched_domainName JSON_parse config events r routeKey body options
    url init :
  CallBackend r routeKey body options (Fetch url init)
    ∈ trace (run JSON_parse config events) ->
  ctx_domainName (ev_requestContext (fetch_body init)) = domainName config.
Proof.
  intros Hin.
  pose proof (dispatches_run JSON_parse config events) as Hall.
  rewrite Forall_forall in Hall. specialize (Hall _ Hin).
  destruct Hall as (c & c0 & now & rid & mid & _ & _ & Hd).
  unfold callBackend in Hd. destruct (negb _); [done|].
  by injection Hd as _ ->.
Qed.

(* ---------------------------------------------------------------------- *)
(** ** Sessions keep their identity *)
(* ---------------------------------------------------------------------- *)

Lemma session_ids_elem g r :
  (r < next_ref g)%nat -> session_connectionId g r ∈ session_ids g.
Proof.
  intros Hr. unfold session_ids. apply list_elem_of_In, in_map, in_seq. lia.
Qed.

Lemma NoDup_map_inj {A B} (f : A -> B) (l : list A) a b :
  NoDup (map f l) -> In a l -> In b l -> f a = f b -> a = b.
Proof.
  induction l as [|x l IH]; intros Hnd Ha Hb E; [done|].
  cbn in Hnd. apply NoDup_cons in Hnd as [Hnot Hnd].
  destruct Ha as [->|Ha], Hb as [->|Hb]; [done| | |by apply IH].
  - exfalso. apply Hnot. rewrite E. by apply list_elem_of_In, in_map.
  - exfalso. apply Hnot. rewrite <- E. by apply list_elem_of_In, in_map.
Qed.

Lemma session_ids_inj g r1 r2 :
  NoDup (session_ids g) ->
  (r1 < next_ref g)%nat -> (r2 < next_ref g)%nat ->
  session_connectionId g r1 = session_connectionId g r2 -> r1 = r2.
Proof.
  intros Hnd H1 H2 E.
  apply (NoDup_map_inj (session_connectionId g) (seq 0 (next_ref g)));
    [done| | |done]; apply in_seq; lia.
Qed.

Lemma timer_key_id t id :
  timer_key t = idleKey id \/ timer_key t = hardKey id ->
  timer_connectionId t = id.
Proof.
  unfold timer_key. destruct (timer_kind t); intros [H|H].
  - by apply KeyFacts.idleKey_inj.
  - by apply KeyFacts.idleKey_hardKey in H.
  - symmetry in H. by apply KeyFacts.idleKey_hardKey in H.
  - by apply KeyFacts.hardKey_inj.
Qed.

Lemma timer_key_of_id t :
  timer_key t = idleKey (timer_connectionId t)
  \/ timer_key t = hardKey (timer_connectionId t).
Proof. unfold timer_key. destruct (timer_kind t); auto. Qed.

Lemma registered_initial : registered initial.
Proof.
  split; intros h t H; cbn [initial timers] in H; by rewrite lookup_empty in H.
Qed.

Lemma registered_quiet g g' : registered g -> quiet g g' -> registered g'.
Proof.
  intros Hr Hq. split; intros h t Ht; apply (quiet_timers _ _ Hq) in Ht.
  - rewrite (quiet_timeoutTimers _ _ Hq). by apply (reg_key _ Hr).
  - rewrite (quiet_closed _ _ Hq). by apply (reg_open _ Hr h).
Qed.

Lemma clearTimeouts_pending id g h t :
  timers (clearTimeouts id g) !! h = Some t ->
  timers g !! h = Some t
  /\ timeoutTimers g !! idleKey id <> Some h
  /\ timeoutTimers g !! hardKey id <> Some h.
Proof.
  unfold clearTimeouts, clearTimeout. cbn.
  destruct (timeoutTimers g !! idleKey id) as [hi|],
           (timeoutTimers g !! hardKey id) as [hh|]; cbn;
    rewrite ?lookup_delete_Some; intros; split; try tauto;
    split; try congruence; intros [= ->]; tauto.
Qed.

Section Identities.

Variable JSON_parse : string -> option json.
Variable config : GatewayConfig.

Lemma on_message_unfold r message activityAt now rid mid g :
  on_message JSON_parse config r message activityAt now rid mid g
  = match deliverable g r with
    | Some (c, s) =>
        emit (CallBackend r (selectRoute JSON_parse config message)
                (Some message) None
                (callBackend config (selectRoute JSON_parse config message)
                   (touch activityAt c) (Some message) None now rid mid))
          (resetIdleTimeout config r (conn_id c)
             (set_objects (insert r (touch activityAt c)) g))
    | None => g
    end.
Proof.
  unfold on_message, deliverable.
  destruct (objects g !! r) as [c|]; [|done].
  destruct (sockets g !! r) as [s|]; [|done].
  by destruct (readyState s).
Qed.

Lemma step_steady g e r c :
  sessions_ok config g ->
  objects g !! r = Some c ->
  exists c', objects (step JSON_parse config g e) !! r = Some c'
             /\ touch 0 c' = touch 0 c.
Proof.
  intros Hso Hc.
  destruct e as [req id ca la now rid mid|r0 outcome|r0 message at' now rid mid
                |r0 code reason now rid mid|h|method pathname body now|];
    cbn [step].
  - rewrite handleConnection_unfold.
    destruct (mute_objects _ _
                (mute_trans _ _ _ (mute_admitted config req id ca la g Hso)
                   (mute_setupTimeouts config (next_ref g) id _)) r c Hc)
      as (c' & Hc' & E).
    exists c'. split; [|done].
    match goal with
    | |- objects (set_connecting ?f (emit ?e ?x)) !! _ = _ =>
        destruct (announce_frame f e x) as (_ & _ & -> & _)
    end.
    exact Hc'.
  - apply (mute_objects _ _ (mute_connect_settled r0 outcome g) r c Hc).
  - rewrite on_message_unfold.
    destruct (deliverable g r0) as [[c0 s0]|] eqn:Hd; [|by exists c].
    apply deliverable_Some in Hd as (Hc0 & _ & _).
    apply (mute_objects _ _
             (mute_trans _ _ _ (mute_touch_insert at' r0 c0 g Hc0)
                (mute_resetIdleTimeout config r0 (conn_id c0) _)) r c Hc).
  - rewrite on_close_unfold.
    destruct (deliverable g r0) as [[c0 s0]|]; [|by exists c].
    exists c. split; [|done].
    match goal with
    | |- objects (set_connections ?f ?x) !! _ = _ =>
        destruct (set_connections_frame f x) as (_ & _ & -> & _)
    end.
    destruct (clearTimeouts_frame (conn_id c0)
                (emit (disconnect_call config r0 c0 code reason now rid mid)
                   (set_sockets (insert r0 (close_socket s0)) g)))
      as (_ & _ & -> & _).
    exact Hc.
  - apply (mute_objects _ _ (mute_timer_fired h g) r c Hc).
  - apply (mute_objects _ _
             (mute_request JSON_parse config method pathname body now g) r c Hc).
  - apply (mute_objects _ _ (mute_stop g) r c Hc).
Qed.

Lemma step_session_connectionId g e r :
  sessions_ok config g -> (r < next_ref g)%nat ->
  session_connectionId (step JSON_parse config g e) r = session_connectionId g r.
Proof.
  intros Hso Hr. apply (so_objects _ _ Hso) in Hr as [c Hc].
  destruct (step_steady g e r c Hso Hc) as (c' & Hc' & E).
  unfold session_connectionId. rewrite Hc, Hc'. by injection E.
Qed.

Lemma step_next_ref g e :
  next_ref (step JSON_parse config g e)
  = match e with
    | Upgrade _ _ _ _ _ _ _ => S (next_ref g)
    | _ => next_ref g
    end.
Proof.
  destruct e as [req id ca la now rid mid|r0 outcome|r0 message at' now rid mid
                |r0 code reason now rid mid|h|method pathname body now|];
    try (match goal with
         | |- next_ref (step _ _ _ ?e) = _ =>
             exact (calm_next_ref _ _ (calm_step JSON_parse config g e I))
         end).
  - cbn [step]. rewrite handleConnection_unfold.
    destruct (announce_frame
                (insert (next_ref g)
                   (callBackend config "$connect"
                      (newConnection req id (next_ref g) ca la) None None
                      now rid mid))
                (CallBackend (next_ref g) "$connect" None None
                   (callBackend config "$connect"
                      (newConnection req id (next_ref g) ca la) None None
                      now rid mid))
                (setupTimeouts config (next_ref g) id (admitted req id ca la g)))
      as (_ & _ & _ & _ & _ & -> & _).
    by destruct (setupTimeouts_frame config (next_ref g) id
                   (admitted req id ca la g)) as (_ & _ & _ & _ & -> & _).
  - cbn [step]. rewrite on_close_unfold.
    destruct (deliverable g r0) as [[c0 s0]|]; [|done].
    match goal with
    | |- next_ref (set_connections ?f ?x) = _ =>
        destruct (set_connections_frame f x) as (_ & _ & _ & _ & _ & -> & _)
    end.
    by destruct (clearTimeouts_frame (conn_id c0)
                   (emit (disconnect_call config r0 c0 code reason now rid mid)
                      (set_sockets (insert r0 (close_socket s0)) g)))
      as (_ & _ & _ & _ & -> & _).
Qed.

Lemma handleConnection_session g req id ca la now rid mid :
  session_connectionId
    (handleConnection config req id ca la now rid mid g) (next_ref g) = id.
Proof.
  rewrite handleConnection_unfold. unfold session_connectionId.
  match goal with
  | |- context [objects (set_connecting ?f (emit ?e ?x))] =>
      destruct (announce_frame f e x) as (_ & _ & -> & _)
  end.
  destruct (setupTimeouts_frame config (next_ref g) id
              (admitted req id ca la g)) as (_ & -> & _).
  cbn. by rewrite lookup_insert_eq.
Qed.

Lemma session_ids_step g e :
  sessions_ok config g ->
  session_ids (step JSON_parse config g e)
  = (session_ids g ++ option_list (upgrade_id e))%list.
Proof.
  intros Hso. unfold session_ids. rewrite step_next_ref.
  assert (map (session_connectionId (step JSON_parse config g e))
              (seq 0 (next_ref g))
          = map (session_connectionId g) (seq 0 (next_ref g))) as Hold.
  { apply map_ext_in. intros r Hr%in_seq.
    apply step_session_connectionId; [done|lia]. }
  destruct e; cbn [upgrade_id option_list]; rewrite ?app_nil_r; try exact Hold.
  rewrite seq_S, map_app, Hold. cbn [map plus step]. f_equal.
  by rewrite handleConnection_session.
Qed.

Lemma session_ids_run events :
  session_ids (run JSON_parse config events) = omap upgrade_id events.
Proof.
  unfold run.
  assert (forall g, timers_ok g /\ sessions_ok config g ->
            session_ids (fold_left (step JSON_parse config) events g)
            = (session_ids g ++ omap upgrade_id events)%list) as H.
  { induction events as [|e events IH]; intros g Hok.
    - cbn. by rewrite app_nil_r.
    - cbn [fold_left]. rewrite IH by (by apply step_preserves).
      rewrite session_ids_step by apply Hok. rewrite <- app_assoc. f_equal.
      cbn [omap list_omap]. by destruct (upgrade_id e). }
  rewrite H; [done|].
  split; [apply timers_ok_initial | apply sessions_ok_initial].
Qed.

(* ---------------------------------------------------------------------- *)
(** ** Pending timers are registered *)
(* ---------------------------------------------------------------------- *)

Lemma closed_next_ref g : sessions_ok config g -> closed g (next_ref g) = false.
Proof.
  intros Hso. unfold closed.
  destruct (sockets g !! next_ref g) eqn:Hs; [|done].
  assert (is_Some (sockets g !! next_ref g)) as H%(so_sockets _ _ Hso) by eauto.
  lia.
Qed.

Lemma registered_handleConnection req id ca la now rid mid g :
  timers_ok g -> sessions_ok config g -> registered g ->
  id ∉ session_ids g ->
  registered (handleConnection config req id ca la now rid mid g).
Proof.
  intros Hok Hso Hreg Hfresh.
  assert (forall h t, timers g !! h = Some t -> timer_connectionId t <> id)
    as Hother.
  { intros h t Ht Hid. apply Hfresh.
    destruct (ok_owner _ Hok _ _ Ht) as [Hlt Hsid].
    rewrite <- Hid, <- Hsid. by apply session_ids_elem. }
  rewrite handleConnection_unfold.
  set (a := admitted req id ca la g).
  set (d := callBackend config "$connect" _ None None now rid mid).
  destruct (announce_frame (insert (next_ref g) d)
              (CallBackend (next_ref g) "$connect" None None d)
              (setupTimeouts config (next_ref g) id a))
    as (_ & HtT & _ & Hsock & Htim & _).
  destruct (setupTimeouts_frame config (next_ref g) id a)
    as (_ & _ & Hsock' & _).
  assert (forall r, closed (set_connecting (insert (next_ref g) d)
                              (emit (CallBackend (next_ref g) "$connect" None None d)
                                 (setupTimeouts config (next_ref g) id a))) r
                    = closed g r) as Hclosed.
  { intros r. unfold closed at 1. rewrite Hsock, Hsock'.
    apply (closed_admitted config req id ca la g r Hso). }
  split; intros h t; rewrite Htim, setupTimeouts_timers, resetIdleTimeout_timers;
    change (next_timer a) with (next_timer g);
    change (timeoutTimers a) with (timeoutTimers g);
    change (timers a) with (timers g).
  - rewrite HtT, setupTimeouts_timeoutTimers.
    change (next_timer a) with (next_timer g);
    change (timeoutTimers a) with (timeoutTimers g).
    intros Ht.
    apply lookup_insert_Some in Ht as [[<- <-]|[Hne1 Ht]].
    { cbn. by rewrite lookup_insert_eq. }
    apply lookup_insert_Some in Ht as [[<- <-]|[Hne2 Ht]].
    { cbn. rewrite lookup_insert_ne by (symmetry; apply KeyFacts.idleKey_hardKey).
      by rewrite lookup_insert_eq. }
    assert (timers g !! h = Some t) as Hg.
    { destruct (timeoutTimers g !! idleKey id); [|done].
      by apply lookup_delete_Some in Ht as [_ ?]. }
    rewrite !lookup_insert_ne; [by apply (reg_key _ Hreg)| |].
    + intros E. apply (Hother _ _ Hg). apply timer_key_id. by left.
    + intros E. apply (Hother _ _ Hg). apply timer_key_id. by right.
  - rewrite Hclosed. intros Ht.
    apply lookup_insert_Some in Ht as [[<- <-]|[Hne1 Ht]].
    { cbn. by apply closed_next_ref. }
    apply lookup_insert_Some in Ht as [[<- <-]|[Hne2 Ht]].
    { cbn. by apply closed_next_ref. }
    apply (reg_open _ Hreg h).
    destruct (timeoutTimers g !! idleKey id); [|done].
    by apply lookup_delete_Some in Ht as [_ ?].
Qed.

Lemma registered_on_message r message activityAt now rid mid g :
  registered g ->
  registered (on_message JSON_parse config r message activityAt now rid mid g).
Proof.
  intros Hreg. rewrite on_message_unfold.
  destruct (deliverable g r) as [[c s]|] eqn:Hd; [|done].
  apply deliverable_Some in Hd as (Hc & Hs & Hopen).
  set (g1 := set_objects (insert r (touch activityAt c)) g).
  split; intros h t; cbn [emit timers timeoutTimers];
    rewrite resetIdleTimeout_timers;
    change (next_timer g1) with (next_timer g);
    change (timeoutTimers g1) with (timeoutTimers g);
    change (timers g1) with (timers g).
  - rewrite resetIdleTimeout_timeoutTimers.
    change (next_timer g1) with (next_timer g);
    change (timeoutTimers g1) with (timeoutTimers g).
    intros Ht.
    apply lookup_insert_Some in Ht as [[<- <-]|[Hne Ht]].
    { cbn. by rewrite lookup_insert_eq. }
    assert (timers g !! h = Some t
            /\ timeoutTimers g !! idleKey (conn_id c) <> Some h) as [Hg Hno].
    { destruct (timeoutTimers g !! idleKey (conn_id c)) as [h0|].
      - apply lookup_delete_Some in Ht as [? ?]. split; [done|congruence].
      - done. }
    pose proof (reg_key _ Hreg _ _ Hg) as Hk.
    rewrite lookup_insert_ne; [done|]. intros E. by rewrite <- E in Hk.
  - intros Ht.
    assert (forall x, closed (emit (CallBackend r (selectRoute JSON_parse config message)
                (Some message) None
                (callBackend config (selectRoute JSON_parse config message)
                   (touch activityAt c) (Some message) None now rid mid))
                (resetIdleTimeout config r (conn_id c) g1)) x = closed g x) as Hcl.
    { intros x. unfold closed. cbn [emit sockets].
      by destruct (resetIdleTimeout_frame config r (conn_id c) g1)
        as (_ & _ & -> & _). }
    rewrite Hcl.
    apply lookup_insert_Some in Ht as [[<- <-]|[Hne Ht]]; [done|].
    apply (reg_open _ Hreg h).
    destruct (timeoutTimers g !! idleKey (conn_id c)); [|done].
    by apply lookup_delete_Some in Ht as [_ ?].
Qed.

Lemma on_close_closed r code reason now rid mid g x :
  closed (on_close config r code reason now rid mid g) x
  = if decide (x = r) then bool_decide (is_Some (deliverable g r)) || closed g x
    else closed g x.
Proof.
  rewrite on_close_unfold.
  destruct (deliverable g r) as [[c s]|] eqn:Hd.
  - rewrite bool_decide_eq_true_2 by eauto. cbn [orb].
    unfold closed at 1. cbn [set_connections sockets].
    destruct (clearTimeouts_frame (conn_id c)
                (emit (disconnect_call config r c code reason now rid mid)
                   (set_sockets (insert r (close_socket s)) g)))
      as (_ & _ & _ & -> & _).
    cbn. case_decide as Hx.
    + subst x. by rewrite lookup_insert_eq.
    + by rewrite lookup_insert_ne.
  - rewrite bool_decide_eq_false_2 by (by intros []). cbn [orb].
    by case_decide.
Qed.

Lemma registered_on_close r code reason now rid mid g :
  timers_ok g -> registered g ->
  registered (on_close config r code reason now rid mid g).
Proof.
  intros Hok Hreg.
  assert (forall h t,
            timers (on_close config r code reason now rid mid g) !! h = Some t ->
            timers g !! h = Some t
            /\ (is_Some (deliverable g r) ->
                timer_connectionId t <> session_connectionId g r)) as Hpending.
  { intros h t. rewrite on_close_unfold.
    destruct (deliverable g r) as [[c s]|] eqn:Hd.
    - apply deliverable_Some in Hd as (Hc & _ & _).
      cbn [set_connections timers]. intros Ht.
      apply clearTimeouts_pending in Ht as (Ht & Hi & Hh).
      cbn in Ht, Hi, Hh. split; [done|]. intros _ Hid.
      unfold session_connectionId in Hid. rewrite Hc in Hid.
      pose proof (reg_key _ Hreg _ _ Ht) as Hk.
      destruct (timer_key_of_id t) as [E|E]; rewrite E, Hid in Hk; congruence.
    - intros Ht. split; [done|]. by intros []. }
  split; intros h t Ht; destruct (Hpending h t Ht) as [Hg Hne].
  - pose proof (reg_key _ Hreg _ _ Hg) as Hk.
    rewrite on_close_unfold.
    destruct (deliverable g r) as [[c s]|] eqn:Hd; [|done].
    cbn [set_connections timeoutTimers].
    destruct (clearTimeouts_frame (conn_id c)
                (emit (disconnect_call config r c code reason now rid mid)
                   (set_sockets (insert r (close_socket s)) g)))
      as (-> & _).
    cbn [emit set_sockets timeoutTimers].
    apply deliverable_Some in Hd as (Hc & _ & _).
    assert (session_connectionId g r = conn_id c) as Hsid
      by (unfold session_connectionId; by rewrite Hc).
    rewrite !lookup_delete_ne; [done| |].
    + intros E. symmetry in E. apply Hne; [by eexists|].
      rewrite Hsid. apply timer_key_id. auto.
    + intros E. symmetry in E. apply Hne; [by eexists|].
      rewrite Hsid. apply timer_key_id. auto.
  - rewrite on_close_closed. case_decide as Hx; [|by apply (reg_open _ Hreg h)].
    rewrite (reg_open _ Hreg h t Hg), orb_false_r.
    apply bool_decide_eq_false_2. intros Hd. apply (Hne Hd).
    destruct (ok_owner _ Hok _ _ Hg) as [_ <-]. by rewrite Hx.
Qed.

Lemma stop_timers g : registered g -> timers (stop g) = ∅.
Proof.
  intros Hreg. apply map_empty. intros h.
  destruct (timers (stop g) !! h) as [t|] eqn:Ht; [|done]. exfalso.
  unfold stop in Ht. cbn [set_timeoutTimers timers] in Ht.
  set (g1 := map_fold (λ _ connection acc,
                         ws_close connection 1001 "Server shutting down" acc)
                      g (connections g)) in Ht.
  pose proof (quiet_close_all (connections g) g) as Hq. fold g1 in Hq.
  destruct (clear_all_spec (timeoutTimers (set_connections (λ _, ∅) g1))
              (set_connections (λ _, ∅) g1)) as (Hsub & _).
  apply Hsub in Ht as [Ht Hno]. cbn [set_connections timers timeoutTimers] in Ht, Hno.
  apply (quiet_timers _ _ Hq) in Ht.
  apply (Hno (timer_key t)). rewrite (quiet_timeoutTimers _ _ Hq).
  by apply (reg_key _ Hreg).
Qed.

Lemma registered_stop g : registered g -> registered (stop g).
Proof.
  intros Hreg. split; intros h t Ht;
    by rewrite (stop_timers g Hreg), lookup_empty in Ht.
Qed.

Lemma registered_step g e :
  timers_ok g -> sessions_ok config g -> registered g ->
  (forall id, upgrade_id e = Some id -> id ∉ session_ids g) ->
  registered (step JSON_parse config g e).
Proof.
  intros Hok Hso Hreg Hfresh.
  destruct e as [req id ca la now rid mid|r0 outcome|r0 message at' now rid mid
                |r0 code reason now rid mid|h|method pathname body now|];
    cbn [step].
  - apply registered_handleConnection; try done. by apply Hfresh.
  - eapply registered_quiet; [done | apply quiet_connect_settled].
  - by apply registered_on_message.
  - by apply registered_on_close.
  - eapply registered_quiet; [done | apply quiet_timer_fired].
  - eapply registered_quiet;
      [done | apply (quiet_request JSON_parse config method pathname body now g)].
  - by apply registered_stop.
Qed.

Lemma registered_run events :
  NoDup (omap upgrade_id events) ->
  registered (run JSON_parse config events).
Proof.
  unfold run.
  assert (forall g, timers_ok g /\ sessions_ok config g -> registered g ->
            NoDup (session_ids g ++ omap upgrade_id events) ->
            registered (fold_left (step JSON_parse config) events g)) as H.
  { induction events as [|e events IH]; intros g Hok Hreg Hnd; [done|].
    cbn [fold_left]. apply IH.
    - by apply step_preserves.
    - apply registered_step; [apply Hok..|done|].
      intros id He. cbn [omap list_omap] in Hnd. rewrite He in Hnd.
      apply NoDup_app in Hnd as (_ & Hdis & _).
      intros Hin. apply (Hdis _ Hin). apply list_elem_of_here.
    - rewrite session_ids_step by apply Hok. rewrite <- app_assoc.
      cbn [omap list_omap] in Hnd. by destruct (upgrade_id e). }
  intros Hnd. apply H; [|apply registered_initial|done].
  split; [apply timers_ok_initial | apply sessions_ok_initial].
Qed.

End Identities.

(* ---------------------------------------------------------------------- *)
(** ** Management requests, one by one *)
(* ---------------------------------------------------------------------- *)

Lemma ws_close_sockets r code reason g :
  sockets (ws_close r code reason g) = alter (closing code reason) r (sockets g).
Proof.
  unfold ws_close. cbn [emit sockets]. apply map_eq. intros r'.
  rewrite lookup_alter.
  destruct (sockets g !! r) as [s|] eqn:Hs.
  - destruct (readyState s) eqn:Hr; cbn [set_sockets sockets];
      case_decide as Hx; try subst r';
      rewrite ?lookup_insert_eq, ?lookup_insert_ne by done;
      rewrite ?Hs; cbn; unfold closing; rewrite ?Hr; done.
  - case_decide as Hx; [subst r'; by rewrite Hs | done].
Qed.

Lemma ws_close_frame r code reason g :
  connections (ws_close r code reason g) = connections g
  /\ objects (ws_close r code reason g) = objects g
  /\ timers (ws_close r code reason g) = timers g
  /\ timeoutTimers (ws_close r code reason g) = timeoutTimers g
  /\ connecting (ws_close r code reason g) = connecting g
  /\ trace (ws_close r code reason g) = (trace g ++ [WsClose r code reason])%list.
Proof.
  unfold ws_close. destruct (sockets g !! r) as [s|]; [|done].
  by destruct (readyState s).
Qed.

Lemma ws_send_open r data g s :
  sockets g !! r = Some s -> readyState s = OPEN ->
  sockets (ws_send r data g) = <[r := pushed data s]> (sockets g)
  /\ connections (ws_send r data g) = connections g
  /\ objects (ws_send r data g) = objects g
  /\ trace (ws_send r data g) = (trace g ++ [WsSend r data])%list.
Proof. intros Hs Hr. unfold ws_send. by rewrite Hs, Hr. Qed.

Lemma gone_not_open method connectionId body now g r :
  connections g !! connectionId = Some r ->
  is_open g r = false ->
  method ∈ ["POST"; "DELETE"] ->
  handleManagementApi method connectionId body now g = (Gone connectionId, g).
Proof.
  intros Hr Hopen Hm. unfold handleManagementApi, post_end, connections_get.
  rewrite Hr.
  repeat (apply elem_of_cons in Hm as [->|Hm];
          [cbn; destruct (objects g !! r); rewrite ?Hopen; reflexivity|]).
  by apply elem_of_nil in Hm.
Qed.

(* ---------------------------------------------------------------------- *)
(** ** Shutdown *)
(* ---------------------------------------------------------------------- *)

Lemma closing_idempotent code reason s :
  closing code reason (closing code reason s) = closing code reason s.
Proof. unfold closing. by destruct (readyState s) eqn:H; cbn; rewrite ?H. Qed.

Lemma close_all_frame (m : gmap string nat) code reason g :
  let g' := map_fold (λ _ connection acc, ws_close connection code reason acc)
                     g m in
  connections g' = connections g
  /\ objects g' = objects g
  /\ timers g' = timers g
  /\ timeoutTimers g' = timeoutTimers g
  /\ connecting g' = connecting g.
Proof.
  cbv zeta.
  apply (map_fold_weak_ind
           (λ acc _, connections acc = connections g
                     /\ objects acc = objects g
                     /\ timers acc = timers g
                     /\ timeoutTimers acc = timeoutTimers g
                     /\ connecting acc = connecting g)); [done|].
  intros i x m' acc _ (H1 & H2 & H3 & H4 & H5).
  destruct (ws_close_frame x code reason acc) as (-> & -> & -> & -> & -> & _).
  done.
Qed.

Lemma close_all_sockets (m : gmap string nat) code reason g :
  let g' := map_fold (λ _ connection acc, ws_close connection code reason acc)
                     g m in
  (forall id r, m !! id = Some r ->
     sockets g' !! r = closing code reason <$> sockets g !! r)
  /\ (forall r, (forall id, m !! id <> Some r) ->
        sockets g' !! r = sockets g !! r).
Proof.
  cbv zeta.
  pose (P := λ (acc : Gateway) (m' : gmap string nat),
          (forall id r, m' !! id = Some r ->
             sockets acc !! r = closing code reason <$> sockets g !! r)
          /\ (forall r,
                sockets acc !! r = sockets g !! r
                \/ sockets acc !! r = closing code reason <$> sockets g !! r)
          /\ (forall r, (forall id, m' !! id <> Some r) ->
                sockets acc !! r = sockets g !! r)).
  assert (P (map_fold (λ _ connection acc, ws_close connection code reason acc)
                      g m) m) as (H1 & _ & H3); [|by split].
  apply (map_fold_weak_ind P).
  - split; [intros id r H; by rewrite lookup_empty in H|]. split; auto.
  - intros i x m' acc Hi (IH1 & IH2 & IH3).
    assert (forall r, sockets (ws_close x code reason acc) !! r
                      = if decide (x = r)
                        then closing code reason <$> sockets acc !! x
                        else sockets acc !! r) as Hlook.
    { intros r. by rewrite ws_close_sockets, lookup_alter. }
    assert (sockets (ws_close x code reason acc) !! x
            = closing code reason <$> sockets g !! x) as Hx.
    { rewrite Hlook, decide_True by done.
      destruct (IH2 x) as [-> | ->]; [done|].
      destruct (sockets g !! x) as [s|]; [|done]. cbn.
      by rewrite closing_idempotent. }
    split; [|split].
    + intros id r Hr. destruct (decide (x = r)) as [<-|Hne]; [done|].
      rewrite Hlook, decide_False by done.
      apply lookup_insert_Some in Hr as [[_ ?]|[_ Hr]]; [done|].
      by apply (IH1 id).
    + intros r. destruct (decide (x = r)) as [<-|Hne]; [by right|].
      rewrite Hlook, decide_False by done. apply IH2.
    + intros r Hr. destruct (decide (x = r)) as [<-|Hne].
      { exfalso. apply (Hr i). by rewrite lookup_insert_eq. }
      rewrite Hlook, decide_False by done. apply IH3.
      intros id Hid. apply (Hr id).
      rewrite lookup_insert_ne; [done|]. intros <-. congruence.
Qed.

Lemma clear_all_frame (m : gmap string nat) g :
  let g' := map_fold (λ _ timer acc, clearTimeout timer acc) g m in
  connections g' = connections g
  /\ sockets g' = sockets g
  /\ objects g' = objects g
  /\ timeoutTimers g' = timeoutTimers g
  /\ connecting g' = connecting g.
Proof.
  cbv zeta.
  apply (map_fold_weak_ind
           (λ acc _, connections acc = connections g
                     /\ sockets acc = sockets g
                     /\ objects acc = objects g
                     /\ timeoutTimers acc = timeoutTimers g
                     /\ connecting acc = connecting g)); done.
Qed.

Lemma stop_connections g : connections (stop g) = ∅.
Proof.
  unfold stop. cbn [set_timeoutTimers connections].
  by destruct (clear_all_frame
                 (timeoutTimers
                    (set_connections (λ _, ∅)
                       (map_fold (λ _ connection acc,
                                    ws_close connection 1001
                                             "Server shutting down" acc)
                                 g (connections g))))
                 (set_connections (λ _, ∅)
                    (map_fold (λ _ connection acc,
                                 ws_close connection 1001
                                          "Server shutting down" acc)
                              g (connections g)))) as (-> & _).
Qed.

Lemma gone_absent method connectionId body now g :
  connections g !! connectionId = None ->
  method ∈ ["GET"; "POST"; "DELETE"] ->
  handleManagementApi method connectionId body now g = (Gone connectionId, g).
Proof.
  intros Habsent Hm. unfold handleManagementApi, post_end, connections_get.
  rewrite Habsent.
  repeat (apply elem_of_cons in Hm as [->|Hm]; [by vm_compute|]).
  by apply elem_of_nil in Hm.
Qed.

(* ---------------------------------------------------------------------- *)
(** ** What a session captures from its upgrade request *)
(* ---------------------------------------------------------------------- *)

Lemma set_primitive_fold (ps : list (string * string)) : forall acc k,
  fold_left (λ queryParams '(key, value),
               JsObject.set_primitive key value queryParams) ps acc !! k
  = if bool_decide (k = "__proto__") then acc !! k
    else match last_of k ps with
         | Some v => Some v
         | None => acc !! k
         end.
Proof.
  induction ps as [|[k' v] ps IH]; intros acc k.
  - cbn. by case_bool_decide.
  - cbn [fold_left last_of]. rewrite IH. unfold JsObject.set_primitive.
    case_bool_decide as Hk.
    { case_bool_decide as Hk'; [done|]. rewrite lookup_insert_ne; [done|].
      congruence. }
    destruct (last_of k ps) as [w|]; [done|].
    destruct (decide (k' = k)) as [->|Hne].
    + rewrite (bool_decide_eq_false_2 (k = "__proto__")) by done.
      rewrite bool_decide_eq_true_2 by done. by rewrite lookup_insert_eq.
    + rewrite (bool_decide_eq_false_2 (k' = k)) by done.
      case_bool_decide; [done|]. by rewrite lookup_insert_ne.
Qed.

Lemma parseQueryParams_lookup ps k :
  parseQueryParams ps !! k
  = if bool_decide (k = "__proto__") then None else last_of k ps.
Proof.
  unfold parseQueryParams. rewrite set_primitive_fold, lookup_empty.
  case_bool_decide; [done|]. by destruct (last_of k ps).
Qed.

Lemma parseHeaders_pairs hs : parseHeaders hs = parseQueryParams (header_pairs hs).
Proof.
  unfold parseHeaders, parseQueryParams, header_pairs.
  generalize (∅ : gmap string string).
  induction hs as [|[key value] hs IH]; intros acc; [done|].
  cbn [fold_left omap list_omap].
  destruct value; cbn [fold_left]; apply IH.
Qed.

Lemma replace_unfold pat rep s :
  JsString.replace pat rep s
  = match JsString.strip_prefix pat s with
    | Some rest => (rep ++ rest)%string
    | None => match s with
              | EmptyString => EmptyString
              | String c s' => String c (JsString.replace pat rep s')
              end
    end.
Proof. by destruct s. Qed.

Lemma replace_prefix pat s : JsString.replace pat "" (pat ++ s) = s.
Proof. by rewrite replace_unfold, GeneratorFacts.strip_prefix_app. Qed.

Lemma replace_absent c pat rep s :
  all_chars (λ x, negb (Ascii.eqb c x)) s = true ->
  JsString.replace (String c pat) rep s = s.
Proof.
  induction s as [|x s IH]; [done|]. cbn [all_chars].
  intros [Hx Hs]%andb_true_iff. apply negb_true_iff in Hx.
  rewrite replace_unfold. cbn [JsString.strip_prefix]. rewrite Hx.
  by rewrite IH.
Qed.

(* ---------------------------------------------------------------------- *)
(** ** What the gateway does to the outside world *)
(* ---------------------------------------------------------------------- *)

Lemma extends_refl P g : extends P g g.
Proof. exists []. by rewrite app_nil_r. Qed.

Lemma extends_trans P g1 g2 g3 :
  extends P g1 g2 -> extends P g2 g3 -> extends P g1 g3.
Proof.
  intros (s1 & E1 & F1) (s2 & E2 & F2). exists (s1 ++ s2)%list.
  rewrite E2, E1, <- app_assoc. split; [done|]. by apply Forall_app.
Qed.

Lemma extends_frame P g g' : trace g' = trace g -> extends P g g'.
Proof. intros H. exists []. by rewrite H, app_nil_r. Qed.

Lemma extends_set_connecting P f g : extends P g (set_connecting f g).
Proof. by apply extends_frame. Qed.

Lemma extends_set_connections P f g : extends P g (set_connections f g).
Proof. by apply extends_frame. Qed.

Lemma extends_emit (P : Effect -> Prop) e g : P e -> extends P g (emit e g).
Proof. intros He. exists [e]. split; [done|]. by constructor. Qed.

Lemma extends_run {E : Type} (P : Effect -> Prop)
    (step : Gateway -> E -> Gateway) (events : list E) :
  (forall g e, extends P g (step g e)) ->
  forall g, Forall P (trace g) ->
            Forall P (trace (fold_left step events g)).
Proof.
  intros Hstep. induction events as [|e events IH]; intros g Hg; [done|].
  cbn [fold_left]. apply IH. destruct (Hstep g e) as (s & -> & Hs).
  by apply Forall_app.
Qed.

Section Allowed.

Variable JSON_parse : string -> option json.
Variable config : GatewayConfig.

Lemma extends_ws_close r code reason g :
  (code, reason) ∈ close_frames -> extends (allowed JSON_parse config) g (ws_close r code reason g).
Proof.
  intros H. unfold ws_close. eapply extends_trans; [|by apply extends_emit].
  destruct (sockets g !! r) as [s|]; [|apply extends_refl].
  destruct (readyState s); try apply extends_refl. by apply extends_frame.
Qed.

Lemma extends_ws_send r data g : extends (allowed JSON_parse config) g (ws_send r data g).
Proof.
  unfold ws_send. eapply extends_trans; [|by apply extends_emit].
  destruct (sockets g !! r) as [s|]; [|apply extends_refl].
  destruct (readyState s); try apply extends_refl. by apply extends_frame.
Qed.

Lemma extends_clearTimeout h g : extends (allowed JSON_parse config) g (clearTimeout h g).
Proof.
  unfold clearTimeout. eapply extends_trans; [|by apply extends_emit].
  by apply extends_frame.
Qed.

Lemma extends_resetIdleTimeout r id g :
  extends (allowed JSON_parse config) g (resetIdleTimeout config r id g).
Proof.
  exists (match timeoutTimers g !! idleKey id with
          | Some h => [ClearTimeout h]
          | None => []
          end ++ [SetTimeout (next_timer g) (idle_timer config r id)])%list.
  split; [apply resetIdleTimeout_trace|].
  apply Forall_app. split; [by destruct (timeoutTimers g !! idleKey id); repeat constructor|].
  by repeat constructor.
Qed.

Lemma extends_setupTimeouts r id g :
  extends (allowed JSON_parse config) g (setupTimeouts config r id g).
Proof.
  eapply extends_trans; [apply (extends_resetIdleTimeout r id)|].
  exists [SetTimeout (S (next_timer g)) (hard_timer config r id)].
  split; [apply setupTimeouts_trace|]. by repeat constructor.
Qed.

Lemma extends_clearTimeouts id g : extends (allowed JSON_parse config) g (clearTimeouts id g).
Proof.
  unfold clearTimeouts.
  set (g1 := match timeoutTimers g !! idleKey id with
             | Some h => clearTimeout h g
             | None => g
             end).
  set (g2 := match timeoutTimers g !! hardKey id with
             | Some h => clearTimeout h g1
             | None => g1
             end).
  assert (extends (allowed JSON_parse config) g g1) as H1.
  { unfold g1. destruct (timeoutTimers g !! idleKey id);
      [apply extends_clearTimeout | apply extends_refl]. }
  assert (extends (allowed JSON_parse config) g1 g2) as H2.
  { unfold g2. destruct (timeoutTimers g !! hardKey id);
      [apply extends_clearTimeout | apply extends_refl]. }
  eapply extends_trans; [exact H1|]. eapply extends_trans; [exact H2|].
  by apply extends_frame.
Qed.

Lemma extends_handleManagementApi method connectionId body now g :
  extends (allowed JSON_parse config) g
    (emit (Respond (handleManagementApi method connectionId body now g).1)
          (handleManagementApi method connectionId body now g).2).
Proof.
  unfold handleManagementApi, post_end.
  destruct (connections_get g connectionId) as [[r c]|];
    repeat case_bool_decide; try destruct (is_open g r); cbn [fst snd];
    try (apply extends_emit; cbn; repeat constructor).
  - eapply extends_trans; [|apply extends_emit; cbn; repeat constructor].
    apply extends_ws_close. repeat constructor.
  - eapply extends_trans; [|apply extends_emit; cbn; repeat constructor].
    eapply extends_trans; [apply extends_ws_send | by apply extends_frame].
Qed.

Lemma extends_step g e : extends (allowed JSON_parse config) g (step JSON_parse config g e).
Proof.
  destruct e as [req id ca la now rid mid|r outcome|r message at' now rid mid
                |r code reason now rid mid|h|method pathname body now|];
    cbn [step].
  - rewrite handleConnection_unfold.
    eapply extends_trans; [|apply extends_set_connecting].
    eapply extends_trans; [|apply extends_emit; cbn; by left].
    eapply extends_trans; [by apply (extends_frame (allowed JSON_parse config) g (admitted req id ca la g))|].
    apply extends_setupTimeouts.
  - unfold connect_settled. destruct (connecting g !! r); [|apply extends_refl].
    destruct (callBackend_result _ _); [by apply extends_frame|].
    eapply extends_trans; [|apply extends_ws_close; repeat constructor].
    by apply extends_frame.
  - rewrite on_message_unfold.
    destruct (deliverable g r) as [[c s]|]; [|apply extends_refl].
    eapply extends_trans;
      [|apply extends_emit; cbn; right; left; by exists message].
    eapply extends_trans; [|apply extends_resetIdleTimeout].
    by apply extends_frame.
  - rewrite on_close_unfold.
    destruct (deliverable g r) as [[c s]|]; [|apply extends_refl].
    eapply extends_trans; [|apply extends_set_connections].
    eapply extends_trans; [|apply extends_clearTimeouts].
    eapply extends_trans; [|apply extends_emit; cbn; right; right; eauto].
    by apply extends_frame.
  - unfold timer_fired. destruct (timers g !! h) as [t|]; [|apply extends_refl].
    destruct (connections _ !! _); [|by apply extends_frame].
    eapply extends_trans;
      [|apply extends_ws_close; destruct (timer_kind t); repeat constructor].
    by apply extends_frame.
  - unfold handleHttpRequest. destruct (_ && _).
    { apply extends_emit. cbn. repeat constructor. }
    destruct (match_connections_path pathname) as [group|];
      [|apply extends_emit; cbn; repeat constructor].
    destruct (JsURI.decodeURIComponent group) as [id|];
      [|apply extends_emit; cbn; repeat constructor].
    pose proof (extends_handleManagementApi method id body now g) as H.
    by destruct (handleManagementApi method id body now g).
  - unfold stop.
    set (g1 := map_fold _ g (connections g)).
    set (g2 := set_connections _ g1).
    assert (extends (allowed JSON_parse config) g g1) as H1.
    { unfold g1. apply (map_fold_weak_ind (λ acc _, extends (allowed JSON_parse config) g acc));
        [apply extends_refl|].
      intros i x m' acc _ IH. eapply extends_trans; [exact IH|].
      apply extends_ws_close. repeat constructor. }
    assert (extends (allowed JSON_parse config) g2 (map_fold (λ _ timer acc, clearTimeout timer acc)
                             g2 (timeoutTimers g2))) as H3.
    { apply (map_fold_weak_ind (λ acc _, extends (allowed JSON_parse config) g2 acc));
        [apply extends_refl|].
      intros i x m' acc _ IH. eapply extends_trans; [exact IH|].
      apply extends_clearTimeout. }
    eapply extends_trans; [exact H1|].
    eapply extends_trans; [by apply (extends_frame (allowed JSON_parse config) g1 g2)|].
    eapply extends_trans; [exact H3|]. by apply extends_frame.
Qed.

End Allowed.

(* ---------------------------------------------------------------------- *)
(** ** Open sessions have their timers *)
(* ---------------------------------------------------------------------- *)

Lemma dims_refl g : dims g g.
Proof. by split. Qed.

Lemma dims_trans g1 g2 g3 : dims g1 g2 -> dims g2 g3 -> dims g1 g3.
Proof.
  intros H1 H2. split.
  - intros r H. by apply (dims_open _ _ H1), (dims_open _ _ H2).
  - by rewrite (dims_connections _ _ H2), (dims_connections _ _ H1).
  - by rewrite (dims_timers _ _ H2), (dims_timers _ _ H1).
Qed.

Lemma dims_frame g g' :
  sockets g' = sockets g -> connections g' = connections g ->
  timers g' = timers g -> dims g g'.
Proof. intros Hs Hc Ht. split; [|done..]. intros r. unfold is_open. by rewrite Hs. Qed.

Lemma is_open_ws_close r code reason g x :
  is_open (ws_close r code reason g) x
  = if decide (r = x) then false else is_open g x.
Proof.
  unfold is_open. rewrite ws_close_sockets, lookup_alter.
  case_decide as Hx; [subst x|done].
  destruct (sockets g !! r) as [s|]; [|done]. cbn. unfold closing.
  by destruct (readyState s) eqn:H; cbn; rewrite ?H.
Qed.

Lemma dims_ws_close r code reason g : dims g (ws_close r code reason g).
Proof.
  destruct (ws_close_frame r code reason g) as (Hc & _ & Ht & _).
  split; [|done..]. intros x. rewrite is_open_ws_close. by case_decide.
Qed.

Lemma dims_ws_send r data g : dims g (ws_send r data g).
Proof.
  unfold ws_send. destruct (sockets g !! r) as [s|] eqn:Hs; [|by apply dims_frame].
  destruct (readyState s) eqn:Hr; try by apply dims_frame.
  split; [|done..]. intros x. unfold is_open. cbn.
  destruct (decide (r = x)) as [<-|Hne].
  - by rewrite lookup_insert_eq, Hs, Hr.
  - by rewrite lookup_insert_ne.
Qed.

Lemma dims_connect_settled r outcome g : dims g (connect_settled r outcome g).
Proof.
  unfold connect_settled. destruct (connecting g !! r); [|apply dims_refl].
  destruct (callBackend_result _ _); [by apply dims_frame|].
  eapply dims_trans; [|apply dims_ws_close]. by apply dims_frame.
Qed.

Lemma dims_handleManagementApi method connectionId body now g :
  dims g (handleManagementApi method connectionId body now g).2.
Proof.
  unfold handleManagementApi, post_end.
  repeat case_bool_decide; destruct (connections_get g connectionId) as [[r c]|];
    cbn [snd]; try apply dims_refl;
    destruct (is_open g r); cbn [snd]; try apply dims_refl.
  - apply dims_ws_close.
  - eapply dims_trans; [apply dims_ws_send | by apply dims_frame].
Qed.

Lemma clearTimeouts_keeps id g h t :
  timers g !! h = Some t ->
  timeoutTimers g !! idleKey id <> Some h ->
  timeoutTimers g !! hardKey id <> Some h ->
  timers (clearTimeouts id g) !! h = Some t.
Proof.
  intros Ht Hi Hh. unfold clearTimeouts, clearTimeout. cbn.
  destruct (timeoutTimers g !! idleKey id) as [hi|],
           (timeoutTimers g !! hardKey id) as [hh|]; cbn;
    rewrite ?lookup_delete_ne by congruence; done.
Qed.

Lemma timer_key_session_timer config k r id :
  timer_connectionId (session_timer config k r id) = id
  /\ timer_key (session_timer config k r id)
     = match k with Idle => idleKey id | Hard => hardKey id end.
Proof. by destruct k. Qed.

Section Covered.

Variable JSON_parse : string -> option json.
Variable config : GatewayConfig.

Lemma dims_request method pathname body now g :
  dims g (step JSON_parse config g (Request method pathname body now)).
Proof.
  cbn [step]. unfold handleHttpRequest.
  destruct (_ && _); [by apply dims_frame|].
  destruct (match_connections_path pathname) as [group|];
    [|by apply dims_frame].
  destruct (JsURI.decodeURIComponent group) as [id|]; [|by apply dims_frame].
  pose proof (dims_handleManagementApi method id body now g) as H.
  destruct (handleManagementApi method id body now g) as [res g'].
  eapply dims_trans; [exact H|]. by apply dims_frame.
Qed.

Lemma covered_dims g g' : covered config g -> dims g g' -> covered config g'.
Proof.
  intros Hcov Hd k id r Hlive Hopen.
  rewrite (dims_connections _ _ Hd) in Hlive. rewrite (dims_timers _ _ Hd).
  apply Hcov; [done|]. by apply (dims_open _ _ Hd).
Qed.

Lemma covered_initial : covered config initial.
Proof. intros k id r H. cbn [initial connections] in H. by rewrite lookup_empty in H. Qed.

Lemma covered_handleConnection req id' ca la now rid mid g :
  timers_ok g -> sessions_ok config g -> covered config g ->
  covered config (handleConnection config req id' ca la now rid mid g).
Proof.
  intros Hok Hso Hcov.
  rewrite handleConnection_unfold.
  set (a := admitted req id' ca la g).
  set (d := callBackend config "$connect" _ None None now rid mid).
  destruct (announce_frame (insert (next_ref g) d)
              (CallBackend (next_ref g) "$connect" None None d)
              (setupTimeouts config (next_ref g) id' a))
    as (Hcon & _ & _ & Hsock & Htim & _).
  destruct (setupTimeouts_frame config (next_ref g) id' a)
    as (Hcon' & _ & Hsock' & _).
  intros k id r. unfold is_open.
  rewrite Hcon, Hcon', Hsock, Hsock', Htim, setupTimeouts_timers,
    resetIdleTimeout_timers.
  change (next_timer a) with (next_timer g);
  change (timeoutTimers a) with (timeoutTimers g);
  change (timers a) with (timers g).
  cbn [a admitted connections sockets].
  intros Hlive Hopen.
  apply lookup_insert_Some in Hlive as [[<- <-]|[Hne Hlive]].
  - destruct k.
    + exists (next_timer g).
      rewrite lookup_insert_ne by lia. by rewrite lookup_insert_eq.
    + exists (S (next_timer g)). by rewrite lookup_insert_eq.
  - destruct (so_live _ _ Hso _ _ Hlive) as (Hlt & _ & _).
    rewrite lookup_insert_ne in Hopen by lia.
    destruct (Hcov k id r Hlive Hopen) as (h & Ht). exists h.
    pose proof (ok_fresh _ Hok _ _ Ht) as Hfresh.
    rewrite !lookup_insert_ne by lia.
    destruct (timeoutTimers g !! idleKey id') as [h0|] eqn:Hreg; [|done].
    rewrite lookup_delete_ne; [done|]. intros <-.
    pose proof (ok_registered _ Hok _ _ _ Hreg Ht) as Hkey.
    destruct (timer_key_session_timer config k r id) as [Hid _].
    apply Hne. rewrite <- Hid. symmetry. apply timer_key_id. auto.
Qed.

Lemma covered_on_message r0 message activityAt now rid mid g :
  timers_ok g -> sessions_ok config g -> NoDup (session_ids g) ->
  covered config g ->
  covered config
    (on_message JSON_parse config r0 message activityAt now rid mid g).
Proof.
  intros Hok Hso Hnd Hcov. rewrite on_message_unfold.
  destruct (deliverable g r0) as [[c0 s0]|] eqn:Hd; [|done].
  apply deliverable_Some in Hd as (Hc0 & Hs0 & _).
  set (g1 := set_objects (insert r0 (touch activityAt c0)) g).
  destruct (resetIdleTimeout_frame config r0 (conn_id c0) g1)
    as (Hcon & _ & Hsock & _).
  intros k id r. unfold is_open. cbn [emit connections sockets timers].
  rewrite Hcon, Hsock, resetIdleTimeout_timers.
  change (next_timer g1) with (next_timer g);
  change (timeoutTimers g1) with (timeoutTimers g);
  change (timers g1) with (timers g).
  cbn [g1 set_objects connections sockets].
  intros Hlive Hopen.
  destruct (Hcov k id r Hlive Hopen) as (h & Ht).
  pose proof (ok_fresh _ Hok _ _ Ht) as Hfresh.
  destruct (timeoutTimers g !! idleKey (conn_id c0)) as [h0|] eqn:Hreg.
  - destruct (decide (h0 = h)) as [->|Hne].
    + pose proof (ok_registered _ Hok _ _ _ Hreg Ht) as Hkey.
      destruct (timer_key_session_timer config k r id) as [Hid Hk].
      rewrite Hk in Hkey. destruct k; [|by apply KeyFacts.idleKey_hardKey in Hkey].
      apply KeyFacts.idleKey_inj in Hkey.
      assert (r = r0) as ->.
      { destruct (so_live _ _ Hso _ _ Hlive) as (Hlt & Hsid & _).
        apply (session_ids_inj g); [done|done| |].
        - apply (so_objects _ _ Hso). eauto.
        - rewrite Hsid. unfold session_connectionId. by rewrite Hc0. }
      exists (next_timer g). rewrite lookup_insert_eq. cbn. by rewrite Hkey.
    + exists h. rewrite lookup_insert_ne by lia.
      by rewrite lookup_delete_ne.
  - exists h. by rewrite lookup_insert_ne by lia.
Qed.

Lemma covered_on_close r0 code reason now rid mid g :
  timers_ok g -> covered config g ->
  covered config (on_close config r0 code reason now rid mid g).
Proof.
  intros Hok Hcov. rewrite on_close_unfold.
  destruct (deliverable g r0) as [[c0 s0]|] eqn:Hd; [|done].
  set (g1 := emit (disconnect_call config r0 c0 code reason now rid mid)
               (set_sockets (insert r0 (close_socket s0)) g)).
  destruct (clearTimeouts_frame (conn_id c0) g1) as (_ & Hcon & _ & Hsock & _).
  intros k id r. unfold is_open.
  cbn [set_connections connections sockets timers].
  rewrite Hcon, Hsock. cbn [g1 emit set_sockets connections sockets].
  intros [Hne Hlive]%lookup_delete_Some Hopen.
  destruct (decide (r0 = r)) as [<-|Hr].
  { by rewrite lookup_insert_eq in Hopen. }
  rewrite lookup_insert_ne in Hopen by done.
  destruct (Hcov k id r Hlive Hopen) as (h & Ht). exists h.
  destruct (timer_key_session_timer config k r id) as [Hid _].
  apply clearTimeouts_keeps; [done| |]; cbn [g1 emit set_sockets timeoutTimers];
    intros Hreg; pose proof (ok_registered _ Hok _ _ _ Hreg Ht) as Hkey;
    apply Hne; rewrite <- Hid; symmetry; apply timer_key_id; auto.
Qed.

Lemma covered_timer_fired h0 g :
  covered config g -> covered config (timer_fired h0 g).
Proof.
  intros Hcov. unfold timer_fired.
  destruct (timers g !! h0) as [t0|] eqn:Ht0; [|done].
  assert (forall g', dims (set_timers (delete h0) g) g' ->
            (forall r, connections g !! timer_connectionId t0 = Some r ->
                       is_open g' r = false) ->
            covered config g') as Hgen.
  { intros g' Hd Hclosed k id r Hlive Hopen.
    rewrite (dims_connections _ _ Hd) in Hlive. cbn in Hlive.
    apply (dims_open _ _ Hd) in Hopen as Hopen0.
    destruct (Hcov k id r Hlive Hopen0) as (h & Ht). exists h.
    rewrite (dims_timers _ _ Hd). cbn. rewrite lookup_delete_ne; [done|].
    intros <-. assert (t0 = session_timer config k r id) as -> by congruence.
    destruct (timer_key_session_timer config k r id) as [Hid _].
    rewrite Hid in Hclosed. rewrite (Hclosed r Hlive) in Hopen. done. }
  cbn [set_timers connections].
  destruct (connections g !! timer_connectionId t0) as [r'|] eqn:Hr'.
  - apply Hgen; [apply dims_ws_close|].
    intros r [= <-]. rewrite is_open_ws_close. by rewrite decide_True.
  - apply Hgen; [apply dims_refl|]. by intros r.
Qed.

Lemma covered_step g e :
  timers_ok g -> sessions_ok config g -> NoDup (session_ids g) ->
  covered config g -> covered config (step JSON_parse config g e).
Proof.
  intros Hok Hso Hnd Hcov.
  destruct e as [req id ca la now rid mid|r0 outcome|r0 message at' now rid mid
                |r0 code reason now rid mid|h|method pathname body now|];
    cbn [step].
  - by apply covered_handleConnection.
  - eapply covered_dims; [done | apply dims_connect_settled].
  - by apply covered_on_message.
  - by apply covered_on_close.
  - by apply covered_timer_fired.
  - eapply covered_dims; [done|].
    apply (dims_request method pathname body now g).
  - intros k id r Hlive.
    by rewrite stop_connections, lookup_empty in Hlive.
Qed.

Lemma covered_run events :
  NoDup (omap upgrade_id events) ->
  covered config (run JSON_parse config events).
Proof.
  unfold run.
  assert (forall g, timers_ok g /\ sessions_ok config g ->
            NoDup (session_ids g ++ omap upgrade_id events) ->
            covered config g ->
            covered config (fold_left (step JSON_parse config) events g)) as H.
  { induction events as [|e events IH]; intros g Hok Hnd Hcov; [done|].
    cbn [fold_left]. apply IH.
    - by apply step_preserves.
    - rewrite (session_ids_step JSON_parse config) by apply Hok.
      rewrite <- app_assoc.
      cbn [omap list_omap] in Hnd. by destruct (upgrade_id e).
    - apply covered_step; [apply Hok..| |done].
      by apply NoDup_app in Hnd as (? & _ & _). }
  intros Hnd. apply H; [|done|apply covered_initial].
  split; [apply timers_ok_initial | apply sessions_ok_initial].
Qed.

End Covered.

(* ---------------------------------------------------------------------- *)
(** ** Percent-encoded identities *)
(* ---------------------------------------------------------------------- *)

Module EncodingFacts.

Lemma escape_encoded c rest :
  unreserved c = false ->
  JsURI.escape
    (String "%" (String (hex_upper (Z.of_N (N_of_ascii c) / 16))
       (String (hex_upper (Z.of_N (N_of_ascii c) mod 16)) rest)))
  = Some (Z.of_N (N_of_ascii c), rest).
Proof.
  intros _. destruct c as [[] [] [] [] [] [] [] []]; reflexivity.
Qed.

Lemma decode_unreserved c rest fuel :
  unreserved c = true ->
  JsURI.decode (S fuel) (String c rest) = String c <$> JsURI.decode fuel rest.
Proof.
  intros H. destruct c as [[] [] [] [] [] [] [] []]; try reflexivity;
    by vm_compute in H.
Qed.

Lemma decode_encode s : forall fuel,
  (String.length (encodeURIComponent s) <= fuel)%nat ->
  all_chars is_ascii s = true ->
  JsURI.decode fuel (encodeURIComponent s) = Some s.
Proof.
  induction s as [|c s IH]; intros fuel Hfuel Hs.
  - by destruct fuel.
  - cbn [all_chars] in Hs. apply andb_true_iff in Hs as [Hc Hs].
    cbn [encodeURIComponent] in *.
    destruct (unreserved c) eqn:Hu.
    + destruct fuel as [|fuel]; [cbn in Hfuel; lia|].
      rewrite decode_unreserved by done.
      rewrite IH; [done| |done]. cbn in Hfuel. lia.
    + destruct fuel as [|fuel]; [cbn in Hfuel; lia|].
      cbn [JsURI.decode]. rewrite escape_encoded by done.
      assert ((Z.of_N (N_of_ascii c) <? 128) = true) as ->.
      { unfold is_ascii in Hc. apply N.ltb_lt in Hc. apply Z.ltb_lt. lia. }
      rewrite IH; [|cbn in Hfuel; lia|done].
      cbn. by rewrite N2Z.id, ascii_N_embedding.
Qed.

Lemma encode_line_free s :
  JsString.has_line_terminator (encodeURIComponent s) = false.
Proof.
  induction s as [|c s IH]; [done|]. cbn [encodeURIComponent].
  destruct (unreserved c) eqn:Hu.
  - destruct c as [[] [] [] [] [] [] [] []]; try by vm_compute in Hu.
    all: cbn [JsString.has_line_terminator JsString.strip_prefix Ascii.eqb
              Bool.eqb orb andb]; exact IH.
  - cbn [JsString.has_line_terminator JsString.strip_prefix Ascii.eqb
         Bool.eqb orb andb].
    destruct c as [[] [] [] [] [] [] [] []]; exact IH.
Qed.

Lemma encode_nonempty s : s <> "" -> encodeURIComponent s <> "".
Proof.
  destruct s as [|c s]; [done|]. intros _. cbn [encodeURIComponent].
  by destruct (unreserved c).
Qed.

Lemma encode_unreserved s :
  all_chars unreserved s = true -> encodeURIComponent s = s.
Proof.
  induction s as [|c s IH]; [done|]. cbn [all_chars encodeURIComponent].
  intros [Hc Hs]%andb_true_iff. by rewrite Hc, IH.
Qed.

Lemma encode_app a b :
  encodeURIComponent (a ++ b) = (encodeURIComponent a ++ encodeURIComponent b)%string.
Proof.
  induction a as [|c a IH]; [done|].
  rewrite KeyFacts.append_cons. cbn [encodeURIComponent].
  destruct (unreserved c); by rewrite IH.
Qed.

Lemma alnum_unreserved c : is_alnum c = true -> unreserved c = true.
Proof. intros H. unfold unreserved. by rewrite H. Qed.

End EncodingFacts.

(* ---------------------------------------------------------------------- *)
(** ** Malformed escapes *)
(* ---------------------------------------------------------------------- *)

Lemma decode_plain_char c rest fuel :
  plain_char c = true ->
  JsURI.decode (S fuel) (String c rest) = String c <$> JsURI.decode fuel rest.
Proof.
  intros H. destruct c as [[] [] [] [] [] [] [] []]; try reflexivity;
    by vm_compute in H.
Qed.

Lemma decode_malformed a t : forall fuel,
  (String.length a < fuel)%nat ->
  all_chars plain_char a = true ->
  JsURI.escape (String "%" t) = None ->
  JsURI.decode fuel (a ++ String "%" t) = None.
Proof.
  induction a as [|c a IH]; intros fuel Hfuel Ha Hesc.
  - rewrite KeyFacts.append_nil. destruct fuel as [|fuel]; [cbn in Hfuel; lia|].
    cbn [JsURI.decode]. by rewrite Hesc.
  - cbn [all_chars] in Ha. apply andb_true_iff in Ha as [Hc Ha].
    destruct fuel as [|fuel]; [cbn in Hfuel; lia|].
    rewrite KeyFacts.append_cons, decode_plain_char by done.
    rewrite IH; [done| |done|done]. cbn in Hfuel. lia.
Qed.

(* ---------------------------------------------------------------------- *)
(** ** The listeners *)
(* ---------------------------------------------------------------------- *)

Lemma received_body_app Buffer_toString chunks : forall body,
  fold_left (λ body chunk, (body ++ Buffer_toString chunk)%string) chunks body
  = (body ++ Listener.received_body Buffer_toString chunks)%string.
Proof.
  unfold Listener.received_body.
  induction chunks as [|chunk chunks IH]; intros body; cbn [fold_left].
  - by rewrite GeneratorFacts.append_empty_r.
  - rewrite IH, (IH (_ ++ _)%string), KeyFacts.append_nil.
    by rewrite GeneratorFacts.append_assoc.
Qed.

Lemma received_body_well_formed Buffer_toString chunks :
  Forall (λ chunk, Buffer_toString chunk = chunk) chunks ->
  Listener.received_body Buffer_toString chunks = String.concat "" chunks.
Proof.
  induction 1 as [|chunk chunks Hc _ IH]; [done|].
  unfold Listener.received_body. cbn [fold_left].
  rewrite received_body_app, IH, KeyFacts.append_nil, Hc.
  destruct chunks as [|c' chunks']; [|done].
  cbn. by rewrite GeneratorFacts.append_empty_r.
Qed.

Lemma handleHttpRequest_outcome method pathname body now g :
  let out := handleHttpRequest method pathname body now g in
  (out.2 = g
   \/ (method = "POST" /\ out.1 = Normal (empty_response 200))
   \/ (method = "DELETE" /\ out.1 = Normal (empty_response 204)))
  /\ connections out.2 = connections g
  /\ match out.1 with
     | Normal res => res_status res ∈ [200; 204; 404; 405; 410]
     | Throw error => error = "URIError"
     end.
Proof.
  cbv zeta. split; [|split].
  - unfold handleHttpRequest. destruct (_ && _); [by left|].
    destruct (match_connections_path pathname) as [group|]; [|by left].
    destruct (JsURI.decodeURIComponent group) as [id|]; [|by left].
    unfold handleManagementApi, post_end.
    destruct (connections_get g id) as [[r c]|];
      repeat case_bool_decide; try destruct (is_open g r); cbn; auto.
  - apply (quiet_connections _ _
             (quiet_handleHttpRequest method pathname body now g)).
  - unfold handleHttpRequest. destruct (_ && _); [cbn; repeat constructor|].
    destruct (match_connections_path pathname) as [group|];
      [|cbn; repeat constructor].
    destruct (JsURI.decodeURIComponent group) as [id|]; [|done].
    unfold handleManagementApi, post_end.
    destruct (connections_get g id) as [[r c]|];
      repeat case_bool_decide; try destruct (is_open g r); cbn;
      repeat constructor.
Qed.

Lemma extends_listener_step URL_parse Buffer_toString JSON_parse config g d :
  extends (allowed JSON_parse config) g
          (Listener.step URL_parse Buffer_toString JSON_parse config g d).
Proof.
  unfold Listener.step.
  destruct (Listener.parsed URL_parse Buffer_toString config d) as [e|].
  - apply extends_step.
  - apply extends_emit. cbn. repeat constructor.
Qed.

(* ---------------------------------------------------------------------- *)
(** ** DISCONNECT events in the trace *)
(* ---------------------------------------------------------------------- *)









(* ---------------------------------------------------------------------- *)
(** ** The timers of an admission and of a frame *)
(* ---------------------------------------------------------------------- *)

Section TimerSteps.

Variable JSON_parse : string -> option json.
Variable config : GatewayConfig.

Lemma handleConnection_timers req id ca la now rid mid g :
  let g' := handleConnection config req id ca la now rid mid g in
  omap hard_timer_scheduled (trace g')
  = (omap hard_timer_scheduled (trace g) ++ [hard_timer config (next_ref g) id])%list
  /\ timers g' !! S (next_timer g) = Some (hard_timer config (next_ref g) id)
  /\ timeoutTimers g' !! hardKey id = Some (S (next_timer g))
  /\ connections g' !! id = Some (next_ref g).
Proof.
  cbv zeta. rewrite handleConnection_unfold.
  set (a := admitted req id ca la g).
  match goal with
  | |- context [set_connecting ?f (emit ?e ?x)] =>
      destruct (announce_frame f e x) as (-> & -> & _ & _ & -> & _ & _ & ->)
  end.
  destruct (setupTimeouts_frame config (next_ref g) id a) as (-> & _).
  rewrite setupTimeouts_trace, resetIdleTimeout_trace, setupTimeouts_timers,
    setupTimeouts_timeoutTimers.
  replace (next_timer a) with (next_timer g) by done.
  replace (trace a) with (trace g) by done.
  split.
  { rewrite !omap_app. cbn [omap list_omap hard_timer_scheduled].
    destruct (timeoutTimers a !! idleKey id); cbn; by rewrite !app_nil_r. }
  split; [by rewrite lookup_insert_eq|].
  split; [by rewrite lookup_insert_eq|].
  unfold a. cbn [admitted connections]. by rewrite lookup_insert_eq.
Qed.

Lemma on_message_timers r message activityAt now rid mid g c s :
  deliverable g r = Some (c, s) ->
  let g' := on_message JSON_parse config r message activityAt now rid mid g in
  timers g'
  = <[next_timer g := idle_timer config r (conn_id c)]>
      (match timeoutTimers g !! idleKey (conn_id c) with
       | Some h => delete h (timers g)
       | None => timers g
       end)
  /\ timeoutTimers g'
     = <[idleKey (conn_id c) := next_timer g]> (timeoutTimers g)
  /\ omap hard_timer_scheduled (trace g') = omap hard_timer_scheduled (trace g).
Proof.
  intros Hd. cbv zeta. rewrite on_message_unfold, Hd.
  set (g1 := set_objects (insert r (touch activityAt c)) g).
  cbn [emit timers timeoutTimers trace].
  rewrite resetIdleTimeout_timers, resetIdleTimeout_timeoutTimers,
    resetIdleTimeout_trace.
  split; [done|]. split; [done|].
  rewrite !omap_app. cbn [omap list_omap hard_timer_scheduled g1 set_objects trace].
  destruct (timeoutTimers _ !! idleKey (conn_id c)); cbn; by rewrite !app_nil_r.
Qed.

End TimerSteps.

(* ====================================================================== *)
(** * The claims *)
(* ====================================================================== *)



(** C2, the code at the failing input.  With the integration mode set to
    [http] the dispatcher makes the very call it makes in lambda-proxy mode:
    the only header is [Content-Type: application/json] and the body is the
    serialised Lambda event, not the frame text; nothing of the context is
    put in headers and no query is added to the URL. *)
Theorem callBackend_ignores_integrationMode (config : GatewayConfig)
    (routeKey : string) (connection : Connection) (body : option string)
    (options : option DisconnectOptions) (now : Z)
    (requestId messageId : string) :
  callBackend (with_integrationMode http config) routeKey connection body
              options now requestId messageId
  = callBackend (with_integrationMode lambda_proxy config) routeKey connection
                body options now requestId messageId
  /\ match callBackend (with_integrationMode http config) routeKey connection
                       body options now requestId messageId with
     | NotSent => True
     | Fetch url init =>
         fetch_headers init = [("Content-Type", "application/json")]
         /\ fetch_body init
            = buildLambdaEvent (with_integrationMode http config) connection
                routeKey (getEventType routeKey) body options
                now requestId messageId
     end.
Proof.
  split; [reflexivity|].
  unfold callBackend. by destruct (negb _).
Qed.

(** C3, counterexample.  With a route table that holds [$default] only, the
    [$connect] event is POSTed to the [$default] integration. *)
Lemma connect_falls_back_to_default :
  routes only_default !! "$connect" = None
  /\ callBackend only_default "$connect" sample_connection None None
                 1001 "r1" "m1"
     = post_of only_default "http://localhost:8080/ws/default" "$connect"
               sample_connection None None 1001 "r1" "m1".
Proof. apply conj; vm_compute; reflexivity. Qed.

(** C3, as amended.  A [$connect] or [$disconnect] dispatch goes to the
    integration of its own key when the table has one, to the [$default]
    integration otherwise, and fails without being sent only when the table
    has neither: the same resolution as for message routes. *)
Theorem lifecycle_route_resolution (config : GatewayConfig)
    (connection : Connection) (body : option string)
    (options : option DisconnectOptions) (now : Z)
    (requestId messageId : string) :
  callBackend config "$connect" connection body options now requestId messageId
  = match routes config !! "$connect" with
    | Some i => post_of config (uri i) "$connect" connection body options
                        now requestId messageId
    | None =>
        match routes config !! "$default" with
        | Some i => post_of config (uri i) "$connect" connection body options
                            now requestId messageId
        | None => NotSent
        end
    end
  /\ callBackend config "$disconnect" connection body options
                 now requestId messageId
     = match routes config !! "$disconnect" with
       | Some i => post_of config (uri i) "$disconnect" connection body options
                           now requestId messageId
       | None =>
           match routes config !! "$default" with
           | Some i => post_of config (uri i) "$disconnect" connection body
                               options now requestId messageId
           | None => NotSent
           end
       end.
Proof.
  split; apply callBackend_resolution;
    apply (bool_decide_eq_false_1 _); reflexivity.
Qed.

(** C4, the code at the failing input.  A POST to the session just admitted
    answers 200, writes the body to the socket and sets [lastActivityAt],
    and that is all: the idle timer scheduled at admission is still the one
    pending and registered; it was neither cancelled nor rescheduled. *)
Theorem post_leaves_idle_timer :
  let request := handleHttpRequest "POST" "/@connections/AbCdEfGh1234="
                                   "hello" 5000 connected in
  request.1 = Normal (empty_response 200)
  /\ conn_lastActivityAt <$> objects request.2 !! 0%nat = Some 5000
  /\ trace request.2 = (trace connected ++ [WsSend 0 "hello"])%list
  /\ timeoutTimers request.2 = timeoutTimers connected
  /\ timers request.2 = timers connected
  /\ timeoutTimers connected !! idleKey sample_id = Some 0%nat
  /\ timers connected !! 0%nat = Some (idle_timer DEFAULT_CONFIG 0 sample_id).
Proof.
  cbv zeta. repeat (apply conj; [vm_compute; reflexivity|]).
  vm_compute; reflexivity.
Qed.

(** C5, the code at the failing input.  After a management DELETE the
    socket of the session is CLOSING, no longer open, and the session is
    still in the live set; a GET for it answers 200 with the session's
    times, where POST and DELETE answer 410. *)
Theorem get_on_closing_socket :
  readyState <$> sockets deleted !! 0%nat = Some CLOSING
  /\ is_open deleted 0 = false
  /\ (handleHttpRequest "GET" "/@connections/AbCdEfGh1234=" "" 1600 deleted).1
     = Normal (json_response 200 (InfoBody sample_id 1000 1000))
  /\ (handleHttpRequest "POST" "/@connections/AbCdEfGh1234=" "x" 1600 deleted).1
     = Normal (Gone sample_id)
  /\ (handleHttpRequest "DELETE" "/@connections/AbCdEfGh1234=" "" 1600 deleted).1
     = Normal (Gone sample_id).
Proof.
  cbv zeta. repeat (apply conj; [vm_compute; reflexivity|]).
  vm_compute; reflexivity.
Qed.

(** C6, the code at the failing input.  With the expression
    [$request.body.action] and the default route table, the frame whose
    [action] is the string [constructor] selects the route [constructor],
    which is no key of the table. *)
Theorem selectRoute_inherited_member :
  selectRoute (parses_action (action_frame "constructor") "constructor")
              by_action (action_frame "constructor")
  = "constructor"
  /\ routes by_action !! "constructor" = None.
Proof. apply conj; vm_compute; reflexivity. Qed.

(** C7, the code at the failing input.  With the expression
    [$request.body.action], a client frame whose [action] is [$connect] is
    POSTed as a second CONNECT event of the session, and its body is the
    frame text. *)
Theorem frame_routed_to_connect :
  let frame := action_frame "$connect" in
  let g := run (parses_action frame "$connect") by_action
               [Upgrade sample_request sample_id 1000 1000 1001 "r1" "m1";
                Message 0 frame 1500 1501 "r2" "m2"] in
  (λ p, (p.1, ctx_routeKey (ev_requestContext p.2),
         ctx_eventType (ev_requestContext p.2), ev_body p.2))
    <$> omap posted_event (trace g)
  = [(0%nat, "$connect", CONNECT, None);
     (0%nat, "$connect", CONNECT, Some frame)].
Proof. vm_compute. reflexivity. Qed.

(** C8, the code on the claim and at the failing input.  In every reachable
    state: the sessions are those of the upgrades, in order, and the hard
    timers scheduled so far are exactly one per session, each for
    [hardTimeout] seconds and for the identity of its session; an upgrade
    schedules that timer, pending and registered under [<id>:hard]; every
    session has at most one pending timer of each kind; the timer table has
    no keys but [<id>:idle] and [<id>:hard], and a pending idle timer is the
    one registered under its key; an idle reset cancels the registered idle
    timer, then schedules the new one; an inbound frame resets the idle
    timer of its session so, schedules no hard timer and leaves every
    pending hard timer pending and every hard entry of the table as it is.
    A management request touches no timer at all, neither hard nor idle:
    after a POST to the session just admitted the idle timer of the
    admission is still the one pending, where a frame replaces it. *)
Theorem hard_timer_scheduled_once (JSON_parse : string -> option json)
    (config : GatewayConfig) (events : list Event) :
  let g := run JSON_parse config events in
  omap hard_timer_scheduled (trace g)
  = map (λ r, hard_timer config r (session_connectionId g r))
        (seq 0 (next_ref g))
  /\ map (session_connectionId g) (seq 0 (next_ref g)) = omap upgrade_id events
  /\ (forall req id connectedAt lastActivityAt now requestId messageId,
        let g' := step JSON_parse config g
                    (Upgrade req id connectedAt lastActivityAt now
                             requestId messageId) in
        omap hard_timer_scheduled (trace g')
        = (omap hard_timer_scheduled (trace g)
           ++ [hard_timer config (next_ref g) id])%list
        /\ timers g' !! S (next_timer g)
           = Some (hard_timer config (next_ref g) id)
        /\ timeoutTimers g' !! hardKey id = Some (S (next_timer g))
        /\ connections g' !! id = Some (next_ref g))
  /\ (forall r, is_Some (objects g !! r) <-> (r < next_ref g)%nat)
  /\ (forall h1 h2 t1 t2,
        timers g !! h1 = Some t1 -> timers g !! h2 = Some t2 ->
        timer_session t1 = timer_session t2 ->
        timer_kind t1 = timer_kind t2 -> h1 = h2)
  /\ (forall k h, timeoutTimers g !! k = Some h ->
        exists id, k = idleKey id \/ k = hardKey id)
  /\ (forall h t, timers g !! h = Some t -> timer_kind t = Idle ->
        timeoutTimers g !! idleKey (timer_connectionId t) = Some h)
  /\ (forall r id,
        trace (resetIdleTimeout config r id g)
        = (trace g
           ++ match timeoutTimers g !! idleKey id with
              | Some h => [ClearTimeout h]
              | None => []
              end
           ++ [SetTimeout (next_timer g) (idle_timer config r id)])%list)
  /\ (forall r message activityAt now requestId messageId c s,
        deliverable g r = Some (c, s) ->
        let g' := step JSON_parse config g
                    (Message r message activityAt now requestId messageId) in
        timers g'
        = <[next_timer g := idle_timer config r (conn_id c)]>
            (match timeoutTimers g !! idleKey (conn_id c) with
             | Some h => delete h (timers g)
             | None => timers g
             end)
        /\ timeoutTimers g'
           = <[idleKey (conn_id c) := next_timer g]> (timeoutTimers g)
        /\ omap hard_timer_scheduled (trace g')
           = omap hard_timer_scheduled (trace g))
  /\ (forall e h t id,
        match e with
        | Message _ _ _ _ _ _ | Request _ _ _ _ =>
            (timers g !! h = Some t -> timer_kind t = Hard ->
             timers (step JSON_parse config g e) !! h = Some t)
            /\ timeoutTimers (step JSON_parse config g e) !! hardKey id
               = timeoutTimers g !! hardKey id
        | _ => True
        end)
  /\ (forall method pathname body now,
        let g' := step JSON_parse config g (Request method pathname body now) in
        timers g' = timers g /\ timeoutTimers g' = timeoutTimers g)
  /\ (let posted := step no_json DEFAULT_CONFIG connected
                      (Request "POST" "/@connections/AbCdEfGh1234=" "hello"
                               5000) in
      let framed := step no_json DEFAULT_CONFIG connected
                      (Message 0 "hello" 5000 5001 "r2" "m2") in
      timers connected !! 0%nat = Some (idle_timer DEFAULT_CONFIG 0 sample_id)
      /\ trace posted
         = (trace connected
            ++ [WsSend 0 "hello"; Respond (empty_response 200)])%list
      /\ timers posted = timers connected
      /\ timeoutTimers posted = timeoutTimers connected
      /\ timers framed !! 0%nat = None
      /\ timers framed !! 2%nat = Some (idle_timer DEFAULT_CONFIG 0 sample_id)
      /\ timeoutTimers framed !! idleKey sample_id = Some 2%nat).
Proof.
  cbv zeta. destruct (run_ok JSON_parse config events) as [Hok Hso].
  split; [apply (so_hard_log _ _ Hso)|].
  split; [apply (session_ids_run JSON_parse config events)|].
  split; [intros; apply handleConnection_timers|].
  split; [apply (so_objects _ _ Hso)|].
  split.
  { intros h1 h2 t1 t2 H1 H2 Hs Hk.
    destruct (timer_kind t1) eqn:K1.
    - pose proof (ok_idle _ Hok _ _ H1 K1) as R1.
      pose proof (ok_idle _ Hok _ _ H2 (eq_sym Hk)) as R2.
      destruct (ok_owner _ Hok _ _ H1) as [_ O1].
      destruct (ok_owner _ Hok _ _ H2) as [_ O2].
      rewrite <- O1, Hs, O2, R2 in R1. congruence.
    - by apply (ok_hard _ Hok _ _ _ _ H1 H2). }
  split; [intros k h H; by apply (ok_keys _ Hok) in H as [_ ?]|].
  split; [apply (ok_idle _ Hok)|].
  split; [intros; apply resetIdleTimeout_trace|].
  split; [intros r message activityAt now rid mid c s Hd;
          apply (on_message_timers JSON_parse config r message activityAt
                   now rid mid _ c s Hd)|].
  split.
  { intros e h t id.
    destruct e as [| |r message activityAt now rid mid| |
                   |method pathname body now|];
      try done; cbn [step].
    - destruct (on_message_hard JSON_parse config r message activityAt now
                                rid mid _ Hok) as [Ht Hk].
      split; [apply Ht | apply Hk].
    - destruct (request_timers JSON_parse config method pathname body now
                               (run JSON_parse config events)) as [Ht Hk].
      cbn [step] in Ht, Hk. by rewrite Ht, Hk. }
  split; [intros; apply request_timers|].
  repeat (apply conj; [vm_compute; reflexivity|]).
  vm_compute; reflexivity.
Qed.

(** C9, counterexample.  At the first millisecond of the year 10000 the
    [requestTime] of an event is [01/Jan/10000:00:00:00 +0000], which the
    pattern does not match. *)
Lemma requestTime_five_digit_year :
  ctx_requestTime
    (buildRequestContext DEFAULT_CONFIG sample_connection "$connect" CONNECT
                         None 253402300800000 "r1" "m1")
  = "01/Jan/10000:00:00:00 +0000"
  /\ Regex.test requestTime_regex
       (ctx_requestTime
          (buildRequestContext DEFAULT_CONFIG sample_connection "$connect"
                               CONNECT None 253402300800000 "r1" "m1"))
     = false.
Proof. apply conj; vm_compute; reflexivity. Qed.

(** C9, as amended.  When the clock reads a time whose UTC year has four
    digits, the [requestTime] of the event matches the pattern, and read
    back as a UTC time it is the [requestTimeEpoch] of the same event with
    the milliseconds dropped, so within two seconds of it. *)
Theorem requestTime_format (config : GatewayConfig) (connection : Connection)
    (routeKey : string) (eventType : EventType)
    (options : option DisconnectOptions) (now : Z)
    (requestId messageId : string) :
  1000 <= JsDate.getUTCFullYear now <= 9999 ->
  let context := buildRequestContext config connection routeKey eventType
                                     options now requestId messageId in
  Regex.test requestTime_regex (ctx_requestTime context) = true
  /\ decodeRequestTime (ctx_requestTime context)
     = Some (1000 * (ctx_requestTimeEpoch context / 1000))
  /\ Z.abs (1000 * (ctx_requestTimeEpoch context / 1000)
            - ctx_requestTimeEpoch context) <= 2000.
Proof.
  intros Hy. cbv zeta. cbn [buildRequestContext ctx_requestTime ctx_requestTimeEpoch].
  destruct (TimeFacts.formatRequestTime_spec now Hy) as [Htest Hdecode].
  split; [done|]. split; [done|]. div_lia.
Qed.

Lemma requestTime_format_witness :
  1000 <= JsDate.getUTCFullYear 1707502303000 <= 9999
  /\ Regex.test requestTime_regex
       (ctx_requestTime
          (buildRequestContext DEFAULT_CONFIG sample_connection "$default"
                               MESSAGE None 1707502303000 "r1" "m1"))
     = true.
Proof.
  assert (1000 <= JsDate.getUTCFullYear 1707502303000 <= 9999) as Hy
    by (vm_compute; split; discriminate).
  split; [exact Hy|].
  exact (proj1 (requestTime_format DEFAULT_CONFIG sample_connection "$default"
                  MESSAGE None 1707502303000 "r1" "m1" Hy)).
Defined.

(** C10.  For the path [/@connections/%] the captured group is [%], which
    [decodeURIComponent] rejects with a [URIError]; the handler throws it
    before any response is written, for every method, and the request ends
    without a response. *)
Theorem malformed_percent_encoding_throws (JSON_parse : string -> option json)
    (config : GatewayConfig) (method body : string) (now : Z) (g : Gateway) :
  match_connections_path "/@connections/%" = Some "%"
  /\ JsURI.decodeURIComponent "%" = None
  /\ handleHttpRequest method "/@connections/%" body now g
     = (Throw "URIError", g)
  /\ trace (step JSON_parse config g
                 (Request method "/@connections/%" body now))
     = (trace g ++ [Uncaught "URIError"])%list.
Proof.
  assert (handleHttpRequest method "/@connections/%" body now g
          = (Throw "URIError", g)) as H.
  { unfold handleHttpRequest.
    replace (bool_decide ("/@connections/%" = "/health")) with false
      by reflexivity.
    by rewrite andb_false_r. }
  split; [reflexivity|]. split; [reflexivity|]. split; [exact H|].
  cbn [step]. by rewrite H.
Qed.

(* ====================================================================== *)
(** * Further properties of the code *)
(* ====================================================================== *)

(** X1.  The payload built for a session that [handleConnection] created:
    the multi-value headers have the keys of the headers, each with the
    one-element array of the header; the headers are those captured at
    connect time; [queryStringParameters] is null exactly when no parameter
    was captured, and the captured map otherwise; the body is the one the
    caller passed; [isBase64Encoded] is false. *)
Theorem lambda_event_shape (config : GatewayConfig) (req : UpgradeRequest)
    (connectionId : string) (ws : nat) (connectedAt lastActivityAt : Z)
    (routeKey : string) (eventType : EventType) (body : option string)
    (options : option DisconnectOptions) (now : Z)
    (requestId messageId : string) :
  let connection := newConnection req connectionId ws connectedAt lastActivityAt in
  let event := buildLambdaEvent config connection routeKey eventType body
                                options now requestId messageId in
  (forall k, ev_multiValueHeaders event !! k = (λ v, [v]) <$> ev_headers event !! k)
  /\ ev_headers event = conn_headers connection
  /\ ev_queryStringParameters event
     = (if bool_decide (conn_queryParams connection = ∅) then None
        else Some (conn_queryParams connection))
  /\ ev_body event = body
  /\ ev_isBase64Encoded event = false.
Proof.
  cbv zeta. split; [intros k; apply multiValueHeaders_of_parsed|].
  split; [done|]. split; [apply queryStringParameters_null|]. done.
Qed.

(** X2.  GET, POST and DELETE on a session absent from the live set answer
    410 with the Gone body and change nothing; so do POST and DELETE on a
    session whose socket is not open. *)
Theorem gone_for_absent_and_closed (method connectionId body : string)
    (now : Z) (g : Gateway) :
  (connections g !! connectionId = None ->
   method ∈ ["GET"; "POST"; "DELETE"] ->
   handleManagementApi method connectionId body now g = (Gone connectionId, g))
  /\ (forall r, connections g !! connectionId = Some r ->
        is_open g r = false ->
        method ∈ ["POST"; "DELETE"] ->
        handleManagementApi method connectionId body now g
        = (Gone connectionId, g)).
Proof.
  split.
  - intros Habsent Hm. unfold handleManagementApi, post_end, connections_get.
    rewrite Habsent.
    repeat (apply elem_of_cons in Hm as [->|Hm]; [by vm_compute|]).
    by apply elem_of_nil in Hm.
  - intros r Hr Hopen Hm. unfold handleManagementApi, post_end, connections_get.
    rewrite Hr.
    repeat (apply elem_of_cons in Hm as [->|Hm];
            [cbn; destruct (objects g !! r); rewrite ?Hopen; reflexivity|]).
    by apply elem_of_nil in Hm.
Qed.

(** X3.  Route selection, case by case: [$default] without an expression
    and for a frame that is not JSON; otherwise, for an expression of the
    form [$request.body.<path>], [$default] when the walk stops early or
    ends on anything but a string, the string itself when it is a key of the
    table or the name of a member inherited from [Object.prototype], and
    [$default] for any other string. *)
Theorem selectRoute_cases (JSON_parse : string -> option json)
    (config : GatewayConfig) (message : string) :
  (routeSelectionExpression config = None ->
   selectRoute JSON_parse config message = "$default")
  /\ (JSON_parse message = None ->
      selectRoute JSON_parse config message = "$default")
  /\ (forall expr group parsed,
        routeSelectionExpression config = Some expr ->
        match_request_body expr = Some group ->
        JSON_parse message = Some parsed ->
        selectRoute JSON_parse config message
        = match walk (JsString.split "." group) (VJson parsed) with
          | Some (VJson (JStr value)) =>
              if decide (is_Some (routes config !! value)) then value
              else if JsObject.inherits_from_Object value then value
              else "$default"
          | _ => "$default"
          end).
Proof.
  split; [apply selectRoute_unconfigured|].
  split; [apply selectRoute_not_json|].
  intros expr group parsed He Hg Hp. unfold selectRoute.
  rewrite He, Hp, Hg. case_bool_decide as Hempty; [by subst expr|].
  destruct (walk _ _) as [[[]| | |]|]; try done.
  unfold JsObject.get.
  destruct (routes config !! s) as [i|] eqn:Hi.
  - rewrite decide_True by eauto. done.
  - rewrite decide_False by (by intros []).
    by destruct (JsObject.inherits_from_Object s).
Qed.

(** X4.  No management request (GET, POST, DELETE or any other method, on
    any session) schedules, cancels or re-registers a timer. *)
Theorem management_keeps_timers (method connectionId body : string) (now : Z)
    (g : Gateway) :
  timers (handleManagementApi method connectionId body now g).2 = timers g
  /\ timeoutTimers (handleManagementApi method connectionId body now g).2
     = timeoutTimers g.
Proof. apply handleManagementApi_timers. Qed.

(** X5.  Whatever the random draws, a generated connection identity (and a
    message identity, which is generated the same way) has thirteen
    characters: twelve letters or digits, then [=]. *)
Theorem generateConnectionId_format (draw : nat -> Z) :
  (forall i, (i < 12)%nat -> 0 <= draw i < 62) ->
  String.length (generateConnectionId draw) = 13%nat
  /\ all_chars is_alnum (substring 0 12 (generateConnectionId draw)) = true
  /\ substring 12 1 (generateConnectionId draw) = "="
  /\ generateMessageId draw = generateConnectionId draw.
Proof.
  intros Hdraw.
  destruct (GeneratorFacts.generateConnectionId_spec draw Hdraw)
    as (s & Hid & Hlen & Hs).
  unfold generateMessageId. rewrite Hid.
  split; [by rewrite KeyFacts.length_append, Hlen|].
  split; [by rewrite <- Hlen, GeneratorFacts.substring_app_l|].
  split; [|done].
  rewrite <- Hlen. apply (GeneratorFacts.substring_app_r s "=").
Qed.

Lemma generateConnectionId_format_witness :
  (forall i, (i < 12)%nat -> 0 <= Z.of_nat i < 62)
  /\ String.length (generateConnectionId Z.of_nat) = 13%nat.
Proof.
  assert (forall i, (i < 12)%nat -> 0 <= Z.of_nat i < 62) as H by (intros; lia).
  split; [exact H|].
  exact (proj1 (generateConnectionId_format Z.of_nat H)).
Defined.

(** X6.  Whatever the random draws, a generated request identity has the
    layout of a version-4 UUID: 36 characters, hyphens after the 8th, 12th,
    16th and 20th digit, hexadecimal digits in lower case elsewhere, of
    which the 13th is [4] and the 17th one of [8], [9], [a], [b]. *)
Theorem generateRequestId_format (draw : nat -> Z) :
  (forall k, 0 <= draw k < 16) ->
  fits "xxxxxxxx-xxxx-4xxx-yxxx-xxxxxxxxxxxx" (generateRequestId draw) = true
  /\ String.length (generateRequestId draw) = 36%nat.
Proof.
  intros Hdraw. unfold generateRequestId.
  destruct (GeneratorFacts.replace_xy_fits
              draw "xxxxxxxx-xxxx-4xxx-yxxx-xxxxxxxxxxxx" 0%nat Hdraw) as [Hfit Hlen].
  split; [exact Hfit | exact Hlen].
Qed.

Lemma generateRequestId_format_witness :
  (forall k : nat, 0 <= always 11 k < 16)
  /\ fits "xxxxxxxx-xxxx-4xxx-yxxx-xxxxxxxxxxxx" (generateRequestId (always 11))
     = true.
Proof.
  assert (forall k : nat, 0 <= always 11 k < 16) as H
    by (intros; unfold always; lia).
  split; [exact H|].
  exact (proj1 (generateRequestId_format (always 11) H)).
Defined.

(** X7.  A generated connection identity needs no escaping in a management
    URL: the request for [/@connections/<id>] reaches the management
    handler with that very identity, for every method. *)
Theorem generated_id_in_path (draw : nat -> Z) (method body : string) (now : Z)
    (g : Gateway) :
  (forall i, (i < 12)%nat -> 0 <= draw i < 62) ->
  let id := generateConnectionId draw in
  match_connections_path ("/@connections/" ++ id) = Some id
  /\ JsURI.decodeURIComponent id = Some id
  /\ handleHttpRequest method ("/@connections/" ++ id) body now g
     = (Normal (handleManagementApi method id body now g).1,
        (handleManagementApi method id body now g).2).
Proof.
  intros Hdraw id.
  destruct (GeneratorFacts.generateConnectionId_spec draw Hdraw)
    as (s & Hid & Hlen & Hs).
  assert (id <> "") as Hne.
  { unfold id. rewrite Hid. destruct s; [done|]. by rewrite KeyFacts.append_cons. }
  assert (all_chars plain_char id = true) as Hplain.
  { unfold id. rewrite Hid, GeneratorFacts.all_chars_app.
    rewrite (GeneratorFacts.all_chars_impl is_alnum plain_char s
               GeneratorFacts.alnum_plain Hs). done. }
  destruct (GeneratorFacts.connections_path_plain id Hne Hplain) as [Hm Hd].
  split; [done|]. split; [done|].
  unfold handleHttpRequest. rewrite Hm, Hd.
  replace (bool_decide (("/@connections/" ++ id)%string = "/health")) with false;
    [|symmetry; apply bool_decide_eq_false_2; by rewrite KeyFacts.append_cons].
  rewrite andb_false_r. by destruct (handleManagementApi _ _ _ _ _).
Qed.

Lemma generated_id_in_path_witness :
  (forall i, (i < 12)%nat -> 0 <= Z.of_nat i < 62)
  /\ match_connections_path ("/@connections/" ++ generateConnectionId Z.of_nat)
     = Some (generateConnectionId Z.of_nat).
Proof.
  assert (forall i, (i < 12)%nat -> 0 <= Z.of_nat i < 62) as H by (intros; lia).
  split; [exact H|].
  exact (proj1 (generated_id_in_path Z.of_nat "GET" "" 0 initial H)).
Defined.

(** X8.  Every call of the backend in a run is made for the session of the
    handler that makes it: it is a POST with the one header
    [Content-Type: application/json] whose event carries the identity, the
    connect time, the headers, the query parameters, the source address
    and the user agent the session captured at admission, the route key and
    the body the handler passed, the event type of that route key, and the
    stage, domain name and API identity of the configuration; the request
    time is the formatted clock reading, and the request identity is also
    the extended one. *)
Theorem posted_event_of_session (JSON_parse : string -> option json)
    (config : GatewayConfig) (events : list Event) (r : nat)
    (routeKey : string) (body : option string)
    (options : option DisconnectOptions) (url : option string)
    (init : FetchInit) :
  let g := run JSON_parse config events in
  CallBackend r routeKey body options (Fetch url init) ∈ trace g ->
  exists c,
    objects g !! r = Some c
    /\ fetch_method init = "POST"
    /\ fetch_headers init = [("Content-Type", "application/json")]
    /\ let event := fetch_body init in
       let context := ev_requestContext event in
       ctx_connectionId context = conn_id c
       /\ ctx_connectedAt context = conn_connectedAt c
       /\ ctx_identity context
          = {| id_sourceIp := conn_sourceIp c; id_userAgent := conn_userAgent c |}
       /\ ev_headers event = conn_headers c
       /\ ev_queryStringParameters event
          = (if bool_decide (conn_queryParams c = ∅) then None
             else Some (conn_queryParams c))
       /\ ctx_routeKey context = routeKey
       /\ ctx_eventType context = getEventType routeKey
       /\ ev_body event = body
       /\ ctx_stage context = stage config
       /\ ctx_domainName context = domainName config
       /\ ctx_apiId context = apiId config
       /\ ctx_messageDirection context = "IN"
       /\ ctx_requestTime context
          = formatRequestTime (ctx_requestTimeEpoch context)
       /\ ctx_requestId context = ctx_extendedRequestId context.
Proof.
  intros g Hin.
  pose proof (dispatches_run JSON_parse config events) as Hall.
  rewrite Forall_forall in Hall. specialize (Hall _ Hin).
  destruct Hall as (c & c0 & now & rid & mid & Hc & E & Hd).
  exists c. split; [exact Hc|].
  unfold callBackend in Hd. destruct (negb _); [done|].
  injection Hd as _ ->. cbn.
  assert (conn_id c0 = conn_id c) as -> by (by injection E).
  assert (conn_connectedAt c0 = conn_connectedAt c) as -> by (by injection E).
  assert (conn_sourceIp c0 = conn_sourceIp c) as -> by (by injection E).
  assert (conn_userAgent c0 = conn_userAgent c) as -> by (by injection E).
  assert (conn_headers c0 = conn_headers c) as -> by (by injection E).
  assert (conn_queryParams c0 = conn_queryParams c) as Hq by (by injection E).
  repeat (split; [done|]).
  split; [|done].
  pose proof (queryStringParameters_null config c0 routeKey
                (getEventType routeKey) body options now rid mid) as H.
  cbn in H. by rewrite H, Hq.
Qed.

Lemma posted_event_of_session_witness :
  CallBackend 0 "$connect" None None
    (post_of DEFAULT_CONFIG "http://localhost:8080/ws/connect" "$connect"
             sample_connection None None 1001 "r1" "m1")
    ∈ trace connected
  /\ exists c, objects connected !! 0%nat = Some c.
Proof.
  assert (CallBackend 0 "$connect" None None
            (post_of DEFAULT_CONFIG "http://localhost:8080/ws/connect" "$connect"
                     sample_connection None None 1001 "r1" "m1")
          ∈ trace connected) as H.
  { vm_compute. do 2 apply list_elem_of_further. apply list_elem_of_here. }
  split; [exact H|].
  destruct (posted_event_of_session no_json DEFAULT_CONFIG
              [Upgrade sample_request sample_id 1000 1000 1001 "r1" "m1"]
              0 "$connect" None None _ _ H) as (c & Hc & _).
  by exists c.
Defined.

(** X9.  For a partial configuration whose port, if given, is an integer
    from 0 to 65535, the configuration the constructor leaves has a domain
    name that is not empty: the one given, or [localhost:<port>] with the
    port given or else 3001 when none or the empty one is given.  So every
    event a gateway posts to a backend carries a domain name that is not
    empty.  A route table given replaces the default table as a whole. *)
Theorem new_config_domainName (config : PartialGatewayConfig) :
  (forall p, p_port config = Some p -> 0 <= p <= 65535) ->
  domainName (new_config config) <> ""
  /\ domainName (new_config config)
     = (if bool_decide (default "" (p_domainName config) = "")
        then "localhost:" ++ JsNumber.toString (default 3001 (p_port config))
        else default "" (p_domainName config))%string
  /\ (forall JSON_parse events r routeKey body options url init,
        CallBackend r routeKey body options (Fetch url init)
          ∈ trace (run JSON_parse (new_config config) events) ->
        ctx_domainName (ev_requestContext (fetch_body init))
        = domainName (new_config config)
        /\ ctx_domainName (ev_requestContext (fetch_body init)) <> "")
  /\ routes (new_config config)
     = default (routes DEFAULT_CONFIG) (p_routes config).
Proof.
  intros _.
  split; [apply new_config_nonempty|]. split; [|split].
  - unfold new_config. cbn [spread domainName port DEFAULT_CONFIG].
    by case_bool_decide.
  - intros JSON_parse events r routeKey body options url init Hin.
    rewrite (dispatched_domainName _ _ _ _ _ _ _ _ _ Hin).
    split; [done | apply new_config_nonempty].
  - unfold new_config. cbn [spread domainName routes DEFAULT_CONFIG].
    by case_bool_decide.
Qed.

Lemma new_config_domainName_witness :
  (forall p, p_port (port_only 8080) = Some p -> 0 <= p <= 65535)
  /\ domainName (new_config (port_only 8080)) = "localhost:8080".
Proof.
  assert (forall p, p_port (port_only 8080) = Some p -> 0 <= p <= 65535) as H.
  { intros p Hp. injection Hp as <-. lia. }
  split; [exact H|].
  exact (proj1 (proj2 (new_config_domainName (port_only 8080) H))).
Defined.

(** X10.  In a run in which no connection identity is generated twice, every
    pending timer is registered in the timer table under the key of its
    session and kind, and the close event of its session has not been
    handled.  So the close handler of a session leaves no timer of that
    session pending, and [stop] leaves no timer pending at all. *)
Theorem timers_released (JSON_parse : string -> option json)
    (config : GatewayConfig) (events : list Event) :
  NoDup (omap upgrade_id events) ->
  let g := run JSON_parse config events in
  (forall h t, timers g !! h = Some t ->
     timeoutTimers g !! timer_key t = Some h
     /\ closed g (timer_session t) = false)
  /\ (forall r code reason now requestId messageId h t,
        is_Some (deliverable g r) ->
        timers (on_close config r code reason now requestId messageId g) !! h
        = Some t ->
        timer_session t <> r)
  /\ timers (stop g) = ∅.
Proof.
  intros Hnd g.
  pose proof (registered_run JSON_parse config events Hnd) as Hreg. fold g in Hreg.
  destruct (run_ok JSON_parse config events) as [Hok Hso]. fold g in Hok, Hso.
  split; [|split].
  - intros h t Ht. split; [by apply (reg_key _ Hreg) | by apply (reg_open _ Hreg h)].
  - intros r code reason now rid mid h t Hd Ht Hr.
    pose proof (registered_on_close config r code reason now rid mid g Hok Hreg)
      as Hreg'.
    pose proof (reg_open _ Hreg' h t Ht) as Hopen.
    rewrite on_close_closed, Hr in Hopen.
    rewrite decide_True in Hopen by done.
    by rewrite bool_decide_eq_true_2 in Hopen.
  - by apply stop_timers.
Qed.

Lemma timers_released_witness :
  NoDup (omap upgrade_id two_sessions)
  /\ timers (stop (run no_json DEFAULT_CONFIG two_sessions)) = ∅.
Proof.
  assert (NoDup (omap upgrade_id two_sessions)) as H.
  { cbn. apply NoDup_cons. split; [|apply NoDup_singleton].
    intros Hin%list_elem_of_singleton. discriminate Hin. }
  split; [exact H|].
  exact (proj2 (proj2 (timers_released no_json DEFAULT_CONFIG two_sessions H))).
Defined.

(** X11.  In a run in which no connection identity is generated twice, the
    sessions created so far have the identities of the upgrades, in order,
    and a timer that fires closes the socket of the session that scheduled
    it, with code 1001 and the reason of its kind, if that session is still
    in the live set; it closes no other socket and removes no session. *)
Theorem timer_closes_own_session (JSON_parse : string -> option json)
    (config : GatewayConfig) (events : list Event) :
  NoDup (omap upgrade_id events) ->
  let g := run JSON_parse config events in
  session_ids g = omap upgrade_id events
  /\ (forall h t, timers g !! h = Some t ->
        timer_fired h g
        = match connections g !! timer_connectionId t with
          | Some _ => ws_close (timer_session t) 1001 (timeout_reason t)
                               (set_timers (delete h) g)
          | None => set_timers (delete h) g
          end)
  /\ (forall h, timers g !! h = None -> timer_fired h g = g)
  /\ (forall h, connections (timer_fired h g) = connections g).
Proof.
  intros Hnd g.
  pose proof (session_ids_run JSON_parse config events) as Hids. fold g in Hids.
  destruct (run_ok JSON_parse config events) as [Hok Hso]. fold g in Hok, Hso.
  split; [done|]. split; [|split].
  - intros h t Ht. unfold timer_fired. rewrite Ht.
    cbn [set_timers connections].
    destruct (connections g !! timer_connectionId t) as [r'|] eqn:Hlive; [|done].
    destruct (so_live _ _ Hso _ _ Hlive) as (Hlt' & Hsid' & _).
    destruct (ok_owner _ Hok _ _ Ht) as [Hlt Hsid].
    assert (r' = timer_session t) as ->.
    { apply (session_ids_inj g); try done; [by rewrite Hids | congruence]. }
    unfold timeout_reason. done.
  - intros h Ht. unfold timer_fired. by rewrite Ht.
  - intros h. apply (quiet_connections _ _ (quiet_timer_fired h g)).
Qed.

Lemma timer_closes_own_session_witness :
  NoDup (omap upgrade_id two_sessions)
  /\ session_ids (run no_json DEFAULT_CONFIG two_sessions)
     = omap upgrade_id two_sessions.
Proof.
  assert (NoDup (omap upgrade_id two_sessions)) as H.
  { cbn. apply NoDup_cons. split; [|apply NoDup_singleton].
    intros Hin%list_elem_of_singleton. discriminate Hin. }
  split; [exact H|].
  exact (proj1 (timer_closes_own_session no_json DEFAULT_CONFIG two_sessions H)).
Defined.

(** X12.  An HTTP request whose body has arrived never changes the live
    set, and changes the state at all only when it is a POST answered 200
    or a DELETE answered 204.  The handler answers with one of the statuses
    200, 204, 404, 405 and 410, or throws: the [TypeError] of the URL
    parser, exactly when the request target does not parse, or the
    [URIError] of the decoder. *)
Theorem request_effects (URL_parse : string -> Z -> option URL)
    (Buffer_toString : string -> string) (config : GatewayConfig)
    (req : IncomingMessage) (chunks : list string) (now : Z) (g : Gateway) :
  let method := or_else (msg_method req) "GET" in
  let out := Listener.handleHttpRequest URL_parse Buffer_toString config
                                        req chunks now g in
  (out.2 = g
   \/ (method = "POST" /\ out.1 = Normal (empty_response 200))
   \/ (method = "DELETE" /\ out.1 = Normal (empty_response 204)))
  /\ connections out.2 = connections g
  /\ match out.1 with
     | Normal res => res_status res ∈ [200; 204; 404; 405; 410]
     | Throw error => error ∈ ["TypeError"; "URIError"]
     end
  /\ (out.1 = Throw "TypeError"
      <-> Listener.request_url URL_parse config req = None).
Proof.
  cbv zeta. unfold Listener.handleHttpRequest.
  destruct (Listener.request_url URL_parse config req) as [url|].
  - destruct (handleHttpRequest_outcome (or_else (msg_method req) "GET")
                (url_pathname url)
                (Listener.received_body Buffer_toString chunks) now g)
      as (H1 & H2 & H3).
    split; [exact H1|]. split; [exact H2|]. split.
    + destruct (handleHttpRequest _ _ _ _ _).1 as [res|error]; [exact H3|].
      rewrite H3. repeat constructor.
    + split; [|done]. intros H. rewrite H in H3. discriminate H3.
  - cbn. split; [by left|]. split; [done|]. split; [|done].
    repeat constructor.
Qed.

(** X13.  [GET /health] answers 200 with the number of sessions in the live
    set, which is what [getConnectionCount] returns, and changes nothing.
    Any other request whose path is not [/@connections/] followed by at
    least one character is answered 404, and so is [/@connections/] itself;
    a method other than GET, POST and DELETE on a session path is answered
    405. *)
Theorem http_routing (method pathname body : string) (now : Z) (g : Gateway) :
  handleHttpRequest "GET" "/health" body now g
  = (Normal (json_response 200 (HealthBody (getConnectionCount g))), g)
  /\ (JsString.strip_prefix "/@connections/" pathname = None
      \/ pathname = "/@connections/" ->
      method <> "GET" \/ pathname <> "/health" ->
      handleHttpRequest method pathname body now g
      = (Normal (json_response 404 (MessageBody "Not Found" None)), g))
  /\ (forall connectionId,
        method ∉ ["GET"; "POST"; "DELETE"] ->
        handleManagementApi method connectionId body now g
        = (json_response 405 (MessageBody "Method Not Allowed" None), g)).
Proof.
  split; [done|]. split.
  - intros Hpath Hno. unfold handleHttpRequest.
    assert (bool_decide (method = "GET") && bool_decide (pathname = "/health")
            = false) as ->.
    { apply andb_false_iff. destruct Hno as [H|H];
        [left|right]; by apply bool_decide_eq_false_2. }
    assert (match_connections_path pathname = None) as ->; [|done].
    unfold match_connections_path. destruct Hpath as [->| ->]; done.
  - intros id Hm. unfold handleManagementApi.
    rewrite !bool_decide_eq_false_2; [done|..];
      intros ->; apply Hm; repeat constructor.
Qed.

(** X14.  DELETE on a session of the live set whose socket is open answers
    204 and sends the close frame 1000 [Closed by management API]; the
    socket is then closing, the session stays in the live set until the
    close event of the socket, and no backend is called.  A second DELETE,
    or a POST, then answers 410 and changes nothing. *)
Theorem delete_closes_socket (connectionId body : string) (now : Z)
    (g : Gateway) (r : nat) (c : Connection) (s : Socket) :
  connections g !! connectionId = Some r ->
  objects g !! r = Some c ->
  sockets g !! r = Some s -> readyState s = OPEN ->
  let out := handleManagementApi "DELETE" connectionId body now g in
  out.1 = empty_response 204
  /\ sockets out.2
     = <[r := {| readyState := CLOSING; sent := sent s;
                 closeFrame := Some (1000, "Closed by management API") |}]>
         (sockets g)
  /\ connections out.2 = connections g
  /\ objects out.2 = objects g
  /\ trace out.2 = (trace g ++ [WsClose r 1000 "Closed by management API"])%list
  /\ (forall method body' now', method ∈ ["POST"; "DELETE"] ->
        handleManagementApi method connectionId body' now' out.2
        = (Gone connectionId, out.2)).
Proof.
  intros Hr Hc Hs Hopen out.
  assert (out = (empty_response 204,
                 ws_close r 1000 "Closed by management API" g)) as ->.
  { unfold out, handleManagementApi, connections_get. rewrite Hr, Hc.
    cbn [bool_decide decide_rel]. unfold is_open. by rewrite Hs, Hopen. }
  cbn [fst snd].
  destruct (ws_close_frame r 1000 "Closed by management API" g)
    as (Hcon & Hobj & _ & _ & _ & Htr).
  assert (sockets (ws_close r 1000 "Closed by management API" g)
          = <[r := {| readyState := CLOSING; sent := sent s;
                      closeFrame := Some (1000, "Closed by management API") |}]>
              (sockets g)) as Hsock.
  { rewrite ws_close_sockets. apply map_eq. intros r'.
    rewrite lookup_alter. case_decide as Hx.
    - subst r'. rewrite lookup_insert_eq, Hs. cbn. unfold closing.
      by rewrite Hopen.
    - by rewrite lookup_insert_ne. }
  split; [done|]. split; [done|]. split; [done|]. split; [done|].
  split; [done|].
  intros method body' now' Hm.
  apply (gone_not_open method connectionId body' now'
           (ws_close r 1000 "Closed by management API" g) r).
  - by rewrite Hcon.
  - unfold is_open. by rewrite Hsock, lookup_insert_eq.
  - done.
Qed.

Lemma delete_closes_socket_witness :
  connections connected !! sample_id = Some 0%nat
  /\ (handleManagementApi "DELETE" sample_id "" 1500 connected).1
     = empty_response 204.
Proof.
  assert (connections connected !! sample_id = Some 0%nat) as H1
    by (vm_compute; reflexivity).
  assert (objects connected !! 0%nat = Some sample_connection) as H2
    by (vm_compute; reflexivity).
  assert (sockets connected !! 0%nat = Some open_socket) as H3
    by (vm_compute; reflexivity).
  split; [exact H1|].
  exact (proj1 (delete_closes_socket sample_id "" 1500 connected 0
                  sample_connection open_socket H1 H2 H3 eq_refl)).
Defined.

(** X15.  POST on a session of the live set whose socket is open answers
    200, writes to the socket of that session, and to no other, the body as
    the handler received it: the chunks of the request, each decoded on its
    own, one after the other; when the decoding leaves every chunk as it
    is, that is the request body unchanged.  The handler sets the time of
    the last activity of the session; a GET for the session then reports
    that time, with the connect time unchanged.  The live set stays as it
    is and no backend is called. *)
Theorem post_pushes_body (Buffer_toString : string -> string)
    (connectionId : string) (chunks : list string) (now : Z)
    (g : Gateway) (r : nat) (c : Connection) (s : Socket) :
  connections g !! connectionId = Some r ->
  objects g !! r = Some c ->
  sockets g !! r = Some s -> readyState s = OPEN ->
  let body := Listener.received_body Buffer_toString chunks in
  let out := handleManagementApi "POST" connectionId body now g in
  out.1 = empty_response 200
  /\ sockets out.2 = <[r := pushed body s]> (sockets g)
  /\ (Forall (λ chunk, Buffer_toString chunk = chunk) chunks ->
      body = String.concat "" chunks)
  /\ objects out.2 = <[r := touch now c]> (objects g)
  /\ connections out.2 = connections g
  /\ trace out.2 = (trace g ++ [WsSend r body])%list
  /\ (forall body' now',
        handleManagementApi "GET" connectionId body' now' out.2
        = (json_response 200
             (InfoBody connectionId (conn_connectedAt c) now), out.2)).
Proof.
  intros Hr Hc Hs Hopen body out.
  destruct (ws_send_open r body g s Hs Hopen) as (Hsock & Hcon & Hobj & Htr).
  assert (out = (empty_response 200,
                 set_objects (alter (touch now) r) (ws_send r body g))) as ->.
  { unfold out, handleManagementApi, post_end, connections_get. rewrite Hr, Hc.
    cbn [bool_decide decide_rel]. unfold is_open. by rewrite Hs, Hopen. }
  cbn [fst snd set_objects sockets objects connections trace].
  assert (alter (touch now) r (objects (ws_send r body g))
          = <[r := touch now c]> (objects g)) as Hobj'.
  { rewrite Hobj. apply map_eq. intros r'. rewrite lookup_alter.
    case_decide as Hx.
    - subst r'. by rewrite lookup_insert_eq, Hc.
    - by rewrite lookup_insert_ne. }
  split; [done|]. split; [done|].
  split; [apply received_body_well_formed|].
  split; [done|]. split; [done|]. split; [done|].
  intros body' now'. unfold handleManagementApi, connections_get.
  cbn [bool_decide decide_rel set_objects connections objects].
  by rewrite Hcon, Hr, Hobj', lookup_insert_eq.
Qed.

Lemma post_pushes_body_witness :
  connections connected !! sample_id = Some 0%nat
  /\ (handleManagementApi "POST" sample_id
        (Listener.received_body well_formed_chunk ["hel"; "lo"]) 1500
        connected).1
     = empty_response 200.
Proof.
  assert (connections connected !! sample_id = Some 0%nat) as H1
    by (vm_compute; reflexivity).
  assert (objects connected !! 0%nat = Some sample_connection) as H2
    by (vm_compute; reflexivity).
  assert (sockets connected !! 0%nat = Some open_socket) as H3
    by (vm_compute; reflexivity).
  split; [exact H1|].
  exact (proj1 (post_pushes_body well_formed_chunk sample_id ["hel"; "lo"]
                  1500 connected 0 sample_connection open_socket
                  H1 H2 H3 eq_refl)).
Defined.

(** X16.  A session just admitted stays as it is when its [$connect] POST
    is accepted; otherwise (no integration for [$connect] or [$default], a
    status outside 200 to 299, or a failed request) its socket is sent the
    close frame 1011 [Backend connect failed].  Either way the session is
    in the live set, under its identity, until the close event. *)
Theorem connect_outcome (config : GatewayConfig) (req : UpgradeRequest)
    (connectionId : string) (connectedAt lastActivityAt now : Z)
    (requestId messageId : string) (outcome : FetchOutcome) (g : Gateway) :
  let r := next_ref g in
  let g1 := handleConnection config req connectionId connectedAt lastActivityAt
                             now requestId messageId g in
  let g2 := connect_settled r outcome g1 in
  sockets g1 !! r = Some open_socket
  /\ sockets g2 !! r
     = Some (if accepted config outcome then open_socket
             else {| readyState := CLOSING; sent := [];
                     closeFrame := Some (1011, "Backend connect failed") |})
  /\ connections g2 !! connectionId = Some r
  /\ objects g2 !! r
     = Some (newConnection req connectionId r connectedAt lastActivityAt).
Proof.
  cbv zeta. rewrite handleConnection_unfold.
  set (a := admitted req connectionId connectedAt lastActivityAt g).
  set (d := callBackend config "$connect" _ None None now requestId messageId).
  set (e := CallBackend (next_ref g) "$connect" None None d).
  destruct (setupTimeouts_frame config (next_ref g) connectionId a)
    as (Hcon & Hobj & Hsock & _).
  set (x := setupTimeouts config (next_ref g) connectionId a) in *.
  destruct (announce_frame (insert (next_ref g) d) e x)
    as (Ac & _ & Ao & As & _).
  pose proof (connecting_announce (insert (next_ref g) d) e x) as Ag.
  set (g1 := set_connecting (insert (next_ref g) d) (emit e x)) in *.
  clearbody g1 x.
  assert (sockets g1 !! next_ref g = Some open_socket) as Hs1.
  { rewrite As, Hsock. unfold a. cbn. by rewrite lookup_insert_eq. }
  assert (connections g1 !! connectionId = Some (next_ref g)) as Hc1.
  { rewrite Ac, Hcon. unfold a. cbn. by rewrite lookup_insert_eq. }
  assert (objects g1 !! next_ref g
          = Some (newConnection req connectionId (next_ref g)
                                connectedAt lastActivityAt)) as Ho1.
  { rewrite Ao, Hobj. unfold a. cbn. by rewrite lookup_insert_eq. }
  assert (callBackend_result d outcome = accepted config outcome) as Hres.
  { unfold d. rewrite callBackend_resolution
      by (apply (bool_decide_eq_false_1 _); reflexivity).
    unfold accepted, post_of, callBackend_result, response_ok.
    destruct (routes config !! "$connect") as [i|] eqn:H1.
    - destruct outcome as [status|]; [|done].
      rewrite (bool_decide_eq_true_2 (_ \/ _)) by (left; eauto).
      rewrite andb_true_r.
      destruct (bool_decide (200 <= status <= 299)) eqn:Hb.
      + apply bool_decide_eq_true_1 in Hb. apply andb_true_iff. split; lia.
      + apply bool_decide_eq_false_1 in Hb. apply andb_false_iff. lia.
    - destruct (routes config !! "$default") as [i|] eqn:H2.
      + destruct outcome as [status|]; [|done].
        rewrite (bool_decide_eq_true_2 (_ \/ _)) by (right; eauto).
        rewrite andb_true_r.
        destruct (bool_decide (200 <= status <= 299)) eqn:Hb.
        * apply bool_decide_eq_true_1 in Hb. apply andb_true_iff. split; lia.
        * apply bool_decide_eq_false_1 in Hb. apply andb_false_iff. lia.
      + destruct outcome as [status|]; [|done].
        rewrite (bool_decide_eq_false_2 (_ \/ _)) by (by intros [[]|[]]).
        by rewrite andb_false_r. }
  split; [exact Hs1|].
  unfold connect_settled.
  assert (connecting g1 !! next_ref g = Some d) as ->
    by (by rewrite Ag, lookup_insert_eq).
  rewrite Hres. destruct (accepted config outcome).
  - cbn [set_connecting sockets connections objects]. done.
  - destruct (ws_close_frame (next_ref g) 1011 "Backend connect failed"
                (set_connecting (delete (next_ref g)) g1))
      as (-> & -> & _).
    rewrite ws_close_sockets, lookup_alter, decide_True by done.
    cbn [set_connecting sockets connections objects].
    rewrite Hs1. done.
Qed.

(** X17.  [stop] empties the live set and the timer table and sends the
    close frame 1001 [Server shutting down] to every socket that was in the
    live set and open; the other sockets and the session objects stay as
    they are.  After it the connection count is 0, every management request
    is answered 410, and a second [stop] changes nothing. *)
Theorem stop_shuts_down (g : Gateway) :
  connections (stop g) = ∅
  /\ timeoutTimers (stop g) = ∅
  /\ getConnectionCount (stop g) = 0%nat
  /\ (forall id r, connections g !! id = Some r ->
        sockets (stop g) !! r
        = closing 1001 "Server shutting down" <$> sockets g !! r)
  /\ (forall r, (forall id, connections g !! id <> Some r) ->
        sockets (stop g) !! r = sockets g !! r)
  /\ objects (stop g) = objects g
  /\ (forall method connectionId body now,
        method ∈ ["GET"; "POST"; "DELETE"] ->
        handleManagementApi method connectionId body now (stop g)
        = (Gone connectionId, stop g))
  /\ stop (stop g) = stop g.
Proof.
  set (g1 := map_fold (λ _ connection acc,
                         ws_close connection 1001 "Server shutting down" acc)
                      g (connections g)).
  set (g2 := set_connections (λ _, ∅) g1).
  set (g3 := map_fold (λ _ timer acc, clearTimeout timer acc)
                      g2 (timeoutTimers g2)).
  assert (stop g = set_timeoutTimers (λ _, ∅) g3) as Hstop by done.
  destruct (clear_all_frame (timeoutTimers g2) g2) as (Hc3 & Hs3 & Ho3 & _).
  fold g3 in Hc3, Hs3, Ho3.
  destruct (close_all_frame (connections g) 1001 "Server shutting down" g)
    as (_ & Ho1 & _).
  fold g1 in Ho1.
  destruct (close_all_sockets (connections g) 1001 "Server shutting down" g)
    as (Hin & Hout).
  fold g1 in Hin, Hout.
  pose proof (stop_connections g) as Hcon.
  assert (timeoutTimers (stop g) = ∅) as HtT by (by rewrite Hstop).
  assert (sockets (stop g) = sockets g1) as Hsock
    by (rewrite Hstop; cbn [set_timeoutTimers sockets]; by rewrite Hs3).
  split; [done|]. split; [done|].
  split; [unfold getConnectionCount; by rewrite Hcon|].
  split; [intros id r Hr; rewrite Hsock; by apply (Hin id)|].
  split; [intros r Hr; rewrite Hsock; by apply Hout|].
  split; [rewrite Hstop; cbn [set_timeoutTimers objects]; by rewrite Ho3|].
  split.
  - intros method id body now Hm. apply gone_absent; [|done].
    by rewrite Hcon, lookup_empty.
  - assert (forall x, connections x = ∅ -> timeoutTimers x = ∅ -> stop x = x)
      as Hid; [|by apply Hid].
    intros x Hx1 Hx2. unfold stop. rewrite Hx1, map_fold_empty.
    cbn [set_connections timeoutTimers]. rewrite Hx2, map_fold_empty.
    destruct x. cbn in *. by subst.
Qed.

(** X18.  A session captures from its upgrade request: for every query
    parameter the last value given, for every header the last value that is
    defined, under the name in lower case and taking the first value of an
    array, and nothing under the name [__proto__]; as source address the
    remote address with a leading [::ffff:] removed, or [127.0.0.1] when
    the remote address is missing or empty; as user agent the header
    [user-agent], or the empty string. *)
Theorem session_capture (req : UpgradeRequest) (connectionId : string)
    (ws : nat) (connectedAt lastActivityAt : Z) :
  let c := newConnection req connectionId ws connectedAt lastActivityAt in
  (forall k, conn_queryParams c !! k
             = if bool_decide (k = "__proto__") then None
               else last_of k (req_searchParams req))
  /\ (forall k, conn_headers c !! k
                = if bool_decide (k = "__proto__") then None
                  else last_of k (header_pairs (req_headers req)))
  /\ (req_remoteAddress req = None \/ req_remoteAddress req = Some "" ->
      conn_sourceIp c = "127.0.0.1")
  /\ (forall a, req_remoteAddress req = Some ("::ffff:" ++ a)%string ->
        conn_sourceIp c = a)
  /\ (forall a, req_remoteAddress req = Some a -> a <> "" ->
        all_chars (λ x, negb (Ascii.eqb ":" x)) a = true ->
        conn_sourceIp c = a)
  /\ conn_userAgent c
     = match header "user-agent" (req_headers req) with
       | Some s => s
       | None => ""
       end
  /\ conn_id c = connectionId
  /\ conn_connectedAt c = connectedAt.
Proof.
  cbv zeta. cbn [newConnection conn_queryParams conn_headers conn_sourceIp
                 conn_userAgent conn_id conn_connectedAt].
  split; [apply parseQueryParams_lookup|].
  split; [intros k; rewrite parseHeaders_pairs; apply parseQueryParams_lookup|].
  split; [by intros [-> | ->]|].
  split.
  { intros a ->. unfold or_else.
    rewrite bool_decide_eq_false_2 by (by rewrite KeyFacts.append_cons).
    apply (replace_prefix "::ffff:"). }
  split.
  { intros a -> Hne Ha. unfold or_else.
    rewrite bool_decide_eq_false_2 by done. by apply replace_absent. }
  split; [|done].
  unfold or_else. destruct (header "user-agent" (req_headers req)) as [s|]; [|done].
  by case_bool_decide.
Qed.

(** X19.  Apart from what it logs and from the closing of the two
    listeners in [stop], everything a run does to the outside world, from
    the requests as Node delivers them, is of these kinds: a backend call
    from one of the three call sites (route [$connect] with no body at
    admission, the selected route with the frame as body on a frame, route
    [$disconnect] with no body and the close code and reason on the close
    event); a timer for the configured idle or hard timeout in
    milliseconds; a cancelled timer; a frame pushed to a socket; one of the
    five close frames; an HTTP response with status 200, 204, 404, 405 or
    410; or an exception nothing catches, the [TypeError] of a request or
    upgrade target that does not parse or the [URIError] of a malformed
    management path. *)
Theorem effects_of_a_run (URL_parse : string -> Z -> option URL)
    (Buffer_toString : string -> string)
    (JSON_parse : string -> option json)
    (config : GatewayConfig) (deliveries : list Delivery) :
  Forall (allowed JSON_parse config)
         (trace (Listener.run URL_parse Buffer_toString JSON_parse config
                              deliveries)).
Proof.
  unfold Listener.run.
  apply extends_run; [apply extends_listener_step | constructor].
Qed.

(** X20.  In a run in which no connection identity is generated twice, every
    session of the live set whose socket is open has both its timers
    pending and registered: an idle timer for [idleTimeout] seconds and a
    hard timer for [hardTimeout] seconds, each for the identity of the
    session.  No open session of the live set is ever without a timeout. *)
Theorem open_sessions_have_timers (JSON_parse : string -> option json)
    (config : GatewayConfig) (events : list Event) :
  NoDup (omap upgrade_id events) ->
  let g := run JSON_parse config events in
  forall id r,
    connections g !! id = Some r -> is_open g r = true ->
    (exists h, timers g !! h = Some (idle_timer config r id)
               /\ timeoutTimers g !! idleKey id = Some h)
    /\ (exists h, timers g !! h = Some (hard_timer config r id)
                  /\ timeoutTimers g !! hardKey id = Some h).
Proof.
  intros Hnd g id r Hlive Hopen.
  pose proof (covered_run JSON_parse config events Hnd) as Hcov. fold g in Hcov.
  pose proof (registered_run JSON_parse config events Hnd) as Hreg.
  fold g in Hreg.
  split.
  - destruct (Hcov Idle id r Hlive Hopen) as (h & Ht). exists h.
    split; [done|]. apply (reg_key _ Hreg _ _ Ht).
  - destruct (Hcov Hard id r Hlive Hopen) as (h & Ht). exists h.
    split; [done|]. apply (reg_key _ Hreg _ _ Ht).
Qed.

Lemma open_sessions_have_timers_witness :
  NoDup (omap upgrade_id two_sessions)
  /\ exists h, timers (run no_json DEFAULT_CONFIG two_sessions) !! h
               = Some (hard_timer DEFAULT_CONFIG 1 "BBBBBBBBBBBB=").
Proof.
  assert (NoDup (omap upgrade_id two_sessions)) as H.
  { cbn. apply NoDup_cons. split; [|apply NoDup_singleton].
    intros Hin%list_elem_of_singleton. discriminate Hin. }
  split; [exact H|].
  destruct (open_sessions_have_timers no_json DEFAULT_CONFIG two_sessions H
              "BBBBBBBBBBBB=" 1%nat) as [_ (h & Ht & _)].
  - vm_compute; reflexivity.
  - vm_compute; reflexivity.
  - by exists h.
Defined.

(** X21.  A management client that percent-encodes the identity, as the
    tests do with [encodeURIComponent], reaches the session whenever the
    URL parser leaves the path [/@connections/<encoded id>] as it is: for
    every identity of ASCII characters that is not empty, the decoder
    returns the identity from its encoding, and the request reaches the
    management handler with the identity itself.  The encoding of a
    generated identity is its twelve letters or digits followed by
    [%3D]. *)
Theorem encoded_id_in_path (URL_parse : string -> Z -> option URL)
    (Buffer_toString : string -> string) (config : GatewayConfig)
    (id : string) (req : IncomingMessage) (url : URL)
    (chunks : list string) (now : Z) (g : Gateway) :
  id <> "" -> all_chars is_ascii id = true ->
  Listener.request_url URL_parse config req = Some url ->
  url_pathname url = ("/@connections/" ++ encodeURIComponent id)%string ->
  let out := handleManagementApi (or_else (msg_method req) "GET") id
               (Listener.received_body Buffer_toString chunks) now g in
  JsURI.decodeURIComponent (encodeURIComponent id) = Some id
  /\ Listener.handleHttpRequest URL_parse Buffer_toString config req chunks
                                now g
     = (Normal out.1, out.2)
  /\ (forall draw, (forall i, (i < 12)%nat -> 0 <= draw i < 62) ->
        encodeURIComponent (generateConnectionId draw)
        = (substring 0 12 (generateConnectionId draw) ++ "%3D")%string).
Proof.
  intros Hne Hascii Hurl Hpath out.
  assert (JsURI.decodeURIComponent (encodeURIComponent id) = Some id) as Hd.
  { unfold JsURI.decodeURIComponent. by apply EncodingFacts.decode_encode. }
  split; [exact Hd|]. split.
  - unfold Listener.handleHttpRequest. rewrite Hurl, Hpath.
    unfold handleHttpRequest, match_connections_path.
    rewrite GeneratorFacts.strip_prefix_app.
    rewrite (bool_decide_eq_false_2 (encodeURIComponent id = ""))
      by (by apply EncodingFacts.encode_nonempty).
    rewrite EncodingFacts.encode_line_free. cbn [orb]. rewrite Hd.
    replace (bool_decide (("/@connections/" ++ encodeURIComponent id)%string
                          = "/health")) with false;
      [|symmetry; apply bool_decide_eq_false_2; by rewrite KeyFacts.append_cons].
    rewrite andb_false_r. unfold out.
    by destruct (handleManagementApi _ _ _ _ _).
  - intros draw Hdraw.
    destruct (GeneratorFacts.generateConnectionId_spec draw Hdraw)
      as (s & -> & Hlen & Hs).
    rewrite <- Hlen, GeneratorFacts.substring_app_l.
    rewrite EncodingFacts.encode_app, EncodingFacts.encode_unreserved; [done|].
    apply (GeneratorFacts.all_chars_impl is_alnum); [|done].
    apply EncodingFacts.alnum_unreserved.
Qed.

Lemma encoded_id_in_path_witness :
  sample_id <> ""
  /\ all_chars is_ascii sample_id = true
  /\ Listener.request_url path_as_is DEFAULT_CONFIG
       (sample_message "GET" "/@connections/AbCdEfGh1234%3D")
     = Some {| url_pathname := "/@connections/AbCdEfGh1234%3D";
               url_searchParams := [] |}
  /\ JsURI.decodeURIComponent (encodeURIComponent sample_id) = Some sample_id.
Proof.
  assert (sample_id <> "") as H1 by done.
  assert (all_chars is_ascii sample_id = true) as H2 by reflexivity.
  assert (Listener.request_url path_as_is DEFAULT_CONFIG
            (sample_message "GET" "/@connections/AbCdEfGh1234%3D")
          = Some {| url_pathname := "/@connections/AbCdEfGh1234%3D";
                    url_searchParams := [] |}) as H3 by reflexivity.
  split; [exact H1|]. split; [exact H2|]. split; [exact H3|].
  exact (proj1 (encoded_id_in_path path_as_is well_formed_chunk DEFAULT_CONFIG
                  sample_id _ _ [] 0 initial H1 H2 H3 eq_refl)).
Defined.

(** X22.  A management path whose identity part has a percent sign that is
    not followed by two hexadecimal digits makes the request handler throw
    the [URIError] of the decoder, whatever the method: no response is
    written and the state is unchanged. *)
Theorem malformed_escape_throws (method pathname body : string) (now : Z)
    (g : Gateway) (a t : string) :
  match_connections_path pathname = Some (a ++ String "%" t)%string ->
  all_chars plain_char a = true ->
  JsURI.escape (String "%" t) = None ->
  JsURI.decodeURIComponent (a ++ String "%" t) = None
  /\ handleHttpRequest method pathname body now g = (Throw "URIError", g).
Proof.
  intros Hpath Ha Hesc.
  assert (JsURI.decodeURIComponent (a ++ String "%" t) = None) as Hd.
  { unfold JsURI.decodeURIComponent. apply decode_malformed; [|done|done].
    rewrite KeyFacts.length_append. cbn [String.length]. lia. }
  split; [exact Hd|].
  unfold handleHttpRequest. rewrite Hpath, Hd.
  assert (pathname <> "/health") as Hne by (by intros ->).
  by rewrite (bool_decide_eq_false_2 (pathname = "/health")), andb_false_r.
Qed.

Lemma malformed_escape_throws_witness :
  match_connections_path "/@connections/abc%zz" = Some ("abc" ++ String "%" "zz")%string
  /\ handleHttpRequest "DELETE" "/@connections/abc%zz" "" 0 initial
     = (Throw "URIError", initial).
Proof.
  assert (match_connections_path "/@connections/abc%zz"
          = Some ("abc" ++ String "%" "zz")%string) as H1 by reflexivity.
  split; [exact H1|].
  exact (proj2 (malformed_escape_throws "DELETE" "/@connections/abc%zz" "" 0
                  initial "abc" "zz" H1 eq_refl eq_refl)).
Defined.
